(** * Verification of the Reddit acquisition engine (reddit_scraper.py)

    A shallow embedding of [RedditScraper]: score normalisation, permalink
    assembly, the retry loop of [_make_request], detail enrichment and the
    two-phase assembly of [_scrape_without_api].

    Conventions of the embedding.
    - Python [str] is [string]; only ASCII text is modelled.
    - Python [int] is [Z]; Python [float] is an IEEE-754 binary64 value,
      [spec_float] with precision 53 and [emax] 1024.
    - Sleep durations are exact rationals: [random.uniform a b] is
      [a + (b - a) * u] for a draw [u] of the half-open unit interval.
      The code computes this value in binary64, where the rounding can
      reach [b]; since the rounding is monotone and the end points are
      floats, the closed bounds [a <= w <= b] hold of the code as well,
      and no strict upper bound is stated.
    - A BeautifulSoup element is the record of the results of the queries
      that the code evaluates on it.
    - A thread record is a Python dict, [gmap string value], living in a
      heap of dict objects, since detail enrichment mutates it in place. *)

From Stdlib Require Import ZArith QArith Qround Lqa String Ascii List Lia Bool.
From Stdlib Require Import Floats.SpecFloat.
From stdpp Require Import gmap strings list pretty.

Local Open Scope string_scope.
Local Open Scope list_scope.
Local Open Scope Z_scope.

(** ** Python built-ins on text *)

Module Py.

(** Outcome of an expression that may raise. *)
Inductive exn := ValueError | OverflowError | KeyError | TypeError | OtherError.

Inductive res (A : Type) :=
| Ok (a : A)
| Raise (e : exn).
Arguments Ok {A} a.
Arguments Raise {A} e.

Definition code (c : ascii) : nat := nat_of_ascii c.

Definition isdigit (c : ascii) : bool :=
  (48 <=? code c)%nat && (code c <=? 57)%nat.

Definition isupper (c : ascii) : bool :=
  (65 <=? code c)%nat && (code c <=? 90)%nat.

(** [str.isspace] on the ASCII range: TAB..CR, FS..US and the blank. *)
Definition isspace (c : ascii) : bool :=
  ((9 <=? code c)%nat && (code c <=? 13)%nat)
  || ((28 <=? code c)%nat && (code c <=? 32)%nat).

Definition lower_char (c : ascii) : ascii :=
  if isupper c then ascii_of_nat (code c + 32) else c.

(** [s.lower()] *)
Fixpoint lower (s : string) : string :=
  match s with
  | EmptyString => EmptyString
  | String c r => String (lower_char c) (lower r)
  end.

Fixpoint lstrip (s : string) : string :=
  match s with
  | EmptyString => EmptyString
  | String c r => if isspace c then lstrip r else s
  end.

(** Drops the trailing white space: a character is kept when it is not a
    blank or something is kept after it. *)
Fixpoint rstrip (s : string) : string :=
  match s with
  | EmptyString => EmptyString
  | String c r =>
      match rstrip r with
      | EmptyString => if isspace c then EmptyString else String c EmptyString
      | r' => String c r'
      end
  end.

(** [s.strip()] *)
Definition strip (s : string) : string := rstrip (lstrip s).

(** [s.startswith(p)] *)
Fixpoint startswith (s p : string) : bool :=
  match p, s with
  | EmptyString, _ => true
  | String _ _, EmptyString => false
  | String a p', String b s' => Ascii.eqb a b && startswith s' p'
  end.

(** [sub in s] *)
Fixpoint contains (sub s : string) : bool :=
  startswith s sub ||
  match s with
  | EmptyString => false
  | String _ r => contains sub r
  end.

(** [s.replace(old, new)] for a non-empty [old]: [skip] counts the
    characters of a match still to be dropped. *)
Fixpoint replace_from (old new s : string) (skip : nat) : string :=
  match s with
  | EmptyString => EmptyString
  | String c r =>
      match skip with
      | S k => replace_from old new r k
      | O =>
          if startswith s old
          then new +:+ replace_from old new r (String.length old - 1)
          else String c (replace_from old new r O)
      end
  end.

(** With an empty [old], Python inserts [new] around every character. *)
Fixpoint interleave (new s : string) : string :=
  match s with
  | EmptyString => new
  | String c r => new +:+ String c (interleave new r)
  end.

Definition replace (s old new : string) : string :=
  match old with
  | EmptyString => interleave new s
  | _ => replace_from old new s O
  end.

(** [re.sub(r'[^\d]', '', s)]: the digits of [s], in order. *)
Fixpoint digits_only (s : string) : string :=
  match s with
  | EmptyString => EmptyString
  | String c r => if isdigit c then String c (digits_only r) else digits_only r
  end.

(** [s.split(sep)[-1]] for a one-character separator: what follows the
    last separator, the whole of [s] when there is none. *)
Fixpoint last_field (sep : ascii) (s : string) : string :=
  match s with
  | EmptyString => EmptyString
  | String c r =>
      if Ascii.eqb c sep then last_field sep r
      else if contains (String sep EmptyString) r then last_field sep r
      else s
  end.

(** Truthiness of a [str]. *)
Definition truthy (s : string) : bool :=
  match s with EmptyString => false | _ => true end.

Definition len (s : string) : Z := Z.of_nat (String.length s).

Definition digit_val (c : ascii) : Z := Z.of_nat (code c - 48).

(** Value of a run of digits read after the value [acc]. *)
Fixpoint digits_value (s : string) (acc : Z) : Z :=
  match s with
  | EmptyString => acc
  | String c r => digits_value r (10 * acc + digit_val c)
  end.

(** Digits with single underscores between them, as the literal grammar
    of [int] and [float] allows; [prev] tells that the previous
    character was a digit.  [None] is a malformed run. *)
Fixpoint grouped_digits (s : string) (acc : Z) (prev : bool) : option Z :=
  match s with
  | EmptyString => if prev then Some acc else None
  | String c r =>
      if isdigit c then grouped_digits r (10 * acc + digit_val c) true
      else if Ascii.eqb c "_" && prev then grouped_digits r acc false
      else None
  end.

Definition signed (s : string) : bool * string :=
  match s with
  | String "-" r => (true, r)
  | String "+" r => (false, r)
  | _ => (false, s)
  end.

(** [int(s)] in base ten. *)
Definition int (s : string) : res Z :=
  let '(neg, body) := signed (strip s) in
  match grouped_digits body 0 false with
  | Some n => Ok (if neg then - n else n)
  | None => Raise ValueError
  end.

End Py.

(** ** Python floats: IEEE-754 binary64 *)

Module F64.

Definition prec : Z := 53.
Definition emax : Z := 1024.

(** Conversion of an [int], to nearest even. *)
Definition of_Z (z : Z) : spec_float := binary_normalize prec emax z 0 false.

Definition mul (x y : spec_float) : spec_float := SFmul prec emax x y.

(** The double nearest to [m * 10 ^ x], as the correctly rounded
    conversion of a decimal literal gives it. *)
Definition of_decimal (neg : bool) (m x : Z) : spec_float :=
  match m with
  | Zpos p =>
      if 0 <=? x
      then binary_normalize prec emax ((if neg then Zneg p else Zpos p) * 10 ^ x) 0 neg
      else SFdiv prec emax (S754_finite neg p 0)
                           (S754_finite false (Z.to_pos (10 ^ (- x))) 0)
  | _ => S754_zero neg
  end.

(** [int(x)]: truncation toward zero; infinities and NaN raise. *)
Definition to_int (x : spec_float) : Py.res Z :=
  match x with
  | S754_zero _ => Py.Ok 0
  | S754_infinity _ => Py.Raise Py.OverflowError
  | S754_nan => Py.Raise Py.ValueError
  | S754_finite s m e =>
      let a := Z.shiftl (Zpos m) e in
      Py.Ok (if s then - a else a)
  end.

(** A run of digits with single underscores between digits, possibly
    empty, read after [acc]; gives the value, the number of digits and
    what follows the run. *)
Fixpoint digitpart (s : string) (acc : Z) (cnt : nat) (prev : bool)
  : option (Z * nat * string) :=
  match s with
  | EmptyString =>
      if prev || (cnt =? 0)%nat then Some (acc, cnt, EmptyString) else None
  | String c r =>
      if Py.isdigit c then digitpart r (10 * acc + Py.digit_val c) (S cnt) true
      else if Ascii.eqb c "_"
           then (if prev then digitpart r acc cnt false else None)
           else if prev || (cnt =? 0)%nat then Some (acc, cnt, s) else None
  end.

(** The exponent part: empty, or [e] or [E], an optional sign and a
    non-empty run of digits up to the end of the text. *)
Definition exponent (s : string) : option Z :=
  match s with
  | EmptyString => Some 0
  | String c r =>
      if Ascii.eqb c "e" || Ascii.eqb c "E" then
        let '(neg, body) := Py.signed r in
        match Py.grouped_digits body 0 false with
        | Some n => Some (if neg then - n else n)
        | None => None
        end
      else None
  end.

(** [float(s)] *)
Definition of_string (s : string) : Py.res spec_float :=
  let '(neg, body) := Py.signed (Py.strip s) in
  let low := Py.lower body in
  if String.eqb low "inf" || String.eqb low "infinity" then Py.Ok (S754_infinity neg)
  else if String.eqb low "nan" then Py.Ok S754_nan
  else
    match digitpart body 0 0 false with
    | None => Py.Raise Py.ValueError
    | Some (i, ni, rest) =>
        let frac :=
          match rest with
          | String "." r => digitpart r i 0 false
          | _ => Some (i, O, rest)
          end in
        match frac with
        | None => Py.Raise Py.ValueError
        | Some (m, nf, rest') =>
            if (ni + nf =? 0)%nat then Py.Raise Py.ValueError
            else
              match exponent rest' with
              | None => Py.Raise Py.ValueError
              | Some e => Py.Ok (of_decimal neg m (e - Z.of_nat nf))
              end
        end
    end.

End F64.

(** ** Regular expressions of the listing parsers *)

Module Re.

Definition lower_alnum (c : ascii) : bool :=
  Py.isdigit c || ((97 <=? Py.code c)%nat && (Py.code c <=? 122)%nat).

(** The longest prefix of characters satisfying [p], and the rest. *)
Fixpoint span (p : ascii -> bool) (s : string) : string * string :=
  match s with
  | EmptyString => (EmptyString, EmptyString)
  | String c r =>
      if p c then let '(a, b) := span p r in (String c a, b)
      else (EmptyString, s)
  end.

Fixpoint drop (n : nat) (s : string) : string :=
  match n, s with
  | O, _ => s
  | S k, String _ r => drop k r
  | S _, EmptyString => EmptyString
  end.

(** [lit([a-z0-9]+)] anchored at the start of [s]: group 1. *)
Definition token_after (lit s : string) : option string :=
  if Py.startswith s lit then
    match span lower_alnum (drop (String.length lit) s) with
    | (EmptyString, _) => None
    | (run, _) => Some run
    end
  else None.

(** [re.search(r't3_([a-z0-9]+)', s)]: group 1 of the leftmost match. *)
Fixpoint search_t3 (s : string) : option string :=
  match token_after "t3_" s with
  | Some g => Some g
  | None => match s with
            | EmptyString => None
            | String _ r => search_t3 r
            end
  end.

(** [re.search(r't3_([a-z0-9]+)|post_([a-z0-9]+)', s)]: the group that
    took part in the leftmost match. *)
Fixpoint search_t3_or_post (s : string) : option string :=
  match token_after "t3_" s with
  | Some g => Some g
  | None =>
      match token_after "post_" s with
      | Some g => Some g
      | None => match s with
                | EmptyString => None
                | String _ r => search_t3_or_post r
                end
      end
  end.

(** [/comments/([a-z0-9]+)/] anchored at the start of [s]. *)
Definition comments_id_at (s : string) : option string :=
  if Py.startswith s "/comments/" then
    match span lower_alnum (drop 10 s) with
    | (EmptyString, _) => None
    | (run, after) => if Py.startswith after "/" then Some run else None
    end
  else None.

(** [re.search(r'/comments/([a-z0-9]+)/', s)]: group 1. *)
Fixpoint search_comments_id (s : string) : option string :=
  match comments_id_at s with
  | Some g => Some g
  | None => match s with
            | EmptyString => None
            | String _ r => search_comments_id r
            end
  end.

Definition is_k_or_m (c : ascii) : bool :=
  let l := Py.lower_char c in Ascii.eqb l "k" || Ascii.eqb l "m".

(** Group 1 of [(\d+(\.\d+)?[km]?)], case-insensitive, anchored at a digit. *)
Definition score_token_at (s : string) : string :=
  let '(ip, r1) := span Py.isdigit s in
  let '(fp, r2) :=
    match r1 with
    | String "." r =>
        match span Py.isdigit r with
        | (EmptyString, _) => (EmptyString, r1)
        | (f, r') => (String "." f, r')
        end
    | _ => (EmptyString, r1)
    end in
  let suffix :=
    match r2 with
    | String c _ => if is_k_or_m c then String c EmptyString else EmptyString
    | EmptyString => EmptyString
    end in
  ip +:+ fp +:+ suffix.

(** [score_regex.search(s)]: group 1 of the leftmost match, which
    starts at the first digit of [s]. *)
Fixpoint search_score (s : string) : option string :=
  match s with
  | EmptyString => None
  | String c r => if Py.isdigit c then Some (score_token_at s) else search_score r
  end.

(** [re.search(r'(\d+)', s)]: the first run of digits. *)
Fixpoint search_digits (s : string) : option string :=
  match s with
  | EmptyString => None
  | String c r => if Py.isdigit c then Some (fst (span Py.isdigit s)) else search_digits r
  end.

End Re.

(** ** Data model *)

(** One entry of [top_comments]. *)
Record comment := {
  comment_id : string;
  author : string;
  body : string;
  comment_score : Z;
  is_op : bool
}.

(** Values stored in a thread dict.  [VTime n] is reading number [n] of
    the wall clock ([datetime.datetime.now()]). *)
Inductive value :=
| VStr (s : string)
| VInt (n : Z)
| VTime (n : nat)
| VComments (cs : list comment).

(** The keys of the configuration that the engine reads; the keys read
    with [config.get] carry their default when the file omits them. *)
Record config := {
  subreddits : list string;
  minimum_score : Z;
  minimum_comments : Z;
  use_old_reddit : bool;
  request_delay : Q * Q;
  debug : bool;
  use_browser_headers : bool
}.

Definition site_origin : string := "https://www.reddit.com".

(** *** Legacy layout: a [div] of class [thing] *)

(** [post.find('div', class_='score')]: its [title] attribute and text. *)
Record score_div := {
  div_title : option string;
  div_text : string
}.

(** [post.find('a', class_='title')]: its text and [href] attribute. *)
Record title_link := {
  title_text : string;
  title_href : option string
}.

Record thing := {
  thing_class : list string;        (* post.get('class', []) *)
  thing_id : option string;         (* post.get('id') *)
  thing_title : option title_link;
  thing_score : option score_div
}.

(** [except ValueError: handler] around an expression. *)
Definition except_ValueError {A} (r : Py.res A) (handler : Py.res A) : Py.res A :=
  match r with
  | Py.Raise Py.ValueError => handler
  | _ => r
  end.

Definition bind {A B} (r : Py.res A) (k : A -> Py.res B) : Py.res B :=
  match r with
  | Py.Ok a => k a
  | Py.Raise e => Py.Raise e
  end.

(** [int(float(text) * factor)] *)
Definition scaled (text : string) (factor : Z) : Py.res Z :=
  bind (F64.of_string text) (fun x => F64.to_int (F64.mul x (F64.of_Z factor))).

(** Lines 394-413 of [_parse_old_reddit]: the score of a post. *)
Definition old_score (cfg : config) (score_element : option score_div) : Py.res Z :=
  match score_element with
  | None => Py.Ok 0
  | Some el =>
      let score_text := default "0" (div_title el) in
      except_ValueError (Py.int score_text)
        (let score_text := Py.lower (Py.strip (div_text el)) in
         if Py.contains "k" score_text
         then except_ValueError (scaled (Py.replace score_text "k" EmptyString) 1000)
                (Py.Ok (minimum_score cfg))
         else except_ValueError (Py.int (Py.digits_only score_text))
                (Py.Ok (minimum_score cfg)))
  end.

(** Lines 415-418: the permalink of a post of the legacy layout. *)
Definition old_permalink (title_element : option title_link) : option string :=
  let permalink := title_element ≫= title_href in
  match permalink with
  | Some p =>
      if Py.truthy p && negb (Py.startswith p "http")
      then Some (if Py.startswith p "/"
                 then site_origin +:+ p
                 else site_origin +:+ "/" +:+ p)
      else Some p
  | None => None
  end.

(** The dict literal built for a listing entry. *)
Definition thread_dict (post_id title subreddit_name : string) (score : Z)
    (now : nat) (permalink : string) : gmap string value :=
  <["id" := VStr post_id]>
  (<["title" := VStr title]>
  (<["subreddit" := VStr subreddit_name]>
  (<["score" := VInt score]>
  (<["num_comments" := VInt 0]>
  (<["created_utc" := VTime now]>
  (<["permalink" := VStr permalink]>
  (<["url" := VStr permalink]>
  (<["selftext" := VStr EmptyString]>
  (<["top_comments" := VComments []]> ∅))))))))).

Definition in_classes (c : string) (classes : list string) : bool :=
  existsb (String.eqb c) classes.

(** One iteration of the loop of [_parse_old_reddit]: [Ok None] when the
    post is skipped, [Raise] when the iteration ends in the handler of
    the loop body, which skips the post as well. *)
Definition old_thread (cfg : config) (subreddit_name : string) (now : nat)
    (post : thing) : Py.res (option (gmap string value)) :=
  if in_classes "stickied" (thing_class post) || in_classes "promoted" (thing_class post)
  then Py.Ok None
  else
    let post_id := Py.last_field "_" (default EmptyString (thing_id post)) in
    let title :=
      match thing_title post with
      | Some t => Py.strip (title_text t)
      | None => "Unknown Title"
      end in
    bind (old_score cfg (thing_score post)) (fun score =>
    match old_permalink (thing_title post) with
    | Some permalink =>
        if Py.truthy permalink
        then Py.Ok (Some (thread_dict post_id title subreddit_name score now permalink))
        else Py.Ok None
    | None => Py.Ok None
    end).

(** *** Modern layout: a post element *)

(** An attribute value: a string, or a list of strings for multi-valued
    attributes such as [class]. *)
Inductive attr :=
| AStr (s : string)
| AList (l : list string).

Record post_element := {
  post_attrs : list (string * attr);      (* post.attrs, in order *)
  post_comments_href : option string;     (* href of post.find('a', href has '/comments/') *)
  post_heading : option string;           (* text of the first of h1, h2, h3 *)
  post_link_texts : list string;          (* texts of post.find_all('a') *)
  post_span_score : option string;        (* text of the span of class upvote/score *)
  post_class_score : option string;       (* text of the element of class score *)
  post_strings : list string              (* post.find_all(string=True) *)
}.

(** [post.get(name)] *)
Fixpoint get_attr (name : string) (attrs : list (string * attr)) : option attr :=
  match attrs with
  | [] => None
  | (k, v) :: r => if String.eqb k name then Some v else get_attr name r
  end.

(** The first string-valued attribute in which [t3_[a-z0-9]+] occurs. *)
Fixpoint first_t3_attr (attrs : list (string * attr)) : option string :=
  match attrs with
  | [] => None
  | (_, AStr v) :: r =>
      match Re.search_t3 v with
      | Some g => Some g
      | None => first_t3_attr r
      end
  | (_, AList _) :: r => first_t3_attr r
  end.

(** Lines 519-546 of [_parse_new_reddit]: the id cascade. *)
Definition new_post_id (post : post_element) (n_threads : nat) : string :=
  let from_id :=
    match get_attr "id" (post_attrs post) with
    | Some (AStr i) => if Py.truthy i then Re.search_t3_or_post i else None
    | _ => None
    end in
  let from_attrs :=
    match from_id with
    | Some i => Some i
    | None => first_t3_attr (post_attrs post)
    end in
  let from_permalink :=
    match from_attrs with
    | Some i => Some i
    | None => post_comments_href post ≫= Re.search_comments_id
    end in
  match from_permalink with
  | Some i => i
  | None => "unknown_" +:+ pretty (N.of_nat n_threads)
  end.

(** Lines 548-559: the title cascade. *)
Definition new_post_title (post : post_element) : string :=
  let title :=
    match post_heading post with
    | Some t => Py.strip t
    | None => "Unknown Title"
    end in
  if String.eqb title "Unknown Title"
  then default title (head (filter (fun t => (15 <? Py.len t)%Z = true)
                                   (map Py.strip (post_link_texts post))))
  else title.

Definition nonempty (o : option string) : option string :=
  match o with
  | Some s => if Py.truthy s then Some s else None
  | None => None
  end.

(** Lines 564-585: the three ways of finding the text of the score. *)
Definition new_score_text (post : post_element) : option string :=
  let approach1 := nonempty (Py.strip <$> post_span_score post) in
  let approach2 :=
    match approach1 with
    | Some t => Some t
    | None => nonempty (Py.strip <$> post_class_score post)
    end in
  match approach2 with
  | Some t => Some t
  | None =>
      head (omap Re.search_score (post_strings post))
  end.

(** Lines 587-598: the score from its text, [minimum_score] by default. *)
Definition parse_score_text (cfg : config) (score_text : option string) : Py.res Z :=
  match nonempty score_text with
  | Some score_text =>
      let score_text := Py.replace (Py.lower score_text) "," EmptyString in
      if Py.contains "k" score_text
      then scaled (Py.replace score_text "k" EmptyString) 1000
      else if Py.contains "m" score_text
      then scaled (Py.replace score_text "m" EmptyString) 1000000
      else except_ValueError (Py.int (Py.digits_only score_text))
             (Py.Ok (minimum_score cfg))
  | None => Py.Ok (minimum_score cfg)
  end.

Definition new_score (cfg : config) (post : post_element) : Py.res Z :=
  parse_score_text cfg (new_score_text post).

(** Lines 600-607: the permalink of a post of the modern layout. *)
Definition new_permalink (post : post_element) : option string :=
  match post_comments_href post with
  | Some permalink =>
      Some (if Py.startswith permalink "/"
            then site_origin +:+ permalink
            else permalink)
  | None => None
  end.

(** One iteration of the loop over [post_elements]. *)
Definition new_thread (cfg : config) (subreddit_name : string) (n_threads now : nat)
    (post : post_element) : Py.res (option (gmap string value)) :=
  let post_id := new_post_id post n_threads in
  let title := new_post_title post in
  bind (new_score cfg post) (fun score =>
  match new_permalink post with
  | Some permalink =>
      if Py.truthy permalink
      then Py.Ok (Some (thread_dict post_id title subreddit_name score now permalink))
      else Py.Ok None
  | None => Py.Ok None
  end).

(** *** Documents *)

(** A link of the generic scan, [soup.find_all('a', href has '/comments/')]. *)
Record link := {
  link_href : string;
  link_text : string;
  link_heading : option string     (* text of the first of h3, h2, h1 inside *)
}.

(** A comment container of a detail page. *)
Record comment_element := {
  ce_class : list string;                    (* get('class', []) *)
  ce_md : option string;                     (* text of find(class has 'md') *)
  ce_body : option string;                   (* text of find(class has 'body'/'Body') *)
  ce_content : option string;                (* text of find(class has 'content'/'Content') *)
  ce_author : option (string * list string); (* text and classes of find(class has 'author') *)
  ce_submitter : bool;                       (* find(class has 'submitter' or 'op') found *)
  ce_op_string : bool                        (* find(string='OP') found *)
}.

(** Where the HTML library raises while a detail page is parsed. *)
Inductive phase := InSelftext | InCommentCount | InComments.

Record detail_view := {
  dv_selftext : option string;        (* text of find(class has 'selftext') *)
  dv_post_content : option string;
  dv_post_body : option string;
  dv_md : option string;
  dv_comments_count : option string;  (* text of find(class has 'comments-count') *)
  dv_n_comments : option string;      (* find(string=r'\d+\s+comments') *)
  dv_comments_n : option string;      (* find(string=r'comments\s+\(\d+\)') *)
  dv_Comment : list comment_element;  (* find_all(class has 'Comment') *)
  dv_comment : list comment_element;  (* find_all(class, lowered, has 'comment') *)
  dv_thing_t1 : list comment_element; (* find_all('div', class has 'thing' and 't1') *)
  dv_fault : option phase
}.

Record soup := {
  soup_title : option string;             (* soup.title.text, when there is a title *)
  soup_things : list thing;               (* find_all('div', class_='thing') *)
  soup_by_id : list post_element;         (* divs whose id starts with t3_ or post_ *)
  soup_by_class : list post_element;      (* divs of a class containing Post/post *)
  soup_articles : list post_element;
  soup_shreddit : list post_element;
  soup_comment_links : list link;
  soup_detail : detail_view
}.

(** ** The request executor *)

Definition headers := list (string * string).

Record response := {
  status_code : Z;
  response_url : string;
  response_soup : soup                    (* BeautifulSoup(response.text) *)
}.

(** [session.get]: a response, or an exception of the transport. *)
Inductive http_result :=
| TransportError
| Responded (r : response).

(** A draw of [random.random()]: the rational [num / (num + gap)], in
    the half-open unit interval. *)
Record draw := {
  draw_num : N;
  draw_gap : positive
}.

Definition draw_value (u : draw) : Q :=
  Z.of_N (draw_num u) #
  match draw_num u with
  | N0 => draw_gap u
  | Npos p => (p + draw_gap u)%positive
  end.

(** [random.uniform(a, b)], as the exact value [a + (b - a) * u]; the
    binary64 result of the code is this value rounded, which can be [b]. *)
Definition uniform (a b : Q) (u : draw) : Q := (a + (b - a) * draw_value u)%Q.

(** [random.choice(seq)] *)
Definition choice {A} (seq : list A) (dflt : A) (u : draw) : A :=
  nth (Z.to_nat (Qfloor (draw_value u * inject_Z (Z.of_nat (length seq))))) seq dflt.

Inductive sleep_kind :=
| RetryDelay       (* before a retry, from request_delay *)
| HeavyLoadWait    (* uniform(20, 30) *)
| CaptchaWait      (* uniform(30, 60) *)
| NonRedditWait    (* uniform(15, 25) *)
| Backoff          (* 2 ** attempt + uniform(5, 15) *)
| DetailGap.       (* uniform(5, 10) between detail fetches *)

Definition loc := positive.

Inductive event :=
| EvHeaders (h : headers)               (* a header profile is built *)
| EvSleep (k : sleep_kind) (d : Q)      (* time.sleep(d) *)
| EvGet (n : nat) (url : string) (h : headers)  (* request number n: session.get(url, headers=h) *)
| EvSaveCookies                         (* self._save_cookies() *)
| EvDetails (l : loc).                  (* _fetch_thread_details is entered *)

Definition user_agents : list string := [
  "Mozilla/5.0 (Windows NT 10.0; Win64; x64) AppleWebKit/537.36 (KHTML, like Gecko) Chrome/91.0.4472.124 Safari/537.36";
  "Mozilla/5.0 (Windows NT 10.0; Win64; x64) AppleWebKit/537.36 (KHTML, like Gecko) Chrome/92.0.4515.159 Safari/537.36";
  "Mozilla/5.0 (Windows NT 10.0; Win64; x64) AppleWebKit/537.36 (KHTML, like Gecko) Chrome/94.0.4606.81 Safari/537.36";
  "Mozilla/5.0 (Windows NT 10.0; Win64; x64) AppleWebKit/537.36 (KHTML, like Gecko) Chrome/95.0.4638.69 Safari/537.36";
  "Mozilla/5.0 (Windows NT 10.0; Win64; x64; rv:90.0) Gecko/20100101 Firefox/90.0";
  "Mozilla/5.0 (Windows NT 10.0; Win64; x64; rv:91.0) Gecko/20100101 Firefox/91.0";
  "Mozilla/5.0 (Windows NT 10.0; Win64; x64; rv:92.0) Gecko/20100101 Firefox/92.0";
  "Mozilla/5.0 (Windows NT 10.0; Win64; x64; rv:93.0) Gecko/20100101 Firefox/93.0";
  "Mozilla/5.0 (Windows NT 10.0; Win64; x64) AppleWebKit/537.36 (KHTML, like Gecko) Chrome/92.0.4515.159 Safari/537.36 Edg/92.0.902.78";
  "Mozilla/5.0 (Windows NT 10.0; Win64; x64) AppleWebKit/537.36 (KHTML, like Gecko) Chrome/93.0.4577.63 Safari/537.36 Edg/93.0.961.38";
  "Mozilla/5.0 (Macintosh; Intel Mac OS X 10_15_7) AppleWebKit/605.1.15 (KHTML, like Gecko) Version/14.1.2 Safari/605.1.15";
  "Mozilla/5.0 (Macintosh; Intel Mac OS X 10_15_7) AppleWebKit/605.1.15 (KHTML, like Gecko) Version/15.0 Safari/605.1.15";
  "Mozilla/5.0 (Macintosh; Intel Mac OS X 10_15_7) AppleWebKit/537.36 (KHTML, like Gecko) Chrome/91.0.4472.114 Safari/537.36";
  "Mozilla/5.0 (Macintosh; Intel Mac OS X 10_15_7) AppleWebKit/537.36 (KHTML, like Gecko) Chrome/92.0.4515.131 Safari/537.36";
  "Mozilla/5.0 (Macintosh; Intel Mac OS X 10.15; rv:90.0) Gecko/20100101 Firefox/90.0";
  "Mozilla/5.0 (Macintosh; Intel Mac OS X 10.15; rv:91.0) Gecko/20100101 Firefox/91.0"
].

(** The double quote. *)
Definition dq : string := String (ascii_of_nat 34) EmptyString.

Definition languages : list string :=
  ["en-US,en;q=0.9"; "en-GB,en;q=0.9,en-US;q=0.8"; "en;q=0.9,en-US;q=0.8"].

Definition challenge_terms : list string :=
  ["captcha"; "human?"; "verify"; "log in"; "sign in"].

Definition is_heavy_load (url : string) : bool :=
  Py.contains "reddit.com/static/heavy-load" url.

Definition page_title (s : soup) : string := default "No title" (soup_title s).

Definition is_challenge (title : string) : bool :=
  existsb (fun term => Py.contains term (Py.lower title)) challenge_terms.

Definition is_reddit_page (cfg : config) (title : string) : bool :=
  Py.contains "reddit" (Py.lower title)
  || Py.contains " : " title
  || existsb (fun sub => Py.contains (Py.lower sub) (Py.lower title)) (subreddits cfg).

(** The category that the branches of [_make_request] assign to the
    outcome of one [session.get]. *)
Inductive category :=
| Success | HeavyLoad | CaptchaOrLogin | WrongDomain | HttpError | NetworkFailure.

Definition classify (cfg : config) (r : http_result) : category :=
  match r with
  | TransportError => NetworkFailure
  | Responded resp =>
      if status_code resp =? 200 then
        if is_heavy_load (response_url resp) then HeavyLoad
        else if is_challenge (page_title (response_soup resp)) then CaptchaOrLogin
        else if is_reddit_page cfg (page_title (response_soup resp)) then Success
        else WrongDomain
      else HttpError
  end.

(** What one iteration of the retry loop leaves: its events, whether the
    function returns, and the counters of draws and of requests. *)
Record step := {
  step_log : list event;
  step_return : option soup;
  step_draws : nat;
  step_requests : nat
}.

(** The outcome of a call of [_make_request]: one log per iteration. *)
Record run := {
  run_result : option soup;
  run_log : list (list event);
  run_draws : nat;
  run_requests : nat
}.

Section Executor.

(** The network answers request number [n] of the process; [rnd n] is
    draw number [n] of the random generator. *)
Variable net : nat -> string -> headers -> http_result.
Variable rnd : nat -> draw.
Variable cfg : config.

Definition _get_random_user_agent (d : nat) : string :=
  choice user_agents EmptyString (rnd d).

Definition _get_browser_headers (d : nat) : headers :=
  let user_agent := _get_random_user_agent d in
  let language := choice languages EmptyString (rnd (S d)) in
  [ ("User-Agent", user_agent);
    ("Accept", "text/html,application/xhtml+xml,application/xml;q=0.9,image/webp,image/apng,*/*;q=0.8,application/signed-exchange;v=b3;q=0.9");
    ("Accept-Language", language);
    ("Accept-Encoding", "gzip, deflate, br");
    ("Connection", "keep-alive");
    ("Upgrade-Insecure-Requests", "1");
    ("Cache-Control", "max-age=0");
    ("DNT", "1");
    ("Sec-Fetch-Dest", "document");
    ("Sec-Fetch-Mode", "navigate");
    ("Sec-Fetch-Site", "none");
    ("Sec-Fetch-User", "?1");
    ("Sec-CH-UA", dq +:+ " Not A;Brand" +:+ dq +:+ ";v=" +:+ dq +:+ "99" +:+ dq +:+ ", " +:+ dq +:+ "Chromium" +:+ dq +:+ ";v=" +:+ dq +:+ "92" +:+ dq);
    ("Sec-CH-UA-Mobile", "?0");
    ("Referer", "https://www.google.com/") ].

(** Line 186: the profile of a call, and the draws that it takes. *)
Definition request_headers (d : nat) : headers * nat :=
  if use_browser_headers cfg
  then (_get_browser_headers d, (d + 2)%nat)
  else ([("User-Agent", _get_random_user_agent d)], S d).

(** Line 264: the exponential backoff. *)
Definition backoff_wait (attempt d : nat) : Q :=
  (inject_Z (2 ^ Z.of_nat attempt) + uniform 5 15 (rnd d))%Q.

Definition negative (q : Q) : bool :=
  match Qlt_le_dec q 0 with left _ => true | right _ => false end.

(** The body of the loop, lines 191-267, at iteration [attempt] with
    [d] draws taken and [r] requests sent.  [time.sleep] raises
    [ValueError] on a negative delay, which the handler of line 260
    catches like any failure of the request. *)
Definition attempt_step (url : string) (hdrs : headers) (attempt d r : nat) : step :=
  let fails (log : list event) (d' r' : nat) :=
    {| step_log := log ++ [EvSleep Backoff (backoff_wait attempt d')];
       step_return := None; step_draws := S d'; step_requests := r' |} in
  let continues (log : list event) (d' r' : nat) :=
    {| step_log := log; step_return := None; step_draws := d'; step_requests := r' |} in
  let retrying := (0 <? attempt)%nat in
  let delay := uniform (request_delay cfg).1 (request_delay cfg).2 (rnd d) in
  let d1 := if retrying then S d else d in
  if retrying && negative delay then fails [] d1 r
  else
    let pre := if retrying then [EvSleep RetryDelay delay] else [] in
    match net r url hdrs with
    | TransportError => fails (pre ++ [EvGet r url hdrs]) d1 (S r)
    | Responded resp =>
        let got := pre ++ [EvGet r url hdrs; EvSaveCookies] in
        if status_code resp =? 200 then
          if is_heavy_load (response_url resp)
          then continues (got ++ [EvSleep HeavyLoadWait (uniform 20 30 (rnd d1))]) (S d1) (S r)
          else
            let title := page_title (response_soup resp) in
            if is_challenge title
            then continues (got ++ [EvSleep CaptchaWait (uniform 30 60 (rnd d1))]) (S d1) (S r)
            else if is_reddit_page cfg title
            then {| step_log := got; step_return := Some (response_soup resp);
                    step_draws := d1; step_requests := S r |}
            else fails (got ++ [EvSleep NonRedditWait (uniform 15 25 (rnd d1))]) (S d1) (S r)
        else fails got d1 (S r)
    end.

(** [for attempt in range(...)], with [fuel] iterations left. *)
Fixpoint attempts_from (url : string) (hdrs : headers) (fuel attempt d r : nat) : run :=
  match fuel with
  | O => {| run_result := None; run_log := []; run_draws := d; run_requests := r |}
  | S fuel' =>
      let s := attempt_step url hdrs attempt d r in
      match step_return s with
      | Some page =>
          {| run_result := Some page; run_log := [step_log s];
             run_draws := step_draws s; run_requests := step_requests s |}
      | None =>
          let rest := attempts_from url hdrs fuel' (S attempt) (step_draws s) (step_requests s) in
          {| run_result := run_result rest; run_log := step_log s :: run_log rest;
             run_draws := run_draws rest; run_requests := run_requests rest |}
      end
  end.

(** [_make_request(url, max_retries)] started with [d] draws taken and
    [r] requests sent: the profile built at line 186 and the run of the
    loop. *)
Definition make_request_run (url : string) (max_retries : Z) (d r : nat) : headers * run :=
  let '(hdrs, d0) := request_headers d in
  (hdrs, attempts_from url hdrs (Z.to_nat max_retries) O d0 r).

(** The events of a call, in order. *)
Definition run_trace (hr : headers * run) : list event :=
  EvHeaders hr.1 :: concat (run_log hr.2).

End Executor.

(** ** Detail extraction *)

Definition first_some {A} (l : list (option A)) : option A :=
  head (omap id l).

(** Lines 663-681: the body text of the post. *)
Definition detail_selftext (dv : detail_view) : string :=
  let selftext :=
    match dv_selftext dv with
    | Some t => Py.strip t
    | None => EmptyString
    end in
  if Py.truthy selftext then selftext
  else
    match first_some [dv_post_content dv; dv_post_body dv; dv_md dv] with
    | Some t => Py.strip t
    | None => selftext
    end.

(** Lines 686-700: the first selector whose text holds digits. *)
Definition detail_comment_count (dv : detail_view) : Z :=
  match first_some (map (fun sel => sel ≫= Re.search_digits)
                        [dv_comments_count dv; dv_n_comments dv; dv_comments_n dv]) with
  | Some ds => Py.digits_value ds 0
  | None => 0
  end.

(** Lines 711-719: the containers of the comments. *)
Definition comment_containers (cfg : config) (dv : detail_view) : list comment_element :=
  match dv_Comment dv with
  | _ :: _ => dv_Comment dv
  | [] =>
      match dv_comment dv with
      | _ :: _ => dv_comment dv
      | [] => if use_old_reddit cfg then dv_thing_t1 dv else []
      end
  end.

(** Lines 726-771: one container, [None] when it is skipped. *)
Definition comment_of (i : nat) (el : comment_element) : option comment :=
  if in_classes "deleted" (ce_class el) || in_classes "removed" (ce_class el)
  then None
  else
    let body :=
      match first_some [ce_md el; ce_body el; ce_content el] with
      | Some t => Py.strip t
      | None => EmptyString
      end in
    if negb (Py.truthy body) then None
    else
      let author :=
        match ce_author el with
        | Some (t, _) => Py.strip t
        | None => "[deleted]"
        end in
      let is_op :=
        ce_submitter el || ce_op_string el ||
        match ce_author el with
        | Some (_, classes) => in_classes "submitter" classes
        | None => false
        end in
      Some {| comment_id := "comment_" +:+ pretty (N.of_nat i);
              author := author; body := body; comment_score := 0; is_op := is_op |}.

(** Lines 722-773: [enumerate(comment_containers[:10])]. *)
Definition detail_comments (cfg : config) (dv : detail_view) : list comment :=
  omap (fun '(i, el) => comment_of i el) (imap pair (take 10 (comment_containers cfg dv))).

(** ** The assembler: heap, clock and trace *)

Record state := {
  heap : gmap loc (gmap string value);  (* the dict objects *)
  next_loc : loc;
  draws : nat;                          (* draws taken from the generator *)
  requests : nat;                       (* requests sent *)
  clock : nat;                          (* readings of the wall clock *)
  trace : list event
}.

Definition log (evs : list event) (σ : state) : state :=
  {| heap := heap σ; next_loc := next_loc σ; draws := draws σ;
     requests := requests σ; clock := clock σ; trace := trace σ ++ evs |}.

(** A dict literal whose [created_utc] reads the clock. *)
Definition alloc (d : gmap string value) (σ : state) : loc * state :=
  (next_loc σ,
   {| heap := <[next_loc σ := d]> (heap σ); next_loc := Pos.succ (next_loc σ);
      draws := draws σ; requests := requests σ; clock := S (clock σ);
      trace := trace σ |}).

(** [thread_data[key] = v] *)
Definition store (l : loc) (key : string) (v : value) (σ : state) : state :=
  {| heap := alter (insert key v) l (heap σ); next_loc := next_loc σ;
     draws := draws σ; requests := requests σ; clock := clock σ; trace := trace σ |}.

(** [thread_data[key]] *)
Definition load (l : loc) (key : string) (σ : state) : Py.res value :=
  match heap σ !! l ≫= (.!! key) with
  | Some v => Py.Ok v
  | None => Py.Raise Py.KeyError
  end.

Section Assembler.

Variable net : nat -> string -> headers -> http_result.
Variable rnd : nat -> draw.
Variable cfg : config.
(** [urllib.parse.urljoin] *)
Variable urljoin : string -> string -> string.

Definition _make_request (url : string) (max_retries : Z) (σ : state) : option soup * state :=
  let hr := make_request_run net rnd cfg url max_retries (draws σ) (requests σ) in
  (run_result hr.2,
   {| heap := heap σ; next_loc := next_loc σ; draws := run_draws hr.2;
      requests := run_requests hr.2; clock := clock σ;
      trace := trace σ ++ run_trace hr |}).

(** [time.sleep(random.uniform(a, b))] *)
Definition sleep_uniform (k : sleep_kind) (a b : Q) (σ : state) : state :=
  {| heap := heap σ; next_loc := next_loc σ; draws := S (draws σ);
     requests := requests σ; clock := clock σ;
     trace := trace σ ++ [EvSleep k (uniform a b (rnd (draws σ)))] |}.

(** The loop of [_parse_old_reddit]. *)
Fixpoint old_posts_loop (subreddit_name : string) (posts : list thing) (σ : state)
  : list loc * state :=
  match posts with
  | [] => ([], σ)
  | post :: rest =>
      match old_thread cfg subreddit_name (clock σ) post with
      | Py.Ok (Some thread_data) =>
          let '(l, σ1) := alloc thread_data σ in
          let '(ls, σ2) := old_posts_loop subreddit_name rest σ1 in
          (l :: ls, σ2)
      | _ => old_posts_loop subreddit_name rest σ
      end
  end.

Definition _parse_old_reddit (page : soup) (subreddit_name : string) (σ : state)
  : list loc * state :=
  old_posts_loop subreddit_name (soup_things page) σ.

(** Lines 462-476: the first approach that finds elements. *)
Definition post_elements (page : soup) : list post_element :=
  match soup_by_id page with
  | _ :: _ => soup_by_id page
  | [] =>
      match soup_by_class page with
      | _ :: _ => soup_by_class page
      | [] =>
          match soup_articles page with
          | _ :: _ => soup_articles page
          | [] => soup_shreddit page
          end
      end
  end.

(** Lines 483-514: the scan of the links, [n] threads being collected. *)
Fixpoint links_loop (subreddit_name : string) (links : list link)
    (processed_links : gset string) (n : nat) (σ : state) : list loc * state :=
  match links with
  | [] => ([], σ)
  | a :: rest =>
      let href := link_href a in
      if Py.truthy href && Py.contains "/comments/" href
         && bool_decide (href ∉ processed_links)
      then
        let processed_links := {[href]} ∪ processed_links in
        let text := Py.strip (link_text a) in
        let title :=
          if Py.truthy text then text
          else match link_heading a with
               | Some h => Py.strip h
               | None => text
               end in
        if Py.truthy title && (5 <? Py.len title)
        then
          let full_url :=
            if Py.startswith href "http" then href else urljoin site_origin href in
          let post_id :=
            match Re.search_comments_id full_url with
            | Some i => i
            | None => "unknown_" +:+ pretty (N.of_nat n)
            end in
          let '(l, σ1) :=
            alloc (thread_dict post_id title subreddit_name (minimum_score cfg)
                     (clock σ) full_url) σ in
          let '(ls, σ2) := links_loop subreddit_name rest processed_links (S n) σ1 in
          (l :: ls, σ2)
        else links_loop subreddit_name rest processed_links n σ
      else links_loop subreddit_name rest processed_links n σ
  end.

(** Lines 517-632: the loop over the post elements. *)
Fixpoint new_posts_loop (subreddit_name : string) (posts : list post_element)
    (n : nat) (σ : state) : list loc * state :=
  match posts with
  | [] => ([], σ)
  | post :: rest =>
      match new_thread cfg subreddit_name n (clock σ) post with
      | Py.Ok (Some thread_data) =>
          let '(l, σ1) := alloc thread_data σ in
          let '(ls, σ2) := new_posts_loop subreddit_name rest (S n) σ1 in
          (l :: ls, σ2)
      | _ => new_posts_loop subreddit_name rest n σ
      end
  end.

Definition _parse_new_reddit (page : soup) (subreddit_name : string) (σ : state)
  : list loc * state :=
  match post_elements page with
  | [] => links_loop subreddit_name (soup_comment_links page) ∅ O σ
  | posts => new_posts_loop subreddit_name posts O σ
  end.

(** The [try] block of [_fetch_thread_details], lines 660-781: the
    assignments made before the library raises, if it does. *)
Definition enrich (l : loc) (dv : detail_view) (σ : state) : state :=
  match dv_fault dv with
  | Some InSelftext => σ
  | Some InCommentCount =>
      store l "selftext" (VStr (detail_selftext dv)) σ
  | Some InComments =>
      store l "num_comments" (VInt (detail_comment_count dv))
        (store l "selftext" (VStr (detail_selftext dv)) σ)
  | None =>
      store l "top_comments" (VComments (detail_comments cfg dv))
        (store l "num_comments" (VInt (detail_comment_count dv))
           (store l "selftext" (VStr (detail_selftext dv)) σ))
  end.

(** [_fetch_thread_details(thread_data)]; the result is the reference
    that the function returns.  A permalink that is not a [str] is
    reported as [TypeError]. *)
Definition _fetch_thread_details (thread_data : loc) (σ : state) : Py.res loc * state :=
  let σ := log [EvDetails thread_data] σ in
  match load thread_data "permalink" σ with
  | Py.Ok (VStr url) =>
      let url :=
        if use_old_reddit cfg && negb (Py.contains "old.reddit.com" url)
        then Py.replace url "www.reddit.com" "old.reddit.com"
        else url in
      match (if debug cfg then load thread_data "id" σ else Py.Ok (VInt 0)) with
      | Py.Raise e => (Py.Raise e, σ)
      | Py.Ok _ =>
          match _make_request url 3 σ with
          | (None, σ1) =>
              match load thread_data "id" σ1 with
              | Py.Ok _ => (Py.Ok thread_data, σ1)
              | Py.Raise e => (Py.Raise e, σ1)
              end
          | (Some page, σ1) =>
              (Py.Ok thread_data, enrich thread_data (soup_detail page) σ1)
          end
      end
  | Py.Ok _ => (Py.Raise Py.TypeError, σ)
  | Py.Raise e => (Py.Raise e, σ)
  end.

(** Lines 347-352: [for i, thread in enumerate(threads)].  An exception
    ends the loop in the handler of line 357. *)
Fixpoint details_loop (i : nat) (threads : list loc) (σ : state) : state :=
  match threads with
  | [] => σ
  | thread :: rest =>
      match load thread "score" σ with
      | Py.Ok (VInt score) =>
          if minimum_score cfg <=? score then
            let σ1 := if (0 <? i)%nat then sleep_uniform DetailGap 5 10 σ else σ in
            match _fetch_thread_details thread σ1 with
            | (Py.Ok _, σ2) => details_loop (S i) rest σ2
            | (Py.Raise _, σ2) => σ2
            end
          else details_loop (S i) rest σ
      | _ => σ
      end
  end.

(** [_scrape_without_api(subreddit_name, time_filter)]: the list that
    the function returns, and the state that it leaves. *)
Definition _scrape_without_api (subreddit_name time_filter : string) (σ : state)
  : list loc * state :=
  let base_url :=
    if use_old_reddit cfg then "https://old.reddit.com" else "https://www.reddit.com" in
  let url := base_url +:+ "/r/" +:+ subreddit_name +:+ "/top/?t=" +:+ time_filter in
  match _make_request url 3 σ with
  | (None, σ1) => ([], σ1)
  | (Some page, σ1) =>
      let '(threads, σ2) :=
        if use_old_reddit cfg
        then _parse_old_reddit page subreddit_name σ1
        else _parse_new_reddit page subreddit_name σ1 in
      (threads, details_loop O threads σ2)
  end.

(** The two masks of [_filter_threads] on a row of the frame. *)
Definition passes_filters (row : gmap string value) : bool :=
  match row !! "score", row !! "num_comments" with
  | Some (VInt s), Some (VInt c) =>
      (minimum_score cfg <=? s) && (minimum_comments cfg <=? c)
  | _, _ => false
  end.

(** [_filter_threads], on the rows of the frame. *)
Definition _filter_threads (rows : list (gmap string value)) : list (gmap string value) :=
  filter (fun row => passes_filters row = true) rows.

End Assembler.

(** ** The default configuration, lines 64-77 *)

Definition default_config : config := {|
  subreddits := ["MaliciousCompliance"; "pettyrevenge"; "TIFU"; "AmItheAsshole"];
  minimum_score := 300;
  minimum_comments := 15;
  use_old_reddit := true;
  request_delay := (8 # 1, 15 # 1)%Q;
  debug := true;
  use_browser_headers := true
|}.

(** ** Score texts of the shape [<number>[.<number>]?[km]?] *)

Fixpoint str_all (p : ascii -> bool) (s : string) : bool :=
  match s with
  | EmptyString => true
  | String c r => p c && str_all p r
  end.

Fixpoint str_filter (p : ascii -> bool) (s : string) : string :=
  match s with
  | EmptyString => EmptyString
  | String c r => if p c then String c (str_filter p r) else str_filter p r
  end.

Definition digit_or_comma (c : ascii) : bool := Py.isdigit c || Ascii.eqb c ",".

Inductive suffix := NoSuffix | Kilo (upper : bool) | Mega (upper : bool).

Definition suffix_text (su : suffix) : string :=
  match su with
  | NoSuffix => EmptyString
  | Kilo false => "k"
  | Kilo true => "K"
  | Mega false => "m"
  | Mega true => "M"
  end.

Definition factor (su : suffix) : Z :=
  match su with
  | NoSuffix => 1
  | Kilo _ => 1000
  | Mega _ => 1000000
  end.

Definition frac_digits (fp : option string) : string := default EmptyString fp.

Definition frac_text (fp : option string) : string :=
  match fp with
  | Some f => "." +:+ f
  | None => EmptyString
  end.

(** The text [ip[.fp]?su]. *)
Definition score_string (ip : string) (fp : option string) (su : suffix) : string :=
  ip +:+ (frac_text fp +:+ suffix_text su).

(** The score that exact arithmetic gives: the number times the factor
    of the suffix, truncated toward zero. *)
Definition exact_score (ip : string) (fp : option string) (su : suffix) : Z :=
  Z.quot (Py.digits_value (Py.digits_only ip +:+ frac_digits fp) 0 * factor su)
         (10 ^ Z.of_nat (String.length (frac_digits fp))).

(** The score that the float arithmetic of the parsers gives. *)
Definition float_score (ip : string) (fp : option string) (su : suffix) : Py.res Z :=
  F64.to_int
    (F64.mul (F64.of_decimal false (Py.digits_value (Py.digits_only ip +:+ frac_digits fp) 0)
                             (0 - Z.of_nat (String.length (frac_digits fp))))
             (F64.of_Z (factor su))).

(** The characters of a number: digits and the point. *)
Definition numeric (c : ascii) : bool := Py.isdigit c || Ascii.eqb c ".".

Definition stops (rest : string) : Prop :=
  match rest with
  | EmptyString => True
  | String c _ => Py.isdigit c = false /\ Ascii.eqb c "_" = false
  end.

Definition not_nan (x : spec_float) : Prop := x <> S754_nan.

Definition plain (c : ascii) : bool := numeric c || Re.is_k_or_m c.

(** ** Observations on a run *)

Definition is_get (e : event) : bool :=
  match e with EvGet _ _ _ => true | _ => false end.

Definition is_headers (e : event) : bool :=
  match e with EvHeaders _ => true | _ => false end.

Definition is_save (e : event) : bool :=
  match e with EvSaveCookies => true | _ => false end.

Definition is_backoff (e : event) : bool :=
  match e with EvSleep Backoff _ => true | _ => false end.

(** Number of events of a kind in a trace. *)
Definition count_events (p : event -> bool) (t : list event) : nat :=
  length (List.filter p t).

(** The profiles that the requests of a trace carry. *)
Definition sent_headers (t : list event) : list headers :=
  omap (fun e => match e with EvGet _ _ h => Some h | _ => None end) t.

(** The interval of the exponential backoff at an iteration. *)
Definition in_backoff_range (attempt : nat) (w : Q) : Prop :=
  (inject_Z (2 ^ Z.of_nat attempt) + 5 <= w /\ w <= inject_Z (2 ^ Z.of_nat attempt) + 15)%Q.

(** ** Concrete environments *)

(** A network that gives the same answer to every request. *)
Definition always (a : http_result) : nat -> string -> headers -> http_result :=
  fun _ _ _ => a.

(** A generator whose every draw is one half. *)
Definition one_half : nat -> draw := fun _ => {| draw_num := 1; draw_gap := 1 |}.

Definition no_detail : detail_view := {|
  dv_selftext := None; dv_post_content := None; dv_post_body := None; dv_md := None;
  dv_comments_count := None; dv_n_comments := None; dv_comments_n := None;
  dv_Comment := []; dv_comment := []; dv_thing_t1 := []; dv_fault := None
|}.

(** A document with a title and nothing else. *)
Definition page_titled (title : string) : soup := {|
  soup_title := Some title; soup_things := []; soup_by_id := []; soup_by_class := [];
  soup_articles := []; soup_shreddit := []; soup_comment_links := [];
  soup_detail := no_detail
|}.

Definition answer (status : Z) (final_url title : string) : http_result :=
  Responded {| status_code := status; response_url := final_url;
               response_soup := page_titled title |}.

Definition listing_url : string := "https://old.reddit.com/r/TIFU/top/?t=month".

(** The claim of C6 on a trace: as many profiles built as requests sent. *)
Definition fresh_profile_per_attempt (t : list event) : Prop :=
  count_events is_headers t = count_events is_get t.

(** The keys that detail enrichment assigns. *)
Definition detail_keys : list string := ["selftext"; "num_comments"; "top_comments"].

(** The keys that the listing parsers fill. *)
Definition listing_keys : list string :=
  ["id"; "title"; "subreddit"; "score"; "permalink"; "url"; "created_utc"].

(** [rec'] is [rec] up to the keys of detail enrichment. *)
Definition same_listing_fields (rec rec' : gmap string value) : Prop :=
  forall k, ~ In k detail_keys -> rec' !! k = rec !! k.

(** The records for which a trace enters [_fetch_thread_details]. *)
Definition details_of (t : list event) : list loc :=
  omap (fun e => match e with EvDetails l => Some l | _ => None end) t.

(** The [score] of the record at [l]. *)
Definition score_of (σ : state) (l : loc) : option value :=
  heap σ !! l ≫= (.!! "score").

(** A record as the listing parsers leave it: no detail yet. *)
Definition without_detail (rec : gmap string value) : Prop :=
  rec !! "selftext" = Some (VStr EmptyString) /\ rec !! "top_comments" = Some (VComments []).

Definition sample_record : gmap string value :=
  thread_dict "abc123" "A title" "TIFU" 500 0
    "https://www.reddit.com/r/TIFU/comments/abc123/a_title/".

(** A state whose heap holds [sample_record] at the reference 1. *)
Definition sample_state : state := {|
  heap := {[ 1%positive := sample_record ]}; next_loc := 2%positive;
  draws := 0; requests := 0; clock := 1; trace := []
|}.

(** ** Listing records in the heap *)

(** A record as a listing parser builds it for [subreddit_name]. *)
Definition listing_record (subreddit_name : string) (rec : gmap string value) : Prop :=
  exists post_id title score now permalink,
    rec = thread_dict post_id title subreddit_name score now permalink.

(** [ls] are references allocated between [σ] and [σ'], which differ by
    these allocations only; each holds a listing record. *)
Definition parsed (subreddit_name : string) (σ : state) (ls : list loc) (σ' : state) : Prop :=
  trace σ' = trace σ /\ draws σ' = draws σ /\ requests σ' = requests σ
  /\ (next_loc σ <= next_loc σ')%positive
  /\ (forall l, (l < next_loc σ)%positive -> heap σ' !! l = heap σ !! l)
  /\ NoDup ls
  /\ (forall l, In l ls ->
        (next_loc σ <= l < next_loc σ')%positive
        /\ exists rec, heap σ' !! l = Some rec /\ listing_record subreddit_name rec).

(** What the loop of the detail fetches adds to a trace [new]. *)
Definition loop_events (cfg : config) (threads : list loc) (σ : state) (new : list event) : Prop :=
  (forall l, In l (details_of new) ->
     In l threads /\ exists s, score_of σ l = Some (VInt s) /\ minimum_score cfg <= s)
  /\ (length (details_of new) <= length threads)%nat
  /\ (count_events is_get new <= 3 * length (details_of new))%nat.

(** ** Sample elements of a listing page *)

(** A post of the legacy layout, as old.reddit.com serves it. *)
Definition sample_thing : thing := {|
  thing_class := ["thing"; "link"];
  thing_id := Some "thing_t3_abc123";
  thing_title := Some {| title_text := " A title "; title_href := Some "/r/TIFU/comments/abc123/a_title/" |};
  thing_score := Some {| div_title := Some "4321"; div_text := "4.3k" |}
|}.

(** A post of the modern layout whose link is relative and whose score
    is the word of the vote button. *)
Definition sample_post : post_element := {|
  post_attrs := [("class", AList ["Post"]); ("data-fullname", AStr "t3_abc123")];
  post_comments_href := Some "r/TIFU/comments/abc123/a_title/";
  post_heading := Some "A title";
  post_link_texts := [];
  post_span_score := Some "Vote";
  post_class_score := None;
  post_strings := ["A title"; "Vote"]
|}.

(** Neither a digit nor one of [k], [K], [m], [M]. *)
Definition wordlike (c : ascii) : bool := negb (Py.isdigit c) && negb (Re.is_k_or_m c).

(** [a] is a suffix of [s]. *)
Definition ends_with (s a : string) : Prop := exists pre, s = pre +:+ a.

(** ** Observations on a header profile *)

(** [headers[name]], when the profile has the field. *)
Fixpoint header (name : string) (h : headers) : option string :=
  match h with
  | [] => None
  | (k, v) :: rest => if String.eqb k name then Some v else header name rest
  end.

(** The title of the listing page that old.reddit.com serves. *)
Definition listing_title : string := "top scoring links : TIFU".

(** ** Well-formed detail fields *)

(** A comment as [_fetch_thread_details] collects it. *)
Definition collected (c : comment) : Prop :=
  body c <> EmptyString /\ comment_score c = 0.

(** The detail fields of a record: a text, a count that is not negative
    and at most ten collected comments. *)
Definition detail_fields (rec : gmap string value) : Prop :=
  exists selftext n cs,
    rec !! "selftext" = Some (VStr selftext)
    /\ rec !! "num_comments" = Some (VInt n) /\ 0 <= n
    /\ rec !! "top_comments" = Some (VComments cs)
    /\ (length cs <= 10)%nat /\ Forall collected cs.

(** The detail fields that are well formed in [σ] are so in [σ']. *)
Definition keeps_detail_fields (σ σ' : state) : Prop :=
  forall l rec, heap σ !! l = Some rec -> detail_fields rec ->
    exists rec', heap σ' !! l = Some rec' /\ detail_fields rec'.

(** A detail page with twelve comment containers, the second of which
    is deleted and the third of which has no body. *)
Definition sample_comment (classes : list string) (md : option string) : comment_element := {|
  ce_class := classes; ce_md := md; ce_body := None; ce_content := None;
  ce_author := Some (" someone ", ["author"; "submitter"]);
  ce_submitter := false; ce_op_string := false
|}.

Definition sample_detail : detail_view := {|
  dv_selftext := Some " Today I did it. ";
  dv_post_content := None; dv_post_body := None; dv_md := None;
  dv_comments_count := None; dv_n_comments := Some "1234 comments"; dv_comments_n := None;
  dv_Comment := [];
  dv_comment :=
    sample_comment ["comment"] (Some " first ")
    :: sample_comment ["comment"; "deleted"] (Some "gone")
    :: sample_comment ["comment"] (Some "   ")
    :: repeat (sample_comment ["comment"] (Some "more")) 9;
  dv_thing_t1 := []; dv_fault := None
|}.

(** The answer of the network that carries a detail page. *)
Definition detail_answer (dv : detail_view) : http_result :=
  Responded {| status_code := 200;
               response_url := "https://old.reddit.com/r/TIFU/comments/abc123/a_title/";
               response_soup := {|
                 soup_title := Some "A title : TIFU"; soup_things := []; soup_by_id := [];
                 soup_by_class := []; soup_articles := []; soup_shreddit := [];
                 soup_comment_links := []; soup_detail := dv |} |}.

(** ** The requests of the assembler *)

(** The URLs that the requests of a trace go to, in order. *)
Definition requests_of (t : list event) : list string :=
  omap (fun e => match e with EvGet _ u _ => Some u | _ => None end) t.

(** The URL of the listing page of a subreddit, lines 326-327. *)
Definition scrape_url (cfg : config) (subreddit_name time_filter : string) : string :=
  (if use_old_reddit cfg then "https://old.reddit.com" else "https://www.reddit.com")
  +:+ "/r/" +:+ subreddit_name +:+ "/top/?t=" +:+ time_filter.

(** The URL of the detail page of a permalink, lines 646-650. *)
Definition detail_url (cfg : config) (permalink : string) : string :=
  if use_old_reddit cfg && negb (Py.contains "old.reddit.com" permalink)
  then Py.replace permalink "www.reddit.com" "old.reddit.com"
  else permalink.

(** From [σ] to [σ'] no record appears, every record keeps its listing
    fields, and every request sent goes to the detail page of a record
    for which [_fetch_thread_details] is entered. *)
Definition detail_requests (cfg : config) (σ σ' : state) : Prop :=
  (forall l, heap σ !! l = None -> heap σ' !! l = None)
  /\ (forall l rec, heap σ !! l = Some rec ->
        exists rec', heap σ' !! l = Some rec' /\ same_listing_fields rec rec')
  /\ exists new,
       trace σ' = trace σ ++ new
       /\ forall u, In u (requests_of new) ->
            exists l rec p,
              In l (details_of new) /\ heap σ !! l = Some rec
              /\ rec !! "permalink" = Some (VStr p) /\ u = detail_url cfg p.

(** The rows of [pd.DataFrame(threads)]: the records as they are when
    the frame is built. *)
Definition rows_of (σ : state) (threads : list loc) : list (gmap string value) :=
  omap (fun l => heap σ !! l) threads.

(** A listing page of the legacy layout with two posts, the second one
    below the default minimum score. *)
Definition sample_listing : soup := {|
  soup_title := Some "top scoring links : TIFU";
  soup_things :=
    [ {| thing_class := ["thing"]; thing_id := Some "thing_t3_abc123";
         thing_title := Some {| title_text := "A title";
                                title_href := Some "/r/TIFU/comments/abc123/a_title/" |};
         thing_score := Some {| div_title := Some "4321"; div_text := "4.3k" |} |};
      {| thing_class := ["thing"]; thing_id := Some "thing_t3_def456";
         thing_title := Some {| title_text := "Another";
                                title_href := Some "/r/TIFU/comments/def456/another/" |};
         thing_score := Some {| div_title := Some "12"; div_text := "12" |} |} ];
  soup_by_id := []; soup_by_class := []; soup_articles := []; soup_shreddit := [];
  soup_comment_links := [];
  soup_detail := {|
    dv_selftext := Some "Today I did it.";
    dv_post_content := None; dv_post_body := None; dv_md := None;
    dv_comments_count := None; dv_n_comments := Some "1234 comments"; dv_comments_n := None;
    dv_Comment := []; dv_comment := []; dv_thing_t1 := []; dv_fault := None |}
|}.

(** A site that answers every request with [sample_listing]. *)
Definition sample_site : nat -> string -> headers -> http_result :=
  always (Responded {| status_code := 200; response_url := listing_url;
                       response_soup := sample_listing |}).

Definition empty_state : state := {|
  heap := ∅; next_loc := 1%positive; draws := 0; requests := 0; clock := 0; trace := []
|}.

(** ** The generic scan of the links *)

(** The title that the scan gives to a link, lines 489-493. *)
Definition link_title (a : link) : string :=
  let text := Py.strip (link_text a) in
  if Py.truthy text then text
  else match link_heading a with
       | Some h => Py.strip h
       | None => text
       end.

(** The URL that the scan gives to a link, line 497. *)
Definition link_url (urljoin : string -> string -> string) (a : link) : string :=
  if Py.startswith (link_href a) "http" then link_href a
  else urljoin site_origin (link_href a).

(** The record at [l] is the one that the scan builds for the link [a]. *)
Definition scanned (cfg : config) (urljoin : string -> string -> string)
    (subreddit_name : string) (σ : state) (l : loc) (a : link) : Prop :=
  exists post_id now,
    heap σ !! l = Some (thread_dict post_id (link_title a) subreddit_name
                          (minimum_score cfg) now (link_url urljoin a))
    /\ Py.contains "/comments/" (link_href a) = true
    /\ 5 < Py.len (link_title a).

(** A page of the modern layout without post elements, whose links
    repeat a target. *)
Definition sample_links : soup := {|
  soup_title := Some "r/TIFU - reddit"; soup_things := []; soup_by_id := [];
  soup_by_class := []; soup_articles := []; soup_shreddit := [];
  soup_comment_links :=
    [ {| link_href := "/r/TIFU/comments/abc123/a_title/"; link_text := " ";
         link_heading := Some "A long enough title" |};
      {| link_href := "/r/TIFU/comments/abc123/a_title/"; link_text := "1.2k comments";
         link_heading := None |};
      {| link_href := "https://www.reddit.com/r/TIFU/comments/def456/b/"; link_text := "short";
         link_heading := None |};
      {| link_href := "https://www.reddit.com/r/TIFU/comments/def456/b/";
         link_text := "The same target again"; link_heading := None |} ];
  soup_detail := no_detail
|}.

(** A post of the modern layout whose score is found in its strings. *)
Definition sample_post_strings : post_element := {|
  post_attrs := [("id", AStr "t3_abc123")];
  post_comments_href := Some "/r/TIFU/comments/abc123/a_title/";
  post_heading := Some "A title";
  post_link_texts := [];
  post_span_score := None;
  post_class_score := Some "  ";
  post_strings := ["A title"; "score: 1.2K upvotes"; "57 comments"]
|}.

(** ** The records of a listing page *)

(** The record at [l] is the one that an iteration of the loop of
    [_parse_old_reddit] builds for [post]. *)
Definition from_thing (cfg : config) (subreddit_name : string) (σ : state)
    (l : loc) (post : thing) : Prop :=
  exists now rec,
    heap σ !! l = Some rec
    /\ old_thread cfg subreddit_name now post = Py.Ok (Some rec).

(** The record at [l] is the one that an iteration of the loop of
    [_parse_new_reddit] builds for [post], fewer than [bound] records
    being collected before it. *)
Definition from_post (cfg : config) (subreddit_name : string) (bound : nat) (σ : state)
    (l : loc) (post : post_element) : Prop :=
  exists n now rec,
    (n < bound)%nat
    /\ heap σ !! l = Some rec
    /\ new_thread cfg subreddit_name n now post = Py.Ok (Some rec).

(** A page of the modern layout with two post elements, the first of
    which has no comments link. *)
Definition sample_posts : soup := {|
  soup_title := Some "r/TIFU - reddit"; soup_things := [];
  soup_by_id :=
    [ {| post_attrs := [("id", AStr "t3_zzz999")]; post_comments_href := None;
         post_heading := Some "Promoted"; post_link_texts := [];
         post_span_score := None; post_class_score := None; post_strings := [] |};
      {| post_attrs := [("id", AStr "t3_abc123")];
         post_comments_href := Some "/r/TIFU/comments/abc123/a_title/";
         post_heading := Some "A title"; post_link_texts := [];
         post_span_score := Some "4.3k"; post_class_score := None;
         post_strings := ["A title"; "4.3k"] |} ];
  soup_by_class := []; soup_articles := []; soup_shreddit := [];
  soup_comment_links := [];
  soup_detail := no_detail
|}.

(** * Properties *)

(** ** Sanity checks of the built-ins *)

Example lower_1_2K : Py.lower "1.2K" = "1.2k".
Proof. reflexivity. Qed.

Example strip_blanks : Py.strip "  12 k " = "12 k".
Proof. reflexivity. Qed.

Example replace_host :
  Py.replace "https://www.reddit.com/r/x" "www.reddit.com" "old.reddit.com"
  = "https://old.reddit.com/r/x".
Proof. reflexivity. Qed.

Example last_field_t3 : Py.last_field "_" "t3_abc" = "abc".
Proof. reflexivity. Qed.

Example int_grouped : Py.int " -1_000 " = Py.Ok (-1000).
Proof. reflexivity. Qed.

Example int_empty : Py.int EmptyString = Py.Raise Py.ValueError.
Proof. reflexivity. Qed.

Example float_1_2 : F64.of_string "1.2" = Py.Ok (S754_finite false 5404319552844595 (-52)).
Proof. vm_compute. reflexivity. Qed.

Example float_tenth : F64.of_string " .1e0 " = Py.Ok (S754_finite false 7205759403792794 (-56)).
Proof. vm_compute. reflexivity. Qed.

Example float_bare_point : F64.of_string "." = Py.Raise Py.ValueError.
Proof. vm_compute. reflexivity. Qed.

Example float_1e3 : F64.to_int (F64.of_decimal false 1 3) = Py.Ok 1000.
Proof. vm_compute. reflexivity. Qed.

Example int_float_1_2_k :
  F64.to_int (F64.mul (S754_finite false 5404319552844595 (-52)) (F64.of_Z 1000)) = Py.Ok 1200.
Proof. vm_compute. reflexivity. Qed.

(** ** Score normalisation on concrete texts *)

Example new_score_1_2k : parse_score_text default_config (Some "1.2k") = Py.Ok 1200.
Proof. vm_compute. reflexivity. Qed.

Example new_score_1_001k : parse_score_text default_config (Some "1.001k") = Py.Ok 1000.
Proof. vm_compute. reflexivity. Qed.

Example new_score_3_4M : parse_score_text default_config (Some "3.4M") = Py.Ok 3400000.
Proof. vm_compute. reflexivity. Qed.

Example new_score_separators : parse_score_text default_config (Some "12,345") = Py.Ok 12345.
Proof. vm_compute. reflexivity. Qed.

Example new_score_fraction : parse_score_text default_config (Some "1.5") = Py.Ok 15.
Proof. vm_compute. reflexivity. Qed.

Example new_score_like : parse_score_text default_config (Some "Like") = Py.Raise Py.ValueError.
Proof. vm_compute. reflexivity. Qed.

Example new_score_vote : parse_score_text default_config (Some "Vote") = Py.Ok 300.
Proof. vm_compute. reflexivity. Qed.

Example old_score_1_2k :
  old_score default_config (Some {| div_title := Some "1.2k"; div_text := " 1.2k " |}) = Py.Ok 1200.
Proof. vm_compute. reflexivity. Qed.

Example old_score_1_2m :
  old_score default_config (Some {| div_title := Some "1.2m"; div_text := "1.2m" |}) = Py.Ok 12.
Proof. vm_compute. reflexivity. Qed.

Example old_score_hidden :
  old_score default_config (Some {| div_title := None; div_text := "-" |}) = Py.Ok 0.
Proof. vm_compute. reflexivity. Qed.

Example search_score_points : Re.search_score "about 1,234 points" = Some "1".
Proof. vm_compute. reflexivity. Qed.

Example search_score_k : Re.search_score "score: 1.2K upvotes" = Some "1.2K".
Proof. vm_compute. reflexivity. Qed.

(** ** Facts on strings *)

Ltac each_char c := destruct c as [[] [] [] [] [] [] [] []].

Lemma append_nil_l s : EmptyString +:+ s = s.
Proof. reflexivity. Qed.

Lemma append_cons c a b : String c a +:+ b = String c (a +:+ b).
Proof. reflexivity. Qed.

Lemma append_assoc a b c : (a +:+ b) +:+ c = a +:+ (b +:+ c).
Proof. induction a as [|x a IH]; [reflexivity|]. rewrite !append_cons, IH. reflexivity. Qed.

Lemma append_nil_r s : s +:+ EmptyString = s.
Proof. induction s as [|c s IH]; [reflexivity|]. rewrite append_cons, IH. reflexivity. Qed.


Lemma str_all_app p a b : str_all p (a +:+ b) = str_all p a && str_all p b.
Proof. induction a as [|c a IH]; simpl; [reflexivity|]. rewrite IH. apply andb_assoc. Qed.

Lemma str_filter_app p a b : str_filter p (a +:+ b) = str_filter p a +:+ str_filter p b.
Proof. induction a as [|c a IH]; simpl; [reflexivity|]. rewrite IH. destruct (p c); reflexivity. Qed.

Lemma str_all_impl (p q : ascii -> bool) s :
  (forall c, p c = true -> q c = true) -> str_all p s = true -> str_all q s = true.
Proof.
  intros Hpq. induction s as [|c s IH]; simpl; [reflexivity|].
  intros H. apply andb_true_iff in H as [Hc Hs]. rewrite (Hpq c Hc), (IH Hs). reflexivity.
Qed.

Lemma str_filter_id p s : str_all p s = true -> str_filter p s = s.
Proof.
  induction s as [|c s IH]; simpl; [reflexivity|].
  intros H. apply andb_true_iff in H as [Hc Hs]. rewrite Hc, (IH Hs). reflexivity.
Qed.

Lemma str_filter_ext (p q : ascii -> bool) r s :
  (forall c, r c = true -> p c = q c) -> str_all r s = true -> str_filter p s = str_filter q s.
Proof.
  intros E. induction s as [|c s IH]; simpl; [reflexivity|].
  intros H. apply andb_true_iff in H as [Hc Hs]. rewrite (E c Hc), (IH Hs). reflexivity.
Qed.

Lemma lower_app a b : Py.lower (a +:+ b) = Py.lower a +:+ Py.lower b.
Proof. induction a as [|c a IH]; simpl; [reflexivity|]. rewrite IH. reflexivity. Qed.

Lemma lower_fixed (p : ascii -> bool) s :
  (forall c, p c = true -> Py.lower_char c = c) -> str_all p s = true -> Py.lower s = s.
Proof.
  intros Hp. induction s as [|c s IH]; simpl; [reflexivity|].
  intros H. apply andb_true_iff in H as [Hc Hs]. rewrite (Hp c Hc), (IH Hs). reflexivity.
Qed.

Lemma digits_only_filter s : Py.digits_only s = str_filter Py.isdigit s.
Proof. induction s as [|c s IH]; simpl; [reflexivity|]. rewrite IH. reflexivity. Qed.

Lemma startswith_empty s : Py.startswith s EmptyString = true.
Proof. destruct s; reflexivity. Qed.

(** Replacing a character by nothing removes its occurrences. *)
Lemma replace_char s c :
  Py.replace s (String c EmptyString) EmptyString = str_filter (fun x => negb (Ascii.eqb c x)) s.
Proof.
  unfold Py.replace. induction s as [|a s IH]; [reflexivity|].
  cbn [Py.replace_from Py.startswith str_filter String.length Nat.sub].
  rewrite startswith_empty, andb_true_r.
  destruct (Ascii.eqb c a); cbn [negb]; rewrite IH; reflexivity.
Qed.

Lemma contains_char c s :
  Py.contains (String c EmptyString) s = negb (str_all (fun x => negb (Ascii.eqb c x)) s).
Proof.
  induction s as [|a s IH]; [reflexivity|].
  cbn [Py.contains Py.startswith str_all]. rewrite startswith_empty, andb_true_r, IH.
  destruct (Ascii.eqb c a); reflexivity.
Qed.

Lemma digits_value_app a b acc :
  Py.digits_value (a +:+ b) acc = Py.digits_value b (Py.digits_value a acc).
Proof. revert acc. induction a as [|c a IH]; intros acc; simpl; [reflexivity|]. apply IH. Qed.

Lemma grouped_digits_plain ds acc prev :
  str_all Py.isdigit ds = true -> ds <> EmptyString \/ prev = true ->
  Py.grouped_digits ds acc prev = Some (Py.digits_value ds acc).
Proof.
  revert acc prev. induction ds as [|c ds IH]; intros acc prev Hd Hne.
  - destruct Hne as [Hne | ->]; [congruence|reflexivity].
  - simpl in Hd. apply andb_true_iff in Hd as [Hc Hs].
    cbn [Py.grouped_digits Py.digits_value]. rewrite Hc. apply IH; auto.
Qed.

Lemma rstrip_fixed s : str_all (fun c => negb (Py.isspace c)) s = true -> Py.rstrip s = s.
Proof.
  induction s as [|c s IH]; [reflexivity|].
  cbn [str_all]. intros H. apply andb_true_iff in H as [Hc Hs].
  cbn [Py.rstrip]. rewrite (IH Hs). destruct s; [|reflexivity].
  apply negb_true_iff in Hc. rewrite Hc. reflexivity.
Qed.

Lemma strip_fixed s : str_all (fun c => negb (Py.isspace c)) s = true -> Py.strip s = s.
Proof.
  intros H. unfold Py.strip.
  assert (Py.lstrip s = s) as ->; [|apply rstrip_fixed; exact H].
  destruct s as [|c s]; [reflexivity|]. cbn [str_all] in H.
  apply andb_true_iff in H as [Hc _]. apply negb_true_iff in Hc.
  cbn [Py.lstrip]. rewrite Hc. reflexivity.
Qed.

Lemma numeric_not_space c : numeric c = true -> negb (Py.isspace c) = true.
Proof. each_char c; vm_compute; congruence. Qed.

Lemma numeric_lower c : numeric c = true -> Py.lower_char c = c.
Proof. each_char c; vm_compute; congruence. Qed.

Lemma digit_numeric c : Py.isdigit c = true -> numeric c = true.
Proof. unfold numeric. intros ->. reflexivity. Qed.

Lemma digit_or_comma_lower c : digit_or_comma c = true -> Py.lower_char c = c.
Proof. each_char c; vm_compute; congruence. Qed.

Lemma signed_digit c r : Py.isdigit c = true -> Py.signed (String c r) = (false, String c r).
Proof. each_char c; vm_compute; congruence. Qed.

Lemma not_keyword c r kw : Py.isdigit c = true -> Py.isdigit (
    match kw with String k _ => k | EmptyString => "a"%char end) = false ->
  String.eqb (Py.lower (String c r)) kw = false.
Proof.
  intros Hc Hk. destruct kw as [|k kw]; [reflexivity|].
  cbn [Py.lower String.eqb].
  rewrite (numeric_lower c (digit_numeric c Hc)).
  destruct (Ascii.eqb_spec c k) as [-> | ]; [congruence|reflexivity].
Qed.

Lemma digitpart_plain ds rest acc cnt prev :
  str_all Py.isdigit ds = true -> prev = true \/ cnt = O -> stops rest ->
  F64.digitpart (ds +:+ rest) acc cnt prev
  = Some (Py.digits_value ds acc, (cnt + String.length ds)%nat, rest).
Proof.
  revert acc cnt prev. induction ds as [|c ds IH]; intros acc cnt prev Hd Hp Hr.
  - rewrite append_nil_l. cbn [Py.digits_value String.length]. rewrite Nat.add_0_r.
    assert (prev || (cnt =? 0)%nat = true) as E.
    { destruct Hp as [-> | ->]; [reflexivity|]. apply orb_true_r. }
    destruct rest as [|c rest]; cbn [F64.digitpart]; [rewrite E; reflexivity|].
    destruct Hr as [H1 H2]. rewrite H1, H2, E. reflexivity.
  - simpl in Hd. apply andb_true_iff in Hd as [Hc Hs].
    rewrite append_cons. cbn [F64.digitpart Py.digits_value String.length]. rewrite Hc.
    rewrite (IH _ _ _ Hs (or_introl eq_refl) Hr). f_equal. f_equal. f_equal. lia.
Qed.

(** [float] of [ds[.fs]?] is the correctly rounded decimal. *)
Lemma float_of_number ds fp :
  str_all Py.isdigit ds = true -> ds <> EmptyString ->
  (forall f, fp = Some f -> str_all Py.isdigit f = true) ->
  F64.of_string (ds +:+ frac_text fp)
  = Py.Ok (F64.of_decimal false (Py.digits_value (ds +:+ frac_digits fp) 0)
                          (0 - Z.of_nat (String.length (frac_digits fp)))).
Proof.
  intros Hd Hne Hf. unfold F64.of_string.
  assert (str_all numeric (ds +:+ frac_text fp) = true) as Hnum.
  { rewrite str_all_app. rewrite (str_all_impl _ _ _ digit_numeric Hd). cbn [andb].
    destruct fp as [f|]; [|reflexivity]. cbn [frac_text].
    rewrite append_cons, append_nil_l. cbn [str_all].
    rewrite (str_all_impl _ _ _ digit_numeric (Hf f eq_refl)). reflexivity. }
  rewrite (strip_fixed _ (str_all_impl _ _ _ numeric_not_space Hnum)).
  destruct ds as [|c ds]; [congruence|]. clear Hne Hnum.
  pose proof Hd as Hd'. cbn [str_all] in Hd. apply andb_true_iff in Hd as [Hc Hs].
  rewrite append_cons, (signed_digit _ _ Hc).
  rewrite !(not_keyword c _ _ Hc) by reflexivity. cbn [orb].
  rewrite <- append_cons.
  rewrite (digitpart_plain (String c ds) (frac_text fp) 0 0 false Hd' (or_intror eq_refl)).
  2:{ destruct fp; [|exact I].
      change (Py.isdigit "." = false /\ Ascii.eqb "." "_" = false). split; reflexivity. }
  destruct fp as [f|]; cbn [frac_text frac_digits default].
  - rewrite append_cons, append_nil_l.
    rewrite <- (append_nil_r f) at 1.
    rewrite (digitpart_plain f EmptyString _ 0 false (Hf f eq_refl) (or_intror eq_refl) I).
    cbn [F64.exponent]. rewrite digits_value_app.
    cbn [String.length Nat.add Nat.eqb]. reflexivity.
  - cbn [F64.exponent String.length Nat.add Nat.eqb].
    rewrite append_nil_r. reflexivity.
Qed.

Lemma int_of_digits ds :
  str_all Py.isdigit ds = true -> ds <> EmptyString ->
  Py.int ds = Py.Ok (Py.digits_value ds 0).
Proof.
  intros Hd Hne. unfold Py.int.
  rewrite (strip_fixed _ (str_all_impl _ _ _ numeric_not_space
                            (str_all_impl _ _ _ digit_numeric Hd))).
  destruct ds as [|c ds]; [congruence|].
  pose proof Hd as Hd'. cbn [str_all] in Hd'. apply andb_true_iff in Hd' as [Hc _].
  rewrite (signed_digit _ _ Hc).
  rewrite (grouped_digits_plain _ 0 false Hd (or_introl Hne)). reflexivity.
Qed.

Lemma comma_filter c :
  digit_or_comma c = true -> negb (Ascii.eqb "," c) = Py.isdigit c.
Proof. each_char c; vm_compute; congruence. Qed.

Lemma numeric_not c x :
  numeric c = true -> numeric x = false -> negb (Ascii.eqb x c) = true.
Proof.
  intros Hc Hx. destruct (Ascii.eqb_spec x c) as [->|]; [congruence|reflexivity].
Qed.

Lemma digits_only_digits s : str_all Py.isdigit s = true -> Py.digits_only s = s.
Proof. rewrite digits_only_filter. apply str_filter_id. Qed.

Lemma digits_only_app a b : Py.digits_only (a +:+ b) = Py.digits_only a +:+ Py.digits_only b.
Proof. rewrite !digits_only_filter. apply str_filter_app. Qed.

Lemma digits_only_all s : str_all Py.isdigit (Py.digits_only s) = true.
Proof.
  induction s as [|c s IH]; [reflexivity|]. cbn [Py.digits_only].
  destruct (Py.isdigit c) eqn:E; [|exact IH]. cbn [str_all]. rewrite E, IH. reflexivity.
Qed.

Lemma digits_only_frac fp :
  (forall f, fp = Some f -> str_all Py.isdigit f = true) ->
  Py.digits_only (frac_text fp) = frac_digits fp.
Proof.
  intros Hf. destruct fp as [f|]; [|reflexivity].
  cbn [frac_text frac_digits default]. rewrite append_cons, append_nil_l.
  cbn [Py.digits_only]. change (Py.isdigit ".") with false. cbn iota.
  apply digits_only_digits, Hf. reflexivity.
Qed.

Lemma frac_numeric fp :
  (forall f, fp = Some f -> str_all Py.isdigit f = true) ->
  str_all numeric (frac_text fp) = true.
Proof.
  intros Hf. destruct fp as [f|]; [|reflexivity].
  cbn [frac_text]. rewrite append_cons, append_nil_l. cbn [str_all].
  rewrite (str_all_impl _ _ _ digit_numeric (Hf f eq_refl)). reflexivity.
Qed.

Lemma lower_suffix su :
  Py.lower (suffix_text su) =
  match su with NoSuffix => EmptyString | Kilo _ => "k" | Mega _ => "m" end.
Proof. destruct su as [|[]|[]]; reflexivity. Qed.

(** The text after [lower()] and the removal of the separators. *)
Lemma score_text_prepared ip fp su :
  str_all digit_or_comma ip = true ->
  (forall f, fp = Some f -> str_all Py.isdigit f = true) ->
  Py.replace (Py.lower (score_string ip fp su)) "," EmptyString
  = (Py.digits_only ip +:+ frac_text fp) +:+ Py.lower (suffix_text su).
Proof.
  intros Hip Hf. unfold score_string.
  rewrite !lower_app, (lower_fixed _ _ digit_or_comma_lower Hip).
  rewrite (lower_fixed _ _ numeric_lower (frac_numeric _ Hf)).
  rewrite replace_char, !str_filter_app.
  rewrite (str_filter_ext _ _ _ _ comma_filter Hip), <- digits_only_filter.
  rewrite (str_filter_id _ (frac_text fp)).
  2:{ eapply str_all_impl; [|apply (frac_numeric _ Hf)].
      intros c Hc. apply numeric_not; [exact Hc|reflexivity]. }
  rewrite (str_filter_id _ (Py.lower (suffix_text su))).
  2:{ destruct su as [|[]|[]]; reflexivity. }
  symmetry. apply append_assoc.
Qed.

Lemma number_numeric ip fp :
  (forall f, fp = Some f -> str_all Py.isdigit f = true) ->
  str_all numeric (Py.digits_only ip +:+ frac_text fp) = true.
Proof.
  intros Hf. rewrite str_all_app, (frac_numeric _ Hf), andb_true_r.
  apply (str_all_impl _ _ _ digit_numeric), digits_only_all.
Qed.

Lemma number_has_no k ip fp :
  numeric k = false ->
  (forall f, fp = Some f -> str_all Py.isdigit f = true) ->
  str_all (fun x => negb (Ascii.eqb k x)) (Py.digits_only ip +:+ frac_text fp) = true.
Proof.
  intros Hk Hf. eapply str_all_impl; [|apply (number_numeric ip fp Hf)].
  intros c Hc. apply numeric_not; assumption.
Qed.

(** Lines 587-598 on every text of the shape. *)
Lemma parse_score_text_shape cfg ip fp su :
  str_all digit_or_comma ip = true -> Py.digits_only ip <> EmptyString ->
  (forall f, fp = Some f -> str_all Py.isdigit f = true) ->
  parse_score_text cfg (Some (score_string ip fp su)) =
  match su with
  | NoSuffix => Py.Ok (Py.digits_value (Py.digits_only ip +:+ frac_digits fp) 0)
  | _ => float_score ip fp su
  end.
Proof.
  intros Hip Hne Hf. unfold parse_score_text.
  assert (nonempty (Some (score_string ip fp su)) = Some (score_string ip fp su)) as ->.
  { unfold score_string. destruct ip as [|c ip]; [cbn in Hne; congruence|reflexivity]. }
  rewrite (score_text_prepared _ _ _ Hip Hf), lower_suffix.
  set (num := Py.digits_only ip +:+ frac_text fp).
  assert (forall k, numeric k = false ->
            Py.contains (String k EmptyString) num = false) as Hno.
  { intros k Hk. unfold num. rewrite contains_char, (number_has_no k ip fp Hk Hf). reflexivity. }
  assert (forall k, numeric k = false ->
            Py.replace (num +:+ String k EmptyString) (String k EmptyString) EmptyString = num)
    as Hrm.
  { intros k Hk. rewrite replace_char, str_filter_app.
    rewrite (str_filter_id _ num) by (apply number_has_no; assumption).
    cbn [str_filter]. rewrite Ascii.eqb_refl. cbn [negb]. apply append_nil_r. }
  assert (forall k, Py.contains (String k EmptyString) (num +:+ String k EmptyString) = true)
    as Hyes.
  { intros k. rewrite contains_char, str_all_app. cbn [str_all].
    rewrite Ascii.eqb_refl. cbn [negb andb]. rewrite andb_false_r. reflexivity. }
  assert (F64.of_string num
          = Py.Ok (F64.of_decimal false
                     (Py.digits_value (Py.digits_only ip +:+ frac_digits fp) 0)
                     (0 - Z.of_nat (String.length (frac_digits fp))))) as Hfl.
  { apply float_of_number; [apply digits_only_all|exact Hne|exact Hf]. }
  destruct su as [|u|u].
  - rewrite append_nil_r, !Hno by reflexivity.
    unfold num. rewrite digits_only_app, (digits_only_digits _ (digits_only_all ip)).
    rewrite (digits_only_frac _ Hf), int_of_digits; [reflexivity| |].
    + rewrite str_all_app, digits_only_all. destruct fp as [f|]; [|reflexivity].
      apply (Hf f eq_refl).
    + destruct (Py.digits_only ip); [congruence|]. rewrite append_cons. discriminate.
  - rewrite Hyes, (Hrm "k"%char eq_refl). unfold scaled. rewrite Hfl. reflexivity.
  - assert (Py.contains "k" (num +:+ "m") = false) as ->.
    { unfold num. rewrite contains_char, str_all_app, (number_has_no "k" ip fp eq_refl Hf).
      reflexivity. }
    rewrite Hyes, (Hrm "m"%char eq_refl). unfold scaled. rewrite Hfl. reflexivity.
Qed.

(** *** The float arithmetic never yields NaN here *)

Lemma iter_pos_invariant {A} (f : A -> A) (P : A -> Prop) :
  (forall x, P x -> P (f x)) -> forall n x, P x -> P (SpecFloat.iter_pos f n x).
Proof.
  intros Hf. induction n as [n IH|n IH|]; intros x Hx; cbn [SpecFloat.iter_pos]; auto.
Qed.

Lemma shr_1_nonneg mrs : 0 <= shr_m mrs -> 0 <= shr_m (shr_1 mrs).
Proof.
  destruct mrs as [m r s]. cbn [shr_m]. intros H.
  destruct m as [|[p|p|]|p]; cbn; lia.
Qed.

Lemma shr_fexp_nonneg m e l :
  0 <= m -> 0 <= shr_m (fst (shr_fexp F64.prec F64.emax m e l)).
Proof.
  intros H. unfold shr_fexp, shr.
  assert (0 <= shr_m (shr_record_of_loc m l)) as H0.
  { destruct l as [|[]]; exact H. }
  destruct (fexp F64.prec F64.emax (Zdigits2 m + e) - e); cbn [fst]; try exact H0.
  apply iter_pos_invariant; [apply shr_1_nonneg|exact H0].
Qed.

Lemma round_nearest_even_nonneg m l : 0 <= m -> 0 <= round_nearest_even m l.
Proof. intros H. destruct l as [|[]]; cbn; try destruct (Z.even m); lia. Qed.

Lemma binary_round_aux_not_nan s m e l :
  0 <= m -> binary_round_aux F64.prec F64.emax s m e l <> S754_nan.
Proof.
  intros H. unfold binary_round_aux.
  pose proof (shr_fexp_nonneg m e l H) as H1.
  destruct (shr_fexp F64.prec F64.emax m e l) as [mrs' e']. cbn [fst] in H1.
  pose proof (shr_fexp_nonneg _ e' loc_Exact
                (round_nearest_even_nonneg _ (loc_of_shr_record mrs') H1)) as H2.
  destruct (shr_fexp F64.prec F64.emax _ e' loc_Exact) as [mrs'' e'']. cbn [fst] in H2.
  destruct (shr_m mrs'') as [|p|p]; [discriminate| |lia].
  destruct (e'' <=? F64.emax - F64.prec); discriminate.
Qed.

Lemma of_decimal_not_nan neg m x : 0 <= m -> not_nan (F64.of_decimal neg m x).
Proof.
  intros Hm. unfold not_nan, F64.of_decimal.
  destruct m as [|p|p]; [discriminate| |lia].
  destruct (0 <=? x).
  - unfold binary_normalize.
    destruct ((if neg then Z.neg p else Z.pos p) * 10 ^ x) as [|q|q]; [discriminate| |];
      unfold binary_round;
      destruct (shl_align _ _ _) as [mz ez]; apply binary_round_aux_not_nan; lia.
  - cbn [SFdiv]. unfold SFdiv_core_binary.
    set (m' := match _ - _ - _ with Z0 => Z.pos p | Zpos _ => _ | Zneg _ => 0 end).
    assert (0 <= m') as Hm'.
    { subst m'. destruct (_ - _ - _); try lia. apply Z.shiftl_nonneg. lia. }
    pose proof (Z.div_eucl_eq m' (Z.pos (Z.to_pos (10 ^ (- x)))) ltac:(lia)) as E.
    pose proof (Z_div_mod m' (Z.pos (Z.to_pos (10 ^ (- x)))) ltac:(lia)) as B.
    destruct (Z.div_eucl m' (Z.pos (Z.to_pos (10 ^ (- x))))) as [q r].
    apply binary_round_aux_not_nan. destruct B as [B1 B2]. nia.
Qed.

Lemma mul_thousand_not_nan x : not_nan x -> not_nan (F64.mul x (F64.of_Z 1000)).
Proof.
  unfold not_nan. intros Hx. change (F64.of_Z 1000) with (S754_finite false 8796093022208000 (-43)).
  destruct x as [s|s| |s m e]; try discriminate; [congruence|].
  cbn [F64.mul SFmul]. apply binary_round_aux_not_nan. lia.
Qed.

Lemma to_int_not_ValueError x : not_nan x -> F64.to_int x <> Py.Raise Py.ValueError.
Proof. unfold not_nan. destruct x; cbn; congruence. Qed.

Lemma digits_value_nonneg s acc : 0 <= acc -> 0 <= Py.digits_value s acc.
Proof.
  revert acc. induction s as [|c s IH]; intros acc H; cbn [Py.digits_value]; [exact H|].
  apply IH. unfold Py.digit_val. lia.
Qed.

Lemma float_score_kilo_not_ValueError ip fp u :
  float_score ip fp (Kilo u) <> Py.Raise Py.ValueError.
Proof.
  unfold float_score. apply to_int_not_ValueError, mul_thousand_not_nan, of_decimal_not_nan.
  apply digits_value_nonneg. lia.
Qed.

Lemma plain_not_space c : plain c = true -> negb (Py.isspace c) = true.
Proof. each_char c; vm_compute; congruence. Qed.

Lemma score_string_plain ds fp su :
  str_all Py.isdigit ds = true ->
  (forall f, fp = Some f -> str_all Py.isdigit f = true) ->
  str_all plain (score_string ds fp su) = true.
Proof.
  intros Hd Hf. unfold score_string. rewrite !str_all_app.
  rewrite (str_all_impl Py.isdigit plain ds), (str_all_impl numeric plain (frac_text fp)).
  - destruct su as [|[]|[]]; reflexivity.
  - intros c Hc. unfold plain. rewrite Hc. reflexivity.
  - apply frac_numeric, Hf.
  - intros c Hc. unfold plain, numeric. rewrite Hc. reflexivity.
  - exact Hd.
Qed.

(** Lines 402-413 on every text of the shape without separators, when
    the [title] attribute is not an integer. *)
Lemma old_score_shape cfg title ds fp su :
  Py.int (default "0" title) = Py.Raise Py.ValueError ->
  str_all Py.isdigit ds = true -> ds <> EmptyString ->
  (forall f, fp = Some f -> str_all Py.isdigit f = true) ->
  old_score cfg (Some {| div_title := title; div_text := score_string ds fp su |}) =
  match su with
  | Kilo _ => float_score ds fp su
  | _ => Py.Ok (Py.digits_value (ds +:+ frac_digits fp) 0)
  end.
Proof.
  intros Ht Hd Hne Hf. unfold old_score. cbn [div_title div_text].
  rewrite Ht. cbn [except_ValueError].
  rewrite (strip_fixed _ (str_all_impl _ _ _ plain_not_space (score_string_plain _ _ su Hd Hf))).
  assert (str_all digit_or_comma ds = true) as Hdc.
  { eapply str_all_impl; [|exact Hd]. intros c Hc. unfold digit_or_comma. rewrite Hc. reflexivity. }
  pose proof (digits_only_digits _ Hd) as Hdo.
  unfold score_string. rewrite !lower_app, (lower_fixed _ _ digit_or_comma_lower Hdc).
  rewrite (lower_fixed _ _ numeric_lower (frac_numeric _ Hf)), lower_suffix.
  rewrite <- append_assoc.
  pose proof (number_has_no "k" ds fp eq_refl Hf) as Hk. rewrite Hdo in Hk.
  assert (Py.digits_only (ds +:+ frac_text fp) = ds +:+ frac_digits fp) as Hdig.
  { rewrite digits_only_app, Hdo, (digits_only_frac _ Hf). reflexivity. }
  assert (Py.int (ds +:+ frac_digits fp) = Py.Ok (Py.digits_value (ds +:+ frac_digits fp) 0)) as Hint.
  { apply int_of_digits.
    - rewrite str_all_app, Hd. destruct fp as [f|]; [apply (Hf f eq_refl)|reflexivity].
    - destruct ds; [congruence|]. rewrite append_cons. discriminate. }
  destruct su as [|u|u].
  - rewrite append_nil_r, contains_char, Hk. cbn [negb]. rewrite Hdig, Hint. reflexivity.
  - rewrite contains_char, str_all_app. cbn [str_all]. rewrite Ascii.eqb_refl.
    cbn [negb andb]. rewrite andb_false_r. cbn [negb].
    rewrite replace_char, str_filter_app, (str_filter_id _ _ Hk).
    cbn [str_filter]. rewrite Ascii.eqb_refl. cbn [negb]. rewrite append_nil_r.
    unfold scaled. rewrite (float_of_number ds fp Hd Hne Hf). cbn [bind].
    pose proof (float_score_kilo_not_ValueError ds fp u) as Hnv.
    unfold float_score in *. cbn [factor] in *. rewrite Hdo in *.
    destruct (F64.to_int _) as [n|[]]; try reflexivity. congruence.
  - rewrite contains_char, str_all_app, Hk. cbn [str_all andb negb].
    change (negb ("k" =? "m")%char) with true. cbn [andb negb].
    rewrite digits_only_app, Hdig. change (Py.digits_only "m") with EmptyString.
    rewrite append_nil_r, Hint. reflexivity.
Qed.

Lemma digit_or_comma_not_space c : digit_or_comma c = true -> negb (Py.isspace c) = true.
Proof. each_char c; vm_compute; congruence. Qed.

Lemma digit_or_comma_not_k c : digit_or_comma c = true -> negb (Ascii.eqb "k" c) = true.
Proof. each_char c; vm_compute; congruence. Qed.

(** Lines 402-413 on a number without fraction and suffix, separators
    allowed, when the [title] attribute is not an integer. *)
Lemma old_score_number cfg title ip :
  Py.int (default "0" title) = Py.Raise Py.ValueError ->
  str_all digit_or_comma ip = true -> Py.digits_only ip <> EmptyString ->
  old_score cfg (Some {| div_title := title; div_text := ip |})
  = Py.Ok (Py.digits_value (Py.digits_only ip) 0).
Proof.
  intros Ht Hip Hne. unfold old_score. cbn [div_title div_text].
  rewrite Ht. cbn [except_ValueError].
  rewrite (strip_fixed _ (str_all_impl _ _ _ digit_or_comma_not_space Hip)).
  rewrite (lower_fixed _ _ digit_or_comma_lower Hip).
  rewrite contains_char, (str_all_impl _ _ _ digit_or_comma_not_k Hip). cbn [negb].
  rewrite (int_of_digits _ (digits_only_all ip) Hne). reflexivity.
Qed.

(** Without fraction and suffix the text is the number, and the exact
    score is the integer that its digits spell. *)
Lemma score_string_number ip : score_string ip None NoSuffix = ip.
Proof. unfold score_string. cbn [frac_text suffix_text String.append]. apply append_nil_r. Qed.

Lemma exact_score_number ip :
  exact_score ip None NoSuffix = Py.digits_value (Py.digits_only ip) 0.
Proof.
  unfold exact_score. cbn [frac_digits default factor String.length Z.of_nat].
  rewrite append_nil_r, Z.mul_1_r. apply Z.quot_1_r.
Qed.

(** ** C1: score normalisation *)

(** C1, as the claim states it, fails.  The product is a binary64
    product, so ["1.001k"] gives 1000 where exact arithmetic gives 1001.
    Without a suffix the point is dropped with every other character
    that is not a digit, so ["1.5"] gives 15 and not 1, in both layouts.
    The legacy layout has neither the rule for [m] nor the removal of
    the separators that lines 589-593 of the modern layout have: there
    ["1.2m"] gives 12, and ["12,345k"] gives the configured minimum,
    [float] refusing the separator. *)
Lemma C1_counterexample :
  parse_score_text default_config (Some (score_string "1" (Some "001") (Kilo false)))
    <> Py.Ok (exact_score "1" (Some "001") (Kilo false))
  /\ parse_score_text default_config (Some (score_string "1" (Some "5") NoSuffix))
    <> Py.Ok (exact_score "1" (Some "5") NoSuffix)
  /\ old_score default_config
       (Some {| div_title := Some "1.5";
                div_text := score_string "1" (Some "5") NoSuffix |})
    <> Py.Ok (exact_score "1" (Some "5") NoSuffix)
  /\ old_score default_config
       (Some {| div_title := Some "1.2m";
                div_text := score_string "1" (Some "2") (Mega false) |})
    <> Py.Ok (exact_score "1" (Some "2") (Mega false))
  /\ old_score default_config
       (Some {| div_title := Some "12,345k";
                div_text := score_string "12,345" None (Kilo false) |})
    <> Py.Ok (exact_score "12,345" None (Kilo false))
  /\ old_score default_config
       (Some {| div_title := Some "12,345k";
                div_text := score_string "12,345" None (Kilo false) |})
     = Py.Ok (minimum_score default_config).
Proof. repeat split; vm_compute; discriminate || reflexivity. Qed.

(** C1 (amended).  For every score text [ip[.fp]?[km]?], case-insensitive,
    [ip] being digits with optional thousands separators.  In the modern
    layout a text with a suffix gives the binary64 product of
    [float(number)] and 1000 or 1,000,000, truncated toward zero, and a
    text without fraction and suffix gives the number itself.  In the
    legacy layout, when the [title] attribute is not an integer, a text
    with the suffix [k] and no separator gives the same product by 1000,
    and a text without fraction and suffix gives the number itself.
    ["1.2k"] normalises to 1200 in both layouts.  Nothing is stated of a
    fraction without a suffix, nor in the legacy layout of the suffix
    [m] and of separators before [k]. *)
Theorem C1_score_normalisation (cfg : config) (ip : string) (fp : option string) (su : suffix) :
  str_all digit_or_comma ip = true ->
  Py.digits_only ip <> EmptyString ->
  (forall f, fp = Some f -> str_all Py.isdigit f = true) ->
  (su <> NoSuffix ->
   parse_score_text cfg (Some (score_string ip fp su)) = float_score ip fp su)
  /\ parse_score_text cfg (Some (score_string ip None NoSuffix))
     = Py.Ok (exact_score ip None NoSuffix)
  /\ (forall title,
        Py.int (default "0" title) = Py.Raise Py.ValueError ->
        (forall u,
           str_all Py.isdigit ip = true ->
           old_score cfg
             (Some {| div_title := title; div_text := score_string ip fp (Kilo u) |})
           = float_score ip fp (Kilo u))
        /\ old_score cfg
             (Some {| div_title := title; div_text := score_string ip None NoSuffix |})
           = Py.Ok (exact_score ip None NoSuffix))
  /\ parse_score_text cfg (Some "1.2k") = Py.Ok 1200
  /\ (forall title,
        Py.int (default "0" title) = Py.Raise Py.ValueError ->
        old_score cfg (Some {| div_title := title; div_text := "1.2k" |}) = Py.Ok 1200).
Proof.
  intros Hip Hne Hf. split; [|split; [|split; [|split]]].
  - intros Hsu. rewrite parse_score_text_shape by assumption.
    destruct su; [congruence|reflexivity|reflexivity].
  - rewrite parse_score_text_shape; [|assumption|assumption|discriminate].
    rewrite exact_score_number. cbn [frac_digits default]. rewrite append_nil_r. reflexivity.
  - intros title Ht. split.
    + intros u Hd. rewrite old_score_shape; try assumption; [reflexivity|].
      intros ->. apply Hne. reflexivity.
    + rewrite score_string_number, exact_score_number. apply old_score_number; assumption.
  - change "1.2k" with (score_string "1" (Some "2") (Kilo false)).
    rewrite parse_score_text_shape; [vm_compute; reflexivity|reflexivity|discriminate|].
    intros f [= <-]. reflexivity.
  - intros title Ht.
    change "1.2k" with (score_string "1" (Some "2") (Kilo false)).
    rewrite old_score_shape; [vm_compute; reflexivity|exact Ht|reflexivity|discriminate|].
    intros f [= <-]. reflexivity.
Qed.

Lemma C1_score_normalisation_witness :
  (Kilo true <> NoSuffix ->
   parse_score_text default_config (Some (score_string "12,345" (Some "6") (Kilo true)))
   = float_score "12,345" (Some "6") (Kilo true))
  /\ parse_score_text default_config (Some (score_string "12,345" None NoSuffix))
     = Py.Ok (exact_score "12,345" None NoSuffix)
  /\ (forall title,
        Py.int (default "0" title) = Py.Raise Py.ValueError ->
        (forall u,
           str_all Py.isdigit "12,345" = true ->
           old_score default_config
             (Some {| div_title := title;
                      div_text := score_string "12,345" (Some "6") (Kilo u) |})
           = float_score "12,345" (Some "6") (Kilo u))
        /\ old_score default_config
             (Some {| div_title := title; div_text := score_string "12,345" None NoSuffix |})
           = Py.Ok (exact_score "12,345" None NoSuffix))
  /\ parse_score_text default_config (Some "1.2k") = Py.Ok 1200
  /\ (forall title,
        Py.int (default "0" title) = Py.Raise Py.ValueError ->
        old_score default_config (Some {| div_title := title; div_text := "1.2k" |})
        = Py.Ok 1200).
Proof.
  apply (C1_score_normalisation default_config "12,345" (Some "6") (Kilo true)).
  - reflexivity.
  - intros H. vm_compute in H. discriminate H.
  - intros f H. injection H as <-. reflexivity.
Defined.

(** The amended statement on sample texts: ["12,345"] gives 12345 in both
    layouts, ["4.3k"] gives 4300 and ["2M"] gives 2000000 in the modern
    layout. *)
Example score_samples :
  parse_score_text default_config (Some "12,345") = Py.Ok 12345
  /\ old_score default_config (Some {| div_title := Some "12,345"; div_text := "12,345" |})
     = Py.Ok 12345
  /\ parse_score_text default_config (Some "4.3k") = Py.Ok 4300
  /\ parse_score_text default_config (Some "2M") = Py.Ok 2000000.
Proof. vm_compute. repeat split. Qed.

(** ** The random source *)

Lemma draw_value_range u : (0 <= draw_value u /\ draw_value u < 1)%Q.
Proof.
  destruct u as [n g]. unfold draw_value, Qle, Qlt. cbn.
  destruct n as [|p]; cbn; lia.
Qed.

Lemma uniform_30_60 u : (30 <= uniform 30 60 u /\ uniform 30 60 u <= 60)%Q.
Proof. unfold uniform. pose proof (draw_value_range u). lra. Qed.


Lemma uniform_5_15 u : (5 <= uniform 5 15 u /\ uniform 5 15 u <= 15)%Q.
Proof. unfold uniform. pose proof (draw_value_range u). lra. Qed.

(** ** One iteration of the retry loop *)

Lemma count_events_app p a b :
  count_events p (a ++ b) = (count_events p a + count_events p b)%nat.
Proof. unfold count_events. rewrite List.filter_app, length_app. reflexivity. Qed.

Ltac step_cases :=
  unfold attempt_step, classify;
  repeat match goal with
    | |- context [(0 <? ?a)%nat] => destruct (0 <? a)%nat eqn:?
    | |- context [negative ?q] => destruct (negative q) eqn:?
    | |- context [match ?net ?r ?url ?h with TransportError => _ | Responded _ => _ end] =>
        destruct (net r url h) as [|?resp] eqn:?
    | |- context [status_code ?resp =? 200] => destruct (status_code resp =? 200) eqn:?
    | |- context [is_heavy_load ?u] => destruct (is_heavy_load u) eqn:?
    | |- context [is_challenge ?t] => destruct (is_challenge t) eqn:?
    | |- context [is_reddit_page ?c ?t] => destruct (is_reddit_page c t) eqn:?
    end;
  cbn [andb step_log step_return step_draws step_requests].

Section StepFacts.

Variable net : nat -> string -> headers -> http_result.
Variable rnd : nat -> draw.
Variable cfg : config.
Variable url : string.
Variable hdrs : headers.

Local Abbreviation step_at := (attempt_step net rnd cfg url hdrs).
Local Abbreviation loop := (attempts_from net rnd cfg url hdrs).

(** An iteration sends at most one request. *)
Lemma step_gets_le_1 a d r : (count_events is_get (step_log (step_at a d r)) <= 1)%nat.
Proof. step_cases; cbn; lia. Qed.

(** The loop returns a page only from the branch of line 252. *)
Lemma step_return_success a d r page :
  step_return (step_at a d r) = Some page ->
  classify cfg (net r url hdrs) = Success.
Proof. step_cases; intros H; try discriminate H; reflexivity. Qed.

(** The request of an iteration is the one numbered by its counter. *)
Lemma step_get_number a d r n u h :
  In (EvGet n u h) (step_log (step_at a d r)) -> n = r /\ u = url /\ h = hdrs.
Proof.
  step_cases; intros H; cbn in H;
    repeat match goal with
      | H : _ \/ _ |- _ => destruct H as [H|H]
      | H : False |- _ => destruct H
      | H : EvGet _ _ _ = EvGet _ _ _ |- _ => injection H as <- <- <-
      | H : _ = EvGet _ _ _ |- _ => discriminate H
      end; auto.
Qed.

(** ** The loop *)

Lemma loop_length fuel a d r : (length (run_log (loop fuel a d r)) <= fuel)%nat.
Proof.
  revert a d r. induction fuel as [|fuel IH]; intros a d r; cbn [attempts_from]; [cbn; lia|].
  destruct (step_return _); cbn [run_log length]; [lia|].
  specialize (IH (S a) (step_draws (step_at a d r)) (step_requests (step_at a d r))). lia.
Qed.

Lemma loop_gets fuel a d r :
  (count_events is_get (concat (run_log (loop fuel a d r))) <= fuel)%nat.
Proof.
  revert a d r. induction fuel as [|fuel IH]; intros a d r; cbn [attempts_from]; [cbn; lia|].
  pose proof (step_gets_le_1 a d r) as H1.
  destruct (step_return _); cbn [run_log concat]; rewrite count_events_app.
  - cbn. lia.
  - specialize (IH (S a) (step_draws (step_at a d r)) (step_requests (step_at a d r))). lia.
Qed.

(** When no answer of the network is accepted, the loop runs to its
    bound and the function returns [None]. *)
Lemma loop_exhausted fuel a d r :
  (forall n, classify cfg (net n url hdrs) <> Success) ->
  run_result (loop fuel a d r) = None /\ length (run_log (loop fuel a d r)) = fuel.
Proof.
  intros Hno. revert a d r. induction fuel as [|fuel IH]; intros a d r; cbn [attempts_from];
    [split; reflexivity|].
  destruct (step_return _) as [page|] eqn:E.
  - apply step_return_success in E. destruct (Hno _ E).
  - cbn [run_result run_log length].
    destruct (IH (S a) (step_draws (step_at a d r)) (step_requests (step_at a d r))) as [-> ->].
    split; reflexivity.
Qed.

(** Every log of a run is the log of an iteration of the loop; an
    iteration that does not return is followed by the next one while the
    bound allows, and an iteration that returns ends the run. *)
Lemma loop_log fuel a d r i log :
  run_log (loop fuel a d r) !! i = Some log ->
  exists d' r',
    log = step_log (step_at (a + i) d' r')
    /\ (step_return (step_at (a + i) d' r') = None ->
        (S i < fuel)%nat -> is_Some (run_log (loop fuel a d r) !! S i))
    /\ (forall page, step_return (step_at (a + i) d' r') = Some page ->
        run_result (loop fuel a d r) = Some page /\ length (run_log (loop fuel a d r)) = S i).
Proof.
  revert a d r i. induction fuel as [|fuel IH]; intros a d r i; cbn [attempts_from];
    [cbn; discriminate|].
  destruct (step_return (step_at a d r)) as [page|] eqn:E; cbn [run_log run_result].
  - destruct i as [|i]; cbn; [|discriminate]. intros [= <-].
    exists d, r. rewrite Nat.add_0_r. repeat split.
    + congruence.
    + congruence.
  - destruct i as [|i]; cbn [lookup list_lookup].
    + intros [= <-]. exists d, r. rewrite Nat.add_0_r. split; [reflexivity|]. split.
      * intros _ Hlt. destruct fuel as [|fuel]; [lia|]. cbn [attempts_from].
        destruct (step_return (step_at (S a) _ _)); cbn [run_log]; eexists; reflexivity.
      * intros page Hp. congruence.
    + intros Hi. destruct (IH _ _ _ _ Hi) as (d' & r' & -> & Hnext & Hret).
      exists d', r'. replace (a + S i)%nat with (S a + i)%nat by lia.
      split; [reflexivity|]. split.
      * intros Hn Hlt. apply Hnext; [exact Hn|lia].
      * intros page Hp. destruct (Hret page Hp) as [-> Hl]. cbn [length]. rewrite Hl. auto.
Qed.

End StepFacts.
Section RunFacts.

Variable net : nat -> string -> headers -> http_result.
Variable rnd : nat -> draw.
Variable cfg : config.
Variable url : string.
Variable hdrs : headers.

Local Abbreviation step_at := (attempt_step net rnd cfg url hdrs).

Ltac solve_in :=
  repeat match goal with
    | H : _ \/ _ |- _ => destruct H as [H|H]
    | H : False |- _ => destruct H
    | H : In _ [] |- _ => destruct H
    | H : @eq event _ _ |- _ => discriminate H
    end.

(** The iteration that meets a challenge page. *)
Lemma step_captcha a d r :
  classify cfg (net r url hdrs) = CaptchaOrLogin ->
  In (EvGet r url hdrs) (step_log (step_at a d r)) ->
  exists pre w,
    step_log (step_at a d r) = pre ++ [EvGet r url hdrs; EvSaveCookies; EvSleep CaptchaWait w]
    /\ (30 <= w /\ w <= 60)%Q
    /\ (forall x, ~ In (EvSleep Backoff x) (step_log (step_at a d r))).
Proof.
  step_cases; intros Hc Hin; try discriminate Hc; cbn in Hin; solve_in;
    (first [ eexists [_], _; split; [reflexivity|]
           | eexists [], _; split; [reflexivity|] ]);
    (split; [apply uniform_30_60|]); intros x Hx; cbn in Hx; solve_in.
Qed.


(** Cookies are saved right after a response, and only then. *)
Lemma step_cookies a d r :
  In (EvGet r url hdrs) (step_log (step_at a d r)) ->
  match net r url hdrs with
  | Responded _ =>
      exists pre post,
        step_log (step_at a d r) = pre ++ EvGet r url hdrs :: EvSaveCookies :: post
  | TransportError => count_events is_save (step_log (step_at a d r)) = O
  end.
Proof.
  step_cases; intros Hin; cbn in Hin; solve_in;
    try reflexivity;
    first [ eexists [_], _; reflexivity | eexists [], _; reflexivity ].
Qed.

Lemma step_headers a d r :
  count_events is_headers (step_log (step_at a d r)) = O
  /\ forall h, In h (sent_headers (step_log (step_at a d r))) -> h = hdrs.
Proof.
  step_cases; cbn; split; try reflexivity; intros h Hh;
    repeat destruct Hh as [Hh|Hh]; try destruct Hh; auto.
Qed.

Lemma loop_headers fuel a d r :
  count_events is_headers (concat (run_log (attempts_from net rnd cfg url hdrs fuel a d r))) = O
  /\ forall h, In h (sent_headers (concat (run_log (attempts_from net rnd cfg url hdrs fuel a d r))))
               -> h = hdrs.
Proof.
  revert a d r. induction fuel as [|fuel IH]; intros a d r; cbn [attempts_from].
  - cbn. split; [reflexivity|]. intros h [].
  - destruct (step_headers a d r) as [H1 H2].
    destruct (step_return _); cbn [run_log concat].
    + rewrite app_nil_r. split; assumption.
    + destruct (IH (S a) (step_draws (step_at a d r)) (step_requests (step_at a d r)))
        as [H3 H4].
      rewrite count_events_app, H1, H3. split; [reflexivity|].
      intros h Hh. unfold sent_headers in Hh. rewrite omap_app in Hh.
      apply in_app_or in Hh as [Hh|Hh]; [apply H2|apply H4]; exact Hh.
Qed.

End RunFacts.

Lemma make_request_run_unfold net rnd cfg url max_retries d r :
  make_request_run net rnd cfg url max_retries d r
  = ((request_headers rnd cfg d).1,
     attempts_from net rnd cfg url (request_headers rnd cfg d).1
       (Z.to_nat max_retries) O (request_headers rnd cfg d).2 r).
Proof. unfold make_request_run. destruct (request_headers rnd cfg d). reflexivity. Qed.

Lemma count_events_skip p e t : p e = false -> count_events p (e :: t) = count_events p t.
Proof. intros H. unfold count_events. cbn [List.filter]. rewrite H. reflexivity. Qed.

(** ** C2: the bound of the retry loop *)

(** C2.  For every URL and every retry bound, a call of [_make_request]
    sends at most [max_retries] requests, in at most [max_retries]
    iterations whatever the category of each failure; and when no answer
    is accepted the loop runs to the bound and the call returns [None]. *)
Theorem C2_retry_bound (net : nat -> string -> headers -> http_result) (rnd : nat -> draw)
    (cfg : config) (url : string) (max_retries : Z) (d r : nat) :
  0 <= max_retries ->
  let hr := make_request_run net rnd cfg url max_retries d r in
  Z.of_nat (count_events is_get (run_trace hr)) <= max_retries
  /\ Z.of_nat (length (run_log hr.2)) <= max_retries
  /\ ((forall n, classify cfg (net n url hr.1) <> Success) ->
      run_result hr.2 = None /\ Z.of_nat (length (run_log hr.2)) = max_retries).
Proof.
  intros Hm hr. subst hr. rewrite make_request_run_unfold. cbn [fst snd].
  unfold run_trace. cbn [fst snd]. rewrite count_events_skip by reflexivity.
  set (h := (request_headers rnd cfg d).1). set (d0 := (request_headers rnd cfg d).2).
  pose proof (loop_gets net rnd cfg url h (Z.to_nat max_retries) O d0 r).
  pose proof (loop_length net rnd cfg url h (Z.to_nat max_retries) O d0 r).
  split; [lia|]. split; [lia|]. intros Hno.
  destruct (loop_exhausted net rnd cfg url h (Z.to_nat max_retries) O d0 r Hno) as [-> ->].
  split; [reflexivity|lia].
Qed.

Lemma C2_retry_bound_witness :
  let hr := make_request_run (always TransportError) one_half default_config listing_url 3 0 0 in
  Z.of_nat (count_events is_get (run_trace hr)) <= 3
  /\ Z.of_nat (length (run_log hr.2)) <= 3
  /\ ((forall n, classify default_config (always TransportError n listing_url hr.1) <> Success) ->
      run_result hr.2 = None /\ Z.of_nat (length (run_log hr.2)) = 3).
Proof.
  apply (C2_retry_bound (always TransportError) one_half default_config listing_url 3 0 0).
  lia.
Defined.

(** ** C3: the wait after a challenge page *)

(** C3.  Whenever the answer to a request of a call is classified
    [CaptchaOrLogin], the iteration sleeps, right after the cookies are
    saved, for a time drawn from the extended range, at least 30 and
    at most 60 seconds; this time is outside the window 5..15 of the
    network backoff, the iteration performs no backoff sleep, and up to
    the fourth iteration the time is also outside the whole interval
    [2 ** attempt + 5, 2 ** attempt + 15] of the backoff. *)
Theorem C3_captcha_wait (net : nat -> string -> headers -> http_result) (rnd : nat -> draw)
    (cfg : config) (url : string) (max_retries : Z) (d r : nat)
    (i : nat) (log : list event) (n : nat) :
  let hr := make_request_run net rnd cfg url max_retries d r in
  run_log hr.2 !! i = Some log ->
  In (EvGet n url hr.1) log ->
  classify cfg (net n url hr.1) = CaptchaOrLogin ->
  exists pre w,
    log = pre ++ [EvGet n url hr.1; EvSaveCookies; EvSleep CaptchaWait w]
    /\ (30 <= w /\ w <= 60)%Q
    /\ ~ (5 <= w /\ w <= 15)%Q
    /\ (forall x, ~ In (EvSleep Backoff x) log)
    /\ ((i <= 3)%nat -> ~ in_backoff_range i w).
Proof.
  intros hr. subst hr. rewrite make_request_run_unfold. cbn [fst snd].
  set (h := (request_headers rnd cfg d).1). intros Hi Hin Hc.
  destruct (loop_log _ _ _ _ _ _ _ _ _ _ _ Hi) as (d' & r' & -> & _ & _).
  destruct (step_get_number _ _ _ _ _ _ _ _ _ _ _ Hin) as (-> & _ & _).
  destruct (step_captcha _ _ _ _ _ _ _ _ Hc Hin) as (pre & w & E & Hw & Hb).
  exists pre, w. split; [exact E|]. split; [exact Hw|]. split; [lra|]. split; [exact Hb|].
  intros Hle [_ H2].
  assert (inject_Z (2 ^ Z.of_nat (0 + i)) <= 8)%Q as H8.
  { cbn [Nat.add]. rewrite <- (Zle_Qle _ 8).
    change 8 with (2 ^ 3). apply Z.pow_le_mono_r; lia. }
  cbn [Nat.add] in *. lra.
Qed.

Lemma C3_captcha_wait_witness :
  let hr := make_request_run (always (answer 200 listing_url "Log in to Reddit")) one_half
              default_config listing_url 3 0 0 in
  exists pre w,
    [EvGet 0 listing_url hr.1; EvSaveCookies; EvSleep CaptchaWait (90 # 2)]
    = pre ++ [EvGet 0 listing_url hr.1; EvSaveCookies; EvSleep CaptchaWait w]
    /\ (30 <= w /\ w <= 60)%Q
    /\ ~ (5 <= w /\ w <= 15)%Q
    /\ (forall x, ~ In (EvSleep Backoff x)
                    [EvGet 0 listing_url hr.1; EvSaveCookies; EvSleep CaptchaWait (90 # 2)])
    /\ ((0 <= 3)%nat -> ~ in_backoff_range 0 w).
Proof.
  apply (C3_captcha_wait (always (answer 200 listing_url "Log in to Reddit")) one_half
           default_config listing_url 3 0 0 0
           [EvGet 0 listing_url _; EvSaveCookies; EvSleep CaptchaWait (90 # 2)] 0).
  - vm_compute. reflexivity.
  - left. reflexivity.
  - vm_compute. reflexivity.
Defined.

(** ** C6: the header profile of a call *)

(** C6, as the claim states it, fails: a call whose three requests all
    fail builds one profile, not three, and sends it three times. *)
Lemma C6_counterexample :
  let hr := make_request_run (always TransportError) one_half default_config listing_url 3 0 0 in
  ~ fresh_profile_per_attempt (run_trace hr)
  /\ count_events is_headers (run_trace hr) = 1%nat
  /\ sent_headers (run_trace hr) = [hr.1; hr.1; hr.1].
Proof. vm_compute. repeat split. discriminate. Qed.

(** C6 (amended).  A call of [_make_request] builds one header profile,
    before its first attempt, and every attempt of the call sends that
    same profile. *)
Theorem C6_single_profile (net : nat -> string -> headers -> http_result) (rnd : nat -> draw)
    (cfg : config) (url : string) (max_retries : Z) (d r : nat) :
  let hr := make_request_run net rnd cfg url max_retries d r in
  count_events is_headers (run_trace hr) = 1%nat
  /\ (exists t, run_trace hr = EvHeaders hr.1 :: t /\ count_events is_headers t = O)
  /\ (forall h, In h (sent_headers (run_trace hr)) -> h = hr.1).
Proof.
  intros hr. subst hr. rewrite make_request_run_unfold. unfold run_trace. cbn [fst snd].
  set (h := (request_headers rnd cfg d).1). set (d0 := (request_headers rnd cfg d).2).
  destruct (loop_headers net rnd cfg url h (Z.to_nat max_retries) O d0 r) as [H1 H2].
  split; [|split].
  - unfold count_events in *. cbn [List.filter is_headers length]. rewrite H1. reflexivity.
  - eexists. split; [reflexivity|exact H1].
  - intros h' Hh. cbn in Hh. apply H2, Hh.
Qed.

(** ** C7: the page of another site *)




(** ** C8: the cookies after an attempt *)

(** C8, as the claim states it, fails: an attempt that fails at the
    transport level leaves no call of [_save_cookies]. *)
Lemma C8_counterexample :
  let hr := make_request_run (always TransportError) one_half default_config listing_url 1 0 0 in
  In (EvGet 0 listing_url hr.1) (run_trace hr)
  /\ ~ In EvSaveCookies (run_trace hr).
Proof.
  vm_compute. split.
  - right. left. reflexivity.
  - intros H. repeat destruct H as [H|H]; try discriminate H. exact H.
Qed.

(** C8 (amended).  After every request of a call that obtains a
    response, whatever its status and its classification, the cookies
    are saved at once, before any sleep and before the call returns; an
    attempt that fails at the transport level saves no cookies. *)
Theorem C8_cookies_after_response (net : nat -> string -> headers -> http_result)
    (rnd : nat -> draw) (cfg : config) (url : string) (max_retries : Z) (d r : nat)
    (i : nat) (log : list event) (n : nat) :
  let hr := make_request_run net rnd cfg url max_retries d r in
  run_log hr.2 !! i = Some log ->
  In (EvGet n url hr.1) log ->
  match net n url hr.1 with
  | Responded _ =>
      exists pre post, log = pre ++ EvGet n url hr.1 :: EvSaveCookies :: post
  | TransportError => count_events is_save log = O
  end.
Proof.
  intros hr. subst hr. rewrite make_request_run_unfold. cbn [fst snd].
  set (h := (request_headers rnd cfg d).1). intros Hi Hin.
  destruct (loop_log _ _ _ _ _ _ _ _ _ _ _ Hi) as (d' & r' & -> & _ & _).
  destruct (step_get_number _ _ _ _ _ _ _ _ _ _ _ Hin) as (-> & _ & _).
  apply step_cookies, Hin.
Qed.

Lemma C8_cookies_after_response_witness :
  let net := always (answer 503 listing_url "Service Unavailable") in
  let hr := make_request_run net one_half default_config listing_url 3 0 0 in
  exists pre post,
    [EvGet 0 listing_url hr.1; EvSaveCookies; EvSleep Backoff (22 # 2)]
    = pre ++ EvGet 0 listing_url hr.1 :: EvSaveCookies :: post.
Proof.
  intros net hr.
  apply (C8_cookies_after_response net one_half default_config listing_url 3 0 0 0
           [EvGet 0 listing_url hr.1; EvSaveCookies; EvSleep Backoff (22 # 2)] 0).
  - vm_compute. reflexivity.
  - left. reflexivity.
Defined.

(** ** The heap under detail enrichment *)

Lemma store_heap_same l key v σ :
  heap (store l key v σ) !! l = insert key v <$> heap σ !! l.
Proof. unfold store. cbn [heap]. apply lookup_alter_eq. Qed.

Lemma store_heap_other l l' key v σ :
  l' <> l -> heap (store l key v σ) !! l' = heap σ !! l'.
Proof. intros H. unfold store. cbn [heap]. apply lookup_alter_ne. congruence. Qed.

Lemma store_trace l key v σ : trace (store l key v σ) = trace σ.
Proof. reflexivity. Qed.

Lemma same_listing_fields_refl rec : same_listing_fields rec rec.
Proof. intros k _. reflexivity. Qed.

Lemma same_listing_fields_trans a b c :
  same_listing_fields a b -> same_listing_fields b c -> same_listing_fields a c.
Proof. intros H1 H2 k Hk. rewrite (H2 k Hk). apply H1, Hk. Qed.

Lemma same_listing_fields_insert rec key v :
  In key detail_keys -> same_listing_fields rec (<[key := v]> rec).
Proof.
  intros Hin k Hk. apply lookup_insert_ne. intros ->. exact (Hk Hin).
Qed.

Section DetailFacts.

Variable net : nat -> string -> headers -> http_result.
Variable rnd : nat -> draw.
Variable cfg : config.

Lemma make_request_heap url m σ :
  heap (_make_request net rnd cfg url m σ).2 = heap σ.
Proof. reflexivity. Qed.

Lemma enrich_other l dv σ l' :
  l' <> l -> heap (enrich cfg l dv σ) !! l' = heap σ !! l'.
Proof.
  intros Hne. unfold enrich.
  destruct (dv_fault dv) as [[| |]|]; rewrite ?store_heap_other by exact Hne; reflexivity.
Qed.

Lemma enrich_same l dv σ rec :
  heap σ !! l = Some rec ->
  exists rec', heap (enrich cfg l dv σ) !! l = Some rec' /\ same_listing_fields rec rec'.
Proof.
  intros Hl. unfold enrich.
  assert (In "selftext" detail_keys) as K1 by (cbn; auto).
  assert (In "num_comments" detail_keys) as K2 by (cbn; auto).
  assert (In "top_comments" detail_keys) as K3 by (cbn; auto).
  destruct (dv_fault dv) as [[| |]|]; rewrite ?store_heap_same, Hl; cbn [fmap option_fmap option_map];
    eexists; (split; [reflexivity|]).
  - apply same_listing_fields_refl.
  - apply same_listing_fields_insert, K1.
  - eapply same_listing_fields_trans; apply same_listing_fields_insert; assumption.
  - eapply same_listing_fields_trans; [|apply same_listing_fields_insert, K3].
    eapply same_listing_fields_trans; apply same_listing_fields_insert; assumption.
Qed.

Lemma enrich_trace l dv σ : trace (enrich cfg l dv σ) = trace σ.
Proof. unfold enrich. destruct (dv_fault dv) as [[| |]|]; reflexivity. Qed.

Lemma make_request_state url m σ o σ1 :
  _make_request net rnd cfg url m σ = (o, σ1) ->
  heap σ1 = heap σ /\ next_loc σ1 = next_loc σ
  /\ trace σ1 = trace σ ++ run_trace (make_request_run net rnd cfg url m (draws σ) (requests σ)).
Proof. unfold _make_request. intros [= <- <-]. repeat split. Qed.

(** The heap after [_fetch_thread_details]: the record of the call keeps
    its listing fields, every other record is untouched. *)
Lemma fetch_details_heap l σ l' rec :
  heap σ !! l' = Some rec ->
  exists rec', heap (_fetch_thread_details net rnd cfg l σ).2 !! l' = Some rec'
               /\ same_listing_fields rec rec' /\ (l' <> l -> rec' = rec).
Proof.
  intros Hl'. unfold _fetch_thread_details.
  set (σ0 := log [EvDetails l] σ).
  assert (exists rec', heap σ !! l' = Some rec' /\ same_listing_fields rec rec'
                       /\ (l' <> l -> rec' = rec)) as Hsame.
  { exists rec. split; [exact Hl'|]. split; [apply same_listing_fields_refl|reflexivity]. }
  destruct (load l "permalink" σ0) as [[url| | |]|e]; cbn [snd]; try exact Hsame.
  destruct (if debug cfg then load l "id" σ0 else Py.Ok (VInt 0)); cbn [snd]; try exact Hsame.
  destruct (_make_request net rnd cfg _ 3 σ0) as [o σ1] eqn:E.
  apply make_request_state in E as (H1 & _ & _). change (heap σ0) with (heap σ) in H1.
  destruct o as [page|].
  - cbn [snd]. destruct (decide (l' = l)) as [->|Hne].
    + rewrite <- H1 in Hl'. destruct (enrich_same l (soup_detail page) σ1 rec Hl') as (r & Hr & Sr).
      exists r. split; [exact Hr|]. split; [exact Sr|]. congruence.
    + rewrite enrich_other, H1 by exact Hne. exact Hsame.
  - destruct (load l "id" σ1); cbn [snd]; rewrite H1; exact Hsame.
Qed.

(** [_fetch_thread_details] returns the reference that it was given,
    when the record has a permalink and an id. *)
Lemma fetch_details_returns l σ rec url id :
  heap σ !! l = Some rec ->
  rec !! "permalink" = Some (VStr url) ->
  rec !! "id" = Some id ->
  (_fetch_thread_details net rnd cfg l σ).1 = Py.Ok l.
Proof.
  intros Hl Hp Hid. unfold _fetch_thread_details.
  set (σ0 := log [EvDetails l] σ).
  assert (forall σ', heap σ' = heap σ -> load l "permalink" σ' = Py.Ok (VStr url)) as Lp.
  { intros σ' H. unfold load. rewrite H, Hl. cbn. rewrite Hp. reflexivity. }
  assert (forall σ', heap σ' = heap σ -> load l "id" σ' = Py.Ok id) as Li.
  { intros σ' H. unfold load. rewrite H, Hl. cbn. rewrite Hid. reflexivity. }
  rewrite (Lp σ0 eq_refl).
  assert ((if debug cfg then load l "id" σ0 else Py.Ok (VInt 0))
          = Py.Ok (if debug cfg then id else VInt 0)) as ->.
  { destruct (debug cfg); [apply Li|]; reflexivity. }
  destruct (_make_request net rnd cfg _ 3 σ0) as [o σ1] eqn:E.
  apply make_request_state in E as (H1 & _ & _).
  destruct o as [page|]; [reflexivity|]. rewrite (Li σ1 H1). reflexivity.
Qed.

End DetailFacts.

(** ** C10: the frame of detail enrichment *)

(** C10.  For every thread record passed to [_fetch_thread_details], as
    the parsers build it (with a permalink and an id), the call returns
    the same record; it assigns no key other than [selftext],
    [num_comments] and [top_comments], so [id], [title], [subreddit],
    [score], [permalink], [url] and [created_utc] are unchanged, and it
    touches no other record: whether the fetch fails, succeeds, or the
    parsing raises at any point. *)
Theorem C10_detail_frame (net : nat -> string -> headers -> http_result) (rnd : nat -> draw)
    (cfg : config) (thread_data : loc) (σ : state) (rec : gmap string value)
    (url : string) (id : value) :
  heap σ !! thread_data = Some rec ->
  rec !! "permalink" = Some (VStr url) ->
  rec !! "id" = Some id ->
  let out := _fetch_thread_details net rnd cfg thread_data σ in
  out.1 = Py.Ok thread_data
  /\ (exists rec',
        heap out.2 !! thread_data = Some rec'
        /\ same_listing_fields rec rec'
        /\ forall k, In k listing_keys -> rec' !! k = rec !! k)
  /\ (forall l other, l <> thread_data -> heap σ !! l = Some other ->
        heap out.2 !! l = Some other).
Proof.
  intros Hl Hp Hid out. subst out. split; [|split].
  - eapply fetch_details_returns; eassumption.
  - destruct (fetch_details_heap net rnd cfg thread_data σ thread_data rec Hl)
      as (rec' & Hr & Hs & _).
    exists rec'. split; [exact Hr|]. split; [exact Hs|].
    intros k Hk. apply Hs. intros Hd. cbn in Hk, Hd.
    repeat destruct Hk as [<-|Hk]; try destruct Hk;
      repeat destruct Hd as [Hd|Hd]; try discriminate Hd; try destruct Hd.
  - intros l other Hne Ho.
    destruct (fetch_details_heap net rnd cfg thread_data σ l other Ho) as (rec' & Hr & _ & He).
    rewrite Hr, (He Hne). reflexivity.
Qed.


Lemma thread_dict_without_detail i t s sc now p :
  without_detail (thread_dict i t s sc now p).
Proof. split; reflexivity. Qed.

Lemma thread_dict_score i t s sc now p :
  thread_dict i t s sc now p !! "score" = Some (VInt sc).
Proof. reflexivity. Qed.

Lemma thread_dict_permalink i t s sc now p :
  thread_dict i t s sc now p !! "permalink" = Some (VStr p).
Proof. reflexivity. Qed.

Lemma C10_detail_frame_witness :
  let out := _fetch_thread_details (always (answer 200 listing_url "a title : TIFU"))
               one_half default_config 1%positive sample_state in
  out.1 = Py.Ok 1%positive
  /\ (exists rec',
        heap out.2 !! 1%positive = Some rec'
        /\ same_listing_fields sample_record rec'
        /\ forall k, In k listing_keys -> rec' !! k = sample_record !! k)
  /\ (forall l other, l <> 1%positive -> heap sample_state !! l = Some other ->
        heap out.2 !! l = Some other).
Proof.
  apply (C10_detail_frame (always (answer 200 listing_url "a title : TIFU")) one_half
           default_config 1%positive sample_state sample_record
           "https://www.reddit.com/r/TIFU/comments/abc123/a_title/" (VStr "abc123")).
  - reflexivity.
  - reflexivity.
  - reflexivity.
Defined.

(** ** Detail fetches in a trace *)

Lemma details_of_app a b : details_of (a ++ b) = details_of a ++ details_of b.
Proof. apply omap_app. Qed.

Section AssemblyFacts.

Variable net : nat -> string -> headers -> http_result.
Variable rnd : nat -> draw.
Variable cfg : config.
Variable urljoin : string -> string -> string.

Lemma step_no_details url hdrs a d r :
  details_of (step_log (attempt_step net rnd cfg url hdrs a d r)) = [].
Proof. step_cases; reflexivity. Qed.

Lemma loop_no_details url hdrs fuel a d r :
  details_of (concat (run_log (attempts_from net rnd cfg url hdrs fuel a d r))) = [].
Proof.
  revert a d r. induction fuel as [|fuel IH]; intros a d r; cbn [attempts_from]; [reflexivity|].
  destruct (step_return _); cbn [run_log concat]; rewrite details_of_app, step_no_details.
  - reflexivity.
  - apply IH.
Qed.

Lemma run_trace_no_details url m d r :
  details_of (run_trace (make_request_run net rnd cfg url m d r)) = [].
Proof.
  rewrite make_request_run_unfold. unfold run_trace. cbn [fst snd].
  change (details_of (EvHeaders ?h :: ?t)) with (details_of t). apply loop_no_details.
Qed.

(** The events of [_fetch_thread_details]: one entry, for its record. *)
Lemma fetch_details_trace l σ :
  exists new, trace (_fetch_thread_details net rnd cfg l σ).2 = trace σ ++ new
              /\ details_of new = [l].
Proof.
  unfold _fetch_thread_details. set (σ0 := log [EvDetails l] σ).
  assert (exists new, trace σ0 = trace σ ++ new /\ details_of new = [l]) as H0.
  { exists [EvDetails l]. split; reflexivity. }
  destruct (load l "permalink" σ0) as [[url| | |]|e]; cbn [snd]; try exact H0.
  destruct (if debug cfg then load l "id" σ0 else Py.Ok (VInt 0)); cbn [snd]; try exact H0.
  destruct (_make_request net rnd cfg _ 3 σ0) as [o σ1] eqn:E.
  apply make_request_state in E as (_ & _ & Ht).
  assert (exists new, trace σ1 = trace σ ++ new /\ details_of new = [l]) as H1.
  { eexists. split; [rewrite Ht; cbn [trace σ0 log]; rewrite <- app_assoc; reflexivity|].
    rewrite details_of_app, run_trace_no_details. reflexivity. }
  destruct o as [page|]; cbn [snd].
  - rewrite enrich_trace. exact H1.
  - destruct (load l "id" σ1); exact H1.
Qed.

Lemma fetch_details_absent l σ l' :
  heap σ !! l' = None -> heap (_fetch_thread_details net rnd cfg l σ).2 !! l' = None.
Proof.
  intros Hn. unfold _fetch_thread_details. set (σ0 := log [EvDetails l] σ).
  destruct (decide (l' = l)) as [->|Hne].
  - unfold load at 1. change (heap σ0) with (heap σ). rewrite Hn. exact Hn.
  - destruct (load l "permalink" σ0) as [[url| | |]|e]; cbn [snd]; try exact Hn.
    destruct (if debug cfg then load l "id" σ0 else Py.Ok (VInt 0)); cbn [snd]; try exact Hn.
    destruct (_make_request net rnd cfg _ 3 σ0) as [o σ1] eqn:E.
    apply make_request_state in E as (H1 & _ & _). change (heap σ0) with (heap σ) in H1.
    destruct o as [page|]; cbn [snd].
    + rewrite enrich_other, H1 by exact Hne. exact Hn.
    + destruct (load l "id" σ1); cbn [snd]; rewrite H1; exact Hn.
Qed.

Lemma fetch_details_score l σ l' :
  score_of (_fetch_thread_details net rnd cfg l σ).2 l' = score_of σ l'.
Proof.
  unfold score_of. destruct (heap σ !! l') as [rec|] eqn:E.
  - destruct (fetch_details_heap net rnd cfg l σ l' rec E) as (rec' & -> & Hs & _).
    cbn. apply Hs. cbn. intros H. repeat destruct H as [H|H]; try discriminate H. exact H.
  - rewrite (fetch_details_absent l σ l' E). reflexivity.
Qed.

Lemma sleep_uniform_state k a b σ :
  heap (sleep_uniform rnd k a b σ) = heap σ
  /\ exists new, trace (sleep_uniform rnd k a b σ) = trace σ ++ new /\ details_of new = [].
Proof. split; [reflexivity|]. eexists. split; reflexivity. Qed.

(** The loop of the detail fetches: scores are kept, records persist, a
    fetch is issued only for a record whose score reaches the minimum,
    and a record for which none is issued is left as it was. *)
Lemma details_loop_spec threads i σ :
  (forall l, score_of (details_loop net rnd cfg i threads σ) l = score_of σ l)
  /\ exists new,
      trace (details_loop net rnd cfg i threads σ) = trace σ ++ new
      /\ (forall l, In l (details_of new) ->
            exists s, score_of σ l = Some (VInt s) /\ minimum_score cfg <= s)
      /\ (forall l rec, heap σ !! l = Some rec -> ~ In l (details_of new) ->
            heap (details_loop net rnd cfg i threads σ) !! l = Some rec).
Proof.
  revert i σ. induction threads as [|t threads IH]; intros i σ; cbn [details_loop].
  - split; [reflexivity|]. exists []. rewrite app_nil_r. repeat split; auto. intros l [].
  - assert ((forall l, score_of σ l = score_of σ l)
            /\ exists new, trace σ = trace σ ++ new
                /\ (forall l, In l (details_of new) ->
                      exists s, score_of σ l = Some (VInt s) /\ minimum_score cfg <= s)
                /\ (forall l rec, heap σ !! l = Some rec -> ~ In l (details_of new) ->
                      heap σ !! l = Some rec)) as Hstop.
    { split; [reflexivity|]. exists []. rewrite app_nil_r. repeat split; auto. intros l []. }
    destruct (load t "score" σ) as [[ | score| | ]|e] eqn:Hload; try exact Hstop.
    destruct (minimum_score cfg <=? score) eqn:Hmin; [|apply IH].
    apply Z.leb_le in Hmin.
    set (σ1 := if (0 <? i)%nat then sleep_uniform rnd DetailGap 5 10 σ else σ).
    assert (heap σ1 = heap σ /\ exists new1, trace σ1 = trace σ ++ new1 /\ details_of new1 = [])
      as (Hh1 & new1 & Ht1 & Hd1).
    { subst σ1. destruct (0 <? i)%nat; [apply sleep_uniform_state|].
      split; [reflexivity|]. exists []. rewrite app_nil_r. split; reflexivity. }
    assert (forall l, score_of σ1 l = score_of σ l) as Hs1.
    { intros l. unfold score_of. rewrite Hh1. reflexivity. }
    assert (score_of σ t = Some (VInt score)) as Hst.
    { unfold load in Hload. unfold score_of.
      destruct (heap σ !! t ≫= (.!! "score")); congruence. }
    destruct (fetch_details_trace t σ1) as (new2 & Ht2 & Hd2).
    pose proof (fetch_details_score t σ1) as Hs2.
    pose proof (fetch_details_heap net rnd cfg t σ1) as Hh2.
    destruct (_fetch_thread_details net rnd cfg t σ1) as [res σ2]. cbn [snd] in *.
    assert ((forall l, score_of σ2 l = score_of σ l)
            /\ exists new, trace σ2 = trace σ ++ new
                /\ (forall l, In l (details_of new) ->
                      exists s, score_of σ l = Some (VInt s) /\ minimum_score cfg <= s)
                /\ (forall l rec, heap σ !! l = Some rec -> ~ In l (details_of new) ->
                      heap σ2 !! l = Some rec)) as Hhere.
    { split; [intros l; rewrite Hs2; apply Hs1|].
      exists (new1 ++ new2). split; [rewrite Ht2, Ht1, app_assoc; reflexivity|].
      rewrite details_of_app, Hd1, Hd2. cbn [app]. split.
      - intros l [<-|[]]. exists score. split; [exact Hst|exact Hmin].
      - intros l rec Hl Hnin. rewrite <- Hh1 in Hl.
        destruct (Hh2 l rec Hl) as (rec' & Hr & _ & He). rewrite Hr. f_equal. apply He.
        intros ->. apply Hnin. left. reflexivity. }
    destruct res as [l0|e]; [|exact Hhere].
    destruct Hhere as (Hsc & new & Ht & Hf & Hk).
    destruct (IH (S i) σ2) as (Hsc' & new' & Ht' & Hf' & Hk').
    split; [intros l; rewrite Hsc'; apply Hsc|].
    exists (new ++ new'). split; [rewrite Ht', Ht, app_assoc; reflexivity|].
    rewrite details_of_app. split.
    + intros l Hin. apply in_app_or in Hin as [Hin|Hin]; [apply Hf, Hin|].
      destruct (Hf' l Hin) as (s & Hs & Hle). exists s. rewrite <- Hsc. auto.
    + intros l rec Hl Hnin. apply Hk'.
      * apply Hk; [exact Hl|]. intros Hin. apply Hnin, in_or_app. auto.
      * intros Hin. apply Hnin, in_or_app. auto.
Qed.

End AssemblyFacts.

(** * Further properties of the engine *)

(** ** The listing parsers *)

Lemma parsed_nil sub σ : parsed sub σ [] σ.
Proof.
  unfold parsed. repeat split; try reflexivity; try lia.
  - constructor.
  - destruct H.
  - destruct H.
  - destruct H.
Qed.

(** One allocation followed by a parsed run. *)
Lemma parsed_alloc sub σ d ls σ' :
  listing_record sub d ->
  parsed sub (alloc d σ).2 ls σ' ->
  parsed sub σ ((alloc d σ).1 :: ls) σ'.
Proof.
  intros Hd (Ht & Hdr & Hrq & Hn & Hh & Hnd & Hls). unfold alloc in *. cbn [fst snd] in *.
  cbn [trace draws requests next_loc heap] in *.
  unfold parsed. split; [exact Ht|]. split; [exact Hdr|]. split; [exact Hrq|].
  split; [lia|]. split; [|split].
  - intros l Hl. rewrite Hh by lia. apply lookup_insert_ne. lia.
  - constructor; [|exact Hnd]. intros Hin. apply list_elem_of_In in Hin.
    destruct (Hls _ Hin) as [Hr _]. lia.
  - intros l [<-|Hin].
    + split; [lia|]. exists d. split; [|exact Hd].
      rewrite Hh by lia. apply lookup_insert_eq.
    + destruct (Hls l Hin) as [Hr Hrec]. split; [lia|exact Hrec].
Qed.

Lemma old_thread_record cfg sub now post d :
  old_thread cfg sub now post = Py.Ok (Some d) -> listing_record sub d.
Proof.
  unfold old_thread.
  destruct (in_classes "stickied" _ || in_classes "promoted" _); [discriminate|].
  destruct (old_score cfg (thing_score post)) as [score|e]; cbn [bind]; [|discriminate].
  destruct (old_permalink (thing_title post)) as [p|]; [|discriminate].
  destruct (Py.truthy p) eqn:E; [|discriminate].
  intros [= <-]. unfold listing_record. eauto 10.
Qed.

Lemma new_thread_record cfg sub n now post d :
  new_thread cfg sub n now post = Py.Ok (Some d) -> listing_record sub d.
Proof.
  unfold new_thread.
  destruct (new_score cfg post) as [score|e]; cbn [bind]; [|discriminate].
  destruct (new_permalink post) as [p|]; [|discriminate].
  destruct (Py.truthy p) eqn:E; [|discriminate].
  intros [= <-]. unfold listing_record. eauto 10.
Qed.

Section ParserFacts.

Variable net : nat -> string -> headers -> http_result.
Variable rnd : nat -> draw.
Variable cfg : config.
Variable urljoin : string -> string -> string.

Lemma old_posts_loop_parsed sub posts σ :
  parsed sub σ (old_posts_loop cfg sub posts σ).1 (old_posts_loop cfg sub posts σ).2.
Proof.
  revert σ. induction posts as [|post posts IH]; intros σ; cbn [old_posts_loop].
  - apply parsed_nil.
  - destruct (old_thread cfg sub (clock σ) post) as [[d|]|e] eqn:E; try apply IH.
    change (let '(l, σ1) := alloc d σ in _)
      with (let '(ls, σ2) := old_posts_loop cfg sub posts (alloc d σ).2 in
            ((alloc d σ).1 :: ls, σ2)).
    pose proof (IH (alloc d σ).2) as H.
    destruct (old_posts_loop cfg sub posts (alloc d σ).2) as [ls σ2]. cbn [fst snd] in *.
    apply parsed_alloc; [eapply old_thread_record, E|exact H].
Qed.

Lemma new_posts_loop_parsed sub posts n σ :
  parsed sub σ (new_posts_loop cfg sub posts n σ).1 (new_posts_loop cfg sub posts n σ).2.
Proof.
  revert n σ. induction posts as [|post posts IH]; intros n σ; cbn [new_posts_loop].
  - apply parsed_nil.
  - destruct (new_thread cfg sub n (clock σ) post) as [[d|]|e] eqn:E; try apply IH.
    change (let '(l, σ1) := alloc d σ in _)
      with (let '(ls, σ2) := new_posts_loop cfg sub posts (S n) (alloc d σ).2 in
            ((alloc d σ).1 :: ls, σ2)).
    pose proof (IH (S n) (alloc d σ).2) as H.
    destruct (new_posts_loop cfg sub posts (S n) (alloc d σ).2) as [ls σ2]. cbn [fst snd] in *.
    apply parsed_alloc; [eapply new_thread_record, E|exact H].
Qed.

Lemma links_loop_parsed sub links seen n σ :
  parsed sub σ (links_loop cfg urljoin sub links seen n σ).1
               (links_loop cfg urljoin sub links seen n σ).2.
Proof.
  revert seen n σ. induction links as [|a links IH]; intros seen n σ; cbn [links_loop].
  - apply parsed_nil.
  - destruct (Py.truthy (link_href a) && Py.contains "/comments/" (link_href a)
              && bool_decide (link_href a ∉ seen)) eqn:Hc; [|apply IH].
    match goal with |- context [if ?c then _ else _] => destruct c eqn:Ht end; [|apply IH].
    match goal with |- context [alloc ?d σ] => set (d0 := d) end.
    change (let '(l, σ1) := alloc d0 σ in _)
      with (let '(ls, σ2) := links_loop cfg urljoin sub links ({[link_href a]} ∪ seen) (S n)
                               (alloc d0 σ).2 in
            ((alloc d0 σ).1 :: ls, σ2)).
    pose proof (IH ({[link_href a]} ∪ seen) (S n) (alloc d0 σ).2) as H.
    destruct (links_loop cfg urljoin sub links _ (S n) (alloc d0 σ).2) as [ls σ2].
    cbn [fst snd] in *.
    apply parsed_alloc; [|exact H].
    unfold listing_record, d0. do 5 eexists. reflexivity.
Qed.

(** Both parsers leave listing records at fresh, distinct references. *)
Lemma parse_listing_parsed page sub σ :
  parsed sub σ (_parse_old_reddit cfg page sub σ).1 (_parse_old_reddit cfg page sub σ).2
  /\ parsed sub σ (_parse_new_reddit cfg urljoin page sub σ).1
                  (_parse_new_reddit cfg urljoin page sub σ).2.
Proof.
  split; [apply old_posts_loop_parsed|].
  unfold _parse_new_reddit. destruct (post_elements page).
  - apply links_loop_parsed.
  - apply new_posts_loop_parsed.
Qed.

End ParserFacts.

Section ScrapeFacts.

Variable net : nat -> string -> headers -> http_result.
Variable rnd : nat -> draw.
Variable cfg : config.
Variable urljoin : string -> string -> string.

Lemma run_trace_gets url m d r :
  Z.of_nat (count_events is_get (run_trace (make_request_run net rnd cfg url m d r)))
  <= Z.max 0 m.
Proof.
  rewrite make_request_run_unfold. unfold run_trace. cbn [fst snd].
  rewrite count_events_skip by reflexivity.
  pose proof (loop_gets net rnd cfg url (request_headers rnd cfg d).1 (Z.to_nat m) O
                (request_headers rnd cfg d).2 r). lia.
Qed.

(** The events of [_fetch_thread_details]: one entry, at most three
    requests. *)
Lemma fetch_details_events l σ :
  exists new, trace (_fetch_thread_details net rnd cfg l σ).2 = trace σ ++ new
              /\ details_of new = [l]
              /\ (count_events is_get new <= 3)%nat.
Proof.
  unfold _fetch_thread_details. set (σ0 := log [EvDetails l] σ).
  assert (exists new, trace σ0 = trace σ ++ new /\ details_of new = [l]
                      /\ (count_events is_get new <= 3)%nat) as H0.
  { exists [EvDetails l]. repeat split. cbn. lia. }
  destruct (load l "permalink" σ0) as [[url| | |]|e]; cbn [snd]; try exact H0.
  destruct (if debug cfg then load l "id" σ0 else Py.Ok (VInt 0)); cbn [snd]; try exact H0.
  destruct (_make_request net rnd cfg _ 3 σ0) as [o σ1] eqn:E.
  apply make_request_state in E as (_ & _ & Ht).
  assert (exists new, trace σ1 = trace σ ++ new /\ details_of new = [l]
                      /\ (count_events is_get new <= 3)%nat) as H1.
  { eexists. split; [rewrite Ht; cbn [trace σ0 log]; rewrite <- app_assoc; reflexivity|].
    rewrite details_of_app, run_trace_no_details. split; [reflexivity|].
    rewrite count_events_app.
    match goal with |- context [run_trace (make_request_run _ _ _ ?u _ _ _)] =>
      pose proof (run_trace_gets u 3 (draws σ0) (requests σ0)) as Hg end.
    change (count_events is_get [EvDetails l]) with O.
    cbn [Nat.add]. lia. }
  destruct o as [page|]; cbn [snd].
  - rewrite enrich_trace. exact H1.
  - destruct (load l "id" σ1); exact H1.
Qed.

Lemma loop_events_nil threads σ : loop_events cfg threads σ [].
Proof. repeat split; cbn; try lia; destruct H. Qed.

Lemma loop_events_skip t threads σ new :
  loop_events cfg threads σ new -> loop_events cfg (t :: threads) σ new.
Proof.
  intros (Hin & Hlen & Hg). repeat split.
  - right. apply Hin, H.
  - apply Hin, H.
  - cbn [length]. lia.
  - exact Hg.
Qed.

Lemma loop_events_step t threads σ σ2 here rest score :
  details_of here = [t] -> (count_events is_get here <= 3)%nat ->
  score_of σ t = Some (VInt score) -> minimum_score cfg <= score ->
  (forall l, score_of σ2 l = score_of σ l) ->
  loop_events cfg threads σ2 rest ->
  loop_events cfg (t :: threads) σ (here ++ rest).
Proof.
  intros Hd Hg Hst Hmin Hsc (Hin & Hlen & Hgr). unfold loop_events.
  rewrite details_of_app, count_events_app, Hd. cbn [app length]. repeat split.
  - destruct H as [<-|H]; [left; reflexivity|]. right. apply Hin, H.
  - destruct H as [<-|H]; [exists score; auto|].
    destruct (Hin l H) as (_ & s & Hs & Hle). exists s. rewrite <- Hsc. auto.
  - lia.
  - lia.
Qed.

Lemma details_loop_events threads i σ :
  exists new,
    trace (details_loop net rnd cfg i threads σ) = trace σ ++ new
    /\ loop_events cfg threads σ new.
Proof.
  revert i σ. induction threads as [|t threads IH]; intros i σ; cbn [details_loop].
  - exists []. rewrite app_nil_r. split; [reflexivity|apply loop_events_nil].
  - assert (exists new, trace σ = trace σ ++ new /\ loop_events cfg (t :: threads) σ new) as Hstop.
    { exists []. rewrite app_nil_r. split; [reflexivity|apply loop_events_nil]. }
    destruct (load t "score" σ) as [[ | score| | ]|e] eqn:Hload; try exact Hstop.
    destruct (minimum_score cfg <=? score) eqn:Hmin.
    2:{ destruct (IH (S i) σ) as (new & Ht & Hev).
        exists new. split; [exact Ht|apply loop_events_skip, Hev]. }
    apply Z.leb_le in Hmin.
    set (σ1 := if (0 <? i)%nat then sleep_uniform rnd DetailGap 5 10 σ else σ).
    assert (heap σ1 = heap σ
            /\ exists new1, trace σ1 = trace σ ++ new1 /\ details_of new1 = []
                            /\ count_events is_get new1 = O)
      as (Hh1 & new1 & Ht1 & Hd1 & Hg1).
    { subst σ1. destruct (0 <? i)%nat.
      - split; [reflexivity|]. eexists. repeat split.
      - split; [reflexivity|]. exists []. rewrite app_nil_r. repeat split. }
    assert (score_of σ t = Some (VInt score)) as Hst.
    { unfold load in Hload. unfold score_of.
      destruct (heap σ !! t ≫= (.!! "score")); congruence. }
    destruct (fetch_details_events t σ1) as (new2 & Ht2 & Hd2 & Hg2).
    pose proof (fetch_details_score net rnd cfg t σ1) as Hs2.
    destruct (_fetch_thread_details net rnd cfg t σ1) as [res σ2]. cbn [snd] in *.
    assert (forall l, score_of σ2 l = score_of σ l) as Hsc.
    { intros l. rewrite Hs2. unfold score_of. rewrite Hh1. reflexivity. }
    assert (details_of (new1 ++ new2) = [t]) as Hd12.
    { rewrite details_of_app, Hd1, Hd2. reflexivity. }
    assert (count_events is_get (new1 ++ new2) <= 3)%nat as Hg12.
    { rewrite count_events_app, Hg1. exact Hg2. }
    assert (trace σ2 = trace σ ++ (new1 ++ new2)) as Ht12.
    { rewrite Ht2, Ht1, <- !app_assoc. reflexivity. }
    destruct res as [l0|e].
    + destruct (IH (S i) σ2) as (new' & Ht' & Hev').
      exists ((new1 ++ new2) ++ new'). split; [rewrite Ht', Ht12, <- !app_assoc; reflexivity|].
      eapply loop_events_step; eassumption.
    + exists ((new1 ++ new2) ++ []). split; [rewrite app_nil_r; exact Ht12|].
      eapply loop_events_step; try eassumption. apply loop_events_nil.
Qed.

(** The loop enters [_fetch_thread_details] for records of the list in
    the order of the list, each at most once. *)
Lemma details_loop_order threads i σ :
  exists new,
    trace (details_loop net rnd cfg i threads σ) = trace σ ++ new
    /\ sublist (details_of new) threads.
Proof.
  revert i σ. induction threads as [|t threads IH]; intros i σ; cbn [details_loop].
  - exists []. rewrite app_nil_r. split; [reflexivity|constructor].
  - assert (exists new, trace σ = trace σ ++ new /\ sublist (details_of new) (t :: threads))
      as Hstop.
    { exists []. rewrite app_nil_r. split; [reflexivity|apply sublist_nil_l]. }
    destruct (load t "score" σ) as [[ | score| | ]|e] eqn:Hload; try exact Hstop.
    destruct (minimum_score cfg <=? score) eqn:Hmin.
    2:{ destruct (IH (S i) σ) as (new & Ht & Hev).
        exists new. split; [exact Ht|apply sublist_cons, Hev]. }
    set (σ1 := if (0 <? i)%nat then sleep_uniform rnd DetailGap 5 10 σ else σ).
    assert (exists new1, trace σ1 = trace σ ++ new1 /\ details_of new1 = [])
      as (new1 & Ht1 & Hd1).
    { subst σ1. destruct (0 <? i)%nat.
      - eexists. split; reflexivity.
      - exists []. rewrite app_nil_r. split; reflexivity. }
    destruct (fetch_details_events t σ1) as (new2 & Ht2 & Hd2 & _).
    destruct (_fetch_thread_details net rnd cfg t σ1) as [res σ2]. cbn [snd] in *.
    assert (trace σ2 = trace σ ++ (new1 ++ new2)) as Ht12.
    { rewrite Ht2, Ht1, <- !app_assoc. reflexivity. }
    destruct res as [l0|e].
    + destruct (IH (S i) σ2) as (new' & Ht' & Hev').
      exists ((new1 ++ new2) ++ new'). split; [rewrite Ht', Ht12, <- !app_assoc; reflexivity|].
      rewrite !details_of_app, Hd1, Hd2. cbn [app]. apply sublist_skip, Hev'.
    + exists (new1 ++ new2). split; [exact Ht12|].
      rewrite details_of_app, Hd1, Hd2. cbn [app]. apply sublist_skip, sublist_nil_l.
Qed.

End ScrapeFacts.

Section ScrapeTheorems.

Variable net : nat -> string -> headers -> http_result.
Variable rnd : nat -> draw.
Variable cfg : config.
Variable urljoin : string -> string -> string.

Local Abbreviation scrape := (_scrape_without_api net rnd cfg urljoin).

(** Records persist through the loop of the detail fetches, with their
    listing fields. *)
Lemma details_loop_heap threads i σ l rec :
  heap σ !! l = Some rec ->
  exists rec', heap (details_loop net rnd cfg i threads σ) !! l = Some rec'
               /\ same_listing_fields rec rec'.
Proof.
  revert i σ rec. induction threads as [|t threads IH]; intros i σ rec Hl; cbn [details_loop].
  - exists rec. split; [exact Hl|apply same_listing_fields_refl].
  - assert (exists rec', heap σ !! l = Some rec' /\ same_listing_fields rec rec') as Hstop.
    { exists rec. split; [exact Hl|apply same_listing_fields_refl]. }
    destruct (load t "score" σ) as [[ | score| | ]|e]; try exact Hstop.
    destruct (minimum_score cfg <=? score); [|apply IH, Hl].
    set (σ1 := if (0 <? i)%nat then sleep_uniform rnd DetailGap 5 10 σ else σ).
    assert (heap σ1 = heap σ) as Hh1 by (subst σ1; destruct (0 <? i)%nat; reflexivity).
    rewrite <- Hh1 in Hl.
    destruct (fetch_details_heap net rnd cfg t σ1 l rec Hl) as (r1 & Hr1 & Hs1 & _).
    destruct (_fetch_thread_details net rnd cfg t σ1) as [res σ2]. cbn [snd] in *.
    destruct res as [l0|e]; [|exists r1; auto].
    destruct (IH (S i) σ2 r1 Hr1) as (r2 & Hr2 & Hs2).
    exists r2. split; [exact Hr2|]. eapply same_listing_fields_trans; eassumption.
Qed.

(** [_scrape_without_api] in three phases: the listing request, the
    parser, the loop of the detail fetches. *)
Lemma scrape_phases sub tf σ :
  exists σ2 req,
    trace σ2 = trace σ ++ req
    /\ details_of req = []
    /\ (count_events is_get req <= 3)%nat
    /\ (next_loc σ <= next_loc σ2)%positive
    /\ (forall l, (l < next_loc σ)%positive -> heap σ2 !! l = heap σ !! l)
    /\ NoDup (scrape sub tf σ).1
    /\ (forall l, In l (scrape sub tf σ).1 ->
          (next_loc σ <= l < next_loc σ2)%positive
          /\ exists rec, heap σ2 !! l = Some rec /\ listing_record sub rec)
    /\ (scrape sub tf σ).2 = details_loop net rnd cfg O (scrape sub tf σ).1 σ2.
Proof.
  unfold _scrape_without_api.
  match goal with |- context [_make_request net rnd cfg ?u 3 σ] => set (url := u) end.
  pose proof (run_trace_gets net rnd cfg url 3 (draws σ) (requests σ)) as Hg.
  pose proof (run_trace_no_details net rnd cfg url 3 (draws σ) (requests σ)) as Hd.
  destruct (_make_request net rnd cfg url 3 σ) as [o σ1] eqn:E.
  apply make_request_state in E as (Hh & Hn & Ht).
  destruct o as [page|].
  - assert (exists ls σ2,
              (if use_old_reddit cfg then _parse_old_reddit cfg page sub σ1
               else _parse_new_reddit cfg urljoin page sub σ1) = (ls, σ2)
              /\ parsed sub σ1 ls σ2) as (ls & σ2 & -> & Hp).
    { destruct (parse_listing_parsed cfg urljoin page sub σ1) as [Ho Hnw].
      destruct (use_old_reddit cfg).
      - destruct (_parse_old_reddit cfg page sub σ1) as [ls σ2]. eauto.
      - destruct (_parse_new_reddit cfg urljoin page sub σ1) as [ls σ2]. eauto. }
    destruct Hp as (Ht2 & _ & _ & Hn2 & Hh2 & Hnd & Hls). cbn [fst snd].
    exists σ2, (run_trace (make_request_run net rnd cfg url 3 (draws σ) (requests σ))).
    split; [rewrite Ht2; exact Ht|]. split; [exact Hd|]. split; [lia|].
    split; [lia|]. split; [|split; [exact Hnd|split; [|reflexivity]]].
    + intros l Hl. rewrite Hh2, Hh by lia. reflexivity.
    + intros l Hin. destruct (Hls l Hin) as [Hr Hrec]. split; [lia|exact Hrec].
  - cbn [fst snd].
    exists σ1, (run_trace (make_request_run net rnd cfg url 3 (draws σ) (requests σ))).
    split; [exact Ht|]. split; [exact Hd|]. split; [lia|]. split; [lia|].
    split; [intros l _; rewrite Hh; reflexivity|].
    split; [constructor|]. split; [intros l []|reflexivity].
Qed.

(** A record of the output whose score is below the minimum is emitted
    as the parser built it, without detail, and no detail fetch is
    issued for it. *)
Theorem scrape_below_minimum (sub tf : string) (σ : state) :
  exists new,
    trace (scrape sub tf σ).2 = trace σ ++ new
    /\ forall l, In l (scrape sub tf σ).1 ->
         exists rec,
           heap (scrape sub tf σ).2 !! l = Some rec
           /\ rec !! "subreddit" = Some (VStr sub)
           /\ (forall s, rec !! "score" = Some (VInt s) -> s < minimum_score cfg ->
                 without_detail rec
                 /\ rec !! "num_comments" = Some (VInt 0)
                 /\ ~ In l (details_of new)).
Proof.
  destruct (scrape_phases sub tf σ) as (σ2 & req & Ht & Hd & _ & _ & _ & _ & Hls & ->).
  set (threads := (scrape sub tf σ).1) in *.
  destruct (details_loop_spec net rnd cfg threads O σ2) as (Hsc & new & Htl & Hf & Hk).
  exists (req ++ new). split; [rewrite Htl, Ht, <- app_assoc; reflexivity|].
  intros l Hin. destruct (Hls l Hin) as (_ & rec0 & Hr0 & (pid & ti & sc & now & p & ->)).
  rewrite details_of_app, Hd. cbn [app].
  destruct (In_dec Pos.eq_dec l (details_of new)) as [Hfetched|Hnot].
  - destruct (Hf l Hfetched) as (s0 & Hs0 & Hle).
    unfold score_of in Hs0. rewrite Hr0 in Hs0. cbn in Hs0.
    destruct (details_loop_heap threads O σ2 l _ Hr0) as (rec & Hr & Hs).
    exists rec. split; [exact Hr|].
    assert (forall k, In k listing_keys -> rec !! k = thread_dict pid ti sub sc now p !! k) as Hkeep.
    { intros k Hlk. apply Hs. intros Hdk. cbn in Hlk, Hdk.
      repeat destruct Hlk as [<-|Hlk]; try destruct Hlk;
        repeat destruct Hdk as [Hdk|Hdk]; try discriminate Hdk; try destruct Hdk. }
    split; [rewrite Hkeep by (cbn; auto 10); reflexivity|].
    intros s Hs' Hlt. rewrite Hkeep in Hs' by (cbn; auto 10).
    cbn in Hs'. injection Hs0 as <-. injection Hs' as <-. lia.
  - exists (thread_dict pid ti sub sc now p). split; [apply Hk; assumption|].
    split; [reflexivity|]. intros s _ _. split; [apply thread_dict_without_detail|].
    split; [reflexivity|exact Hnot].
Qed.

(** Detail fetches are issued only for records of the output whose score
    reaches the minimum, at most one per record: the records for which
    the call enters [_fetch_thread_details] are distinct and come in the
    order of the output; and the whole call sends at most three requests
    for the listing and three per detail fetch. *)
Theorem scrape_detail_fetches (sub tf : string) (σ : state) :
  exists new,
    trace (scrape sub tf σ).2 = trace σ ++ new
    /\ (forall l, In l (details_of new) ->
          In l (scrape sub tf σ).1
          /\ exists rec s,
               heap (scrape sub tf σ).2 !! l = Some rec
               /\ rec !! "score" = Some (VInt s) /\ minimum_score cfg <= s)
    /\ NoDup (details_of new)
    /\ sublist (details_of new) (scrape sub tf σ).1
    /\ (length (details_of new) <= length (scrape sub tf σ).1)%nat
    /\ (count_events is_get new <= 3 * (1 + length (details_of new)))%nat.
Proof.
  destruct (scrape_phases sub tf σ) as (σ2 & req & Ht & Hd & Hg & _ & _ & Hnd & Hls & ->).
  set (threads := (scrape sub tf σ).1) in *.
  destruct (details_loop_spec net rnd cfg threads O σ2) as (Hsc & _).
  destruct (details_loop_events net rnd cfg threads O σ2) as (new & Htl & Hin & Hlen & Hgl).
  destruct (details_loop_order net rnd cfg threads O σ2) as (new' & Htl' & Hsub).
  assert (new' = new) as ->.
  { rewrite Htl in Htl'. apply app_inv_head in Htl'. congruence. }
  exists (req ++ new). split; [rewrite Htl, Ht, <- app_assoc; reflexivity|].
  rewrite details_of_app, Hd, count_events_app. cbn [app].
  split; [|split; [exact (sublist_NoDup _ _ Hnd Hsub)|split; [exact Hsub|split; [exact Hlen|lia]]]].
  intros l Hl. destruct (Hin l Hl) as (Hth & s & Hs & Hle). split; [exact Hth|].
  rewrite <- Hsc in Hs. unfold score_of in Hs.
  destruct (heap (details_loop net rnd cfg 0 threads σ2) !! l) as [rec|]; [|discriminate].
  exists rec, s. auto.
Qed.

(** The output is a list of distinct references allocated by the call,
    and the call leaves every record allocated before it as it was. *)
Theorem scrape_frame (sub tf : string) (σ : state) :
  NoDup (scrape sub tf σ).1
  /\ (forall l, In l (scrape sub tf σ).1 -> (next_loc σ <= l)%positive)
  /\ (forall l rec, (l < next_loc σ)%positive -> heap σ !! l = Some rec ->
        heap (scrape sub tf σ).2 !! l = Some rec).
Proof.
  destruct (scrape_phases sub tf σ) as (σ2 & req & Ht & Hd & Hg & _ & Hh & Hnd & Hls & ->).
  set (threads := (scrape sub tf σ).1) in *.
  split; [exact Hnd|]. split; [intros l Hin; apply (Hls l Hin)|].
  intros l rec Hlt Hl.
  destruct (details_loop_spec net rnd cfg threads O σ2) as (_ & new & Htl & _ & Hk).
  destruct (details_loop_events net rnd cfg threads O σ2) as (new' & Htl' & Hin & _).
  assert (new = new') as <-.
  { rewrite Htl in Htl'. apply app_inv_head in Htl'. exact Htl'. }
  apply Hk; [rewrite Hh by exact Hlt; exact Hl|].
  intros Hfetched. destruct (Hin l Hfetched) as (Hth & _).
  destruct (Hls l Hth) as [Hr _]. lia.
Qed.

End ScrapeTheorems.

(** ** The fields of a listing record *)

Lemma thread_dict_url i t s sc now p :
  thread_dict i t s sc now p !! "url" = Some (VStr p).
Proof. reflexivity. Qed.

Lemma thread_dict_id i t s sc now p :
  thread_dict i t s sc now p !! "id" = Some (VStr i).
Proof. reflexivity. Qed.

Lemma startswith_origin p : Py.startswith (site_origin +:+ p) "http" = true.
Proof. reflexivity. Qed.

Lemma old_thread_inv cfg sub now post rec :
  old_thread cfg sub now post = Py.Ok (Some rec) ->
  exists score p,
    old_score cfg (thing_score post) = Py.Ok score
    /\ old_permalink (thing_title post) = Some p /\ Py.truthy p = true
    /\ rec = thread_dict (Py.last_field "_" (default EmptyString (thing_id post)))
               (match thing_title post with
                | Some t => Py.strip (title_text t)
                | None => "Unknown Title"
                end) sub score now p.
Proof.
  unfold old_thread. destruct (_ || _); [discriminate|].
  destruct (old_score cfg (thing_score post)) as [score|e]; [|discriminate].
  cbn [bind]. destruct (old_permalink (thing_title post)) as [p|]; [|discriminate].
  destruct (Py.truthy p) eqn:Hp; [|discriminate].
  intros [= <-]. exists score, p. auto.
Qed.

Lemma new_thread_inv cfg sub n now post rec :
  new_thread cfg sub n now post = Py.Ok (Some rec) ->
  exists score p,
    new_score cfg post = Py.Ok score
    /\ new_permalink post = Some p /\ Py.truthy p = true
    /\ rec = thread_dict (new_post_id post n) (new_post_title post) sub score now p.
Proof.
  unfold new_thread. destruct (new_score cfg post) as [score|e]; [|discriminate].
  cbn [bind]. destruct (new_permalink post) as [p|]; [|discriminate].
  destruct (Py.truthy p) eqn:Hp; [|discriminate].
  intros [= <-]. exists score, p. auto.
Qed.

(** Legacy layout, lines 415-435: the permalink of every record that
    [_parse_old_reddit] builds starts with [http] and is also its [url];
    it is the [href] of the title link when that starts with [http], and
    otherwise the site origin followed by the [href], with a slash put
    between them when the [href] does not start with one. *)
Theorem old_thread_permalink_absolute (cfg : config) (sub : string) (now : nat)
    (post : thing) (rec : gmap string value) :
  old_thread cfg sub now post = Py.Ok (Some rec) ->
  exists href p,
    thing_title post ≫= title_href = Some href
    /\ rec !! "permalink" = Some (VStr p) /\ rec !! "url" = Some (VStr p)
    /\ Py.startswith p "http" = true
    /\ p = (if Py.startswith href "http" then href
            else if Py.startswith href "/" then site_origin +:+ href
            else site_origin +:+ "/" +:+ href).
Proof.
  intros H. apply old_thread_inv in H as (score & p & _ & Hp & Ht & ->).
  unfold old_permalink in Hp.
  destruct (thing_title post ≫= title_href) as [href|]; [|discriminate].
  exists href, p. rewrite thread_dict_permalink, thread_dict_url.
  repeat split.
  - destruct (Py.startswith href "http") eqn:Hh.
    + rewrite andb_false_r in Hp. injection Hp as <-. exact Hh.
    + destruct (Py.truthy href) eqn:Hy; cbn [andb negb] in Hp; injection Hp as <-.
      * destruct (Py.startswith href "/"); apply startswith_origin.
      * rewrite Hy in Ht. discriminate.
  - destruct (Py.startswith href "http") eqn:Hh.
    + rewrite andb_false_r in Hp. injection Hp as <-. reflexivity.
    + destruct (Py.truthy href) eqn:Hy; cbn [andb negb] in Hp; injection Hp as <-.
      * reflexivity.
      * rewrite Hy in Ht. discriminate.
Qed.

Lemma old_thread_permalink_absolute_witness :
  exists href p,
    thing_title sample_thing ≫= title_href = Some href
    /\ thread_dict "abc123" "A title" "TIFU" 4321 7
         "https://www.reddit.com/r/TIFU/comments/abc123/a_title/" !! "permalink" = Some (VStr p)
    /\ thread_dict "abc123" "A title" "TIFU" 4321 7
         "https://www.reddit.com/r/TIFU/comments/abc123/a_title/" !! "url" = Some (VStr p)
    /\ Py.startswith p "http" = true
    /\ p = (if Py.startswith href "http" then href
            else if Py.startswith href "/" then site_origin +:+ href
            else site_origin +:+ "/" +:+ href).
Proof.
  apply (old_thread_permalink_absolute default_config "TIFU" 7 sample_thing).
  reflexivity.
Defined.

(** Modern layout, lines 600-627: the permalink of every record
    built from a post element is the [href] of its comments link,
    prefixed by the site origin when the [href] starts with a slash and
    unchanged otherwise; so it starts with [http] exactly when the
    [href] starts with a slash or with [http], and a relative [href]
    such as [r/TIFU/comments/...] is emitted as it stands. *)
Theorem new_thread_permalink (cfg : config) (sub : string) (n now : nat)
    (post : post_element) (rec : gmap string value) :
  new_thread cfg sub n now post = Py.Ok (Some rec) ->
  exists href p,
    post_comments_href post = Some href
    /\ rec !! "permalink" = Some (VStr p) /\ rec !! "url" = Some (VStr p)
    /\ p = (if Py.startswith href "/" then site_origin +:+ href else href)
    /\ Py.startswith p "http" = Py.startswith href "/" || Py.startswith href "http".
Proof.
  intros H. apply new_thread_inv in H as (score & p & _ & Hp & _ & ->).
  unfold new_permalink in Hp.
  destruct (post_comments_href post) as [href|]; [|discriminate].
  injection Hp as <-. exists href. eexists.
  rewrite thread_dict_permalink, thread_dict_url.
  repeat split. destruct (Py.startswith href "/"); [apply startswith_origin|reflexivity].
Qed.

Lemma new_thread_permalink_witness :
  exists href p,
    post_comments_href sample_post = Some href
    /\ thread_dict "abc123" "A title" "TIFU" 300 7 "r/TIFU/comments/abc123/a_title/"
         !! "permalink" = Some (VStr p)
    /\ thread_dict "abc123" "A title" "TIFU" 300 7 "r/TIFU/comments/abc123/a_title/"
         !! "url" = Some (VStr p)
    /\ p = (if Py.startswith href "/" then site_origin +:+ href else href)
    /\ Py.startswith p "http" = Py.startswith href "/" || Py.startswith href "http".
Proof.
  apply (new_thread_permalink default_config "TIFU" 0 7 sample_post).
  reflexivity.
Defined.

(** ** Scores without numeric content *)

(** Legacy layout, lines 394-413: a record built from a post that
    has no score element, or whose score element has no [title]
    attribute, has the score 0, whatever [minimum_score] is and whatever
    the visible text of the element says. *)
Theorem old_thread_score_zero (cfg : config) (sub : string) (now : nat)
    (post : thing) (rec : gmap string value) :
  old_thread cfg sub now post = Py.Ok (Some rec) ->
  match thing_score post with
  | None => True
  | Some el => div_title el = None
  end ->
  rec !! "score" = Some (VInt 0).
Proof.
  intros H Hs. apply old_thread_inv in H as (score & p & Hsc & _ & _ & ->).
  rewrite thread_dict_score. f_equal. f_equal.
  unfold old_score in Hsc. destruct (thing_score post) as [el|].
  - rewrite Hs in Hsc. change (Py.int (default "0" None)) with (@Py.Ok Z 0) in Hsc.
    cbn [except_ValueError] in Hsc. congruence.
  - congruence.
Qed.

Lemma old_thread_score_zero_witness :
  thread_dict "abc123" "A title" "TIFU" 0 7
    "https://www.reddit.com/r/TIFU/comments/abc123/a_title/" !! "score" = Some (VInt 0).
Proof.
  apply (old_thread_score_zero default_config "TIFU" 7
           {| thing_class := thing_class sample_thing; thing_id := thing_id sample_thing;
              thing_title := thing_title sample_thing;
              thing_score := Some {| div_title := None; div_text := "4.3k" |} |}).
  - reflexivity.
  - reflexivity.
Defined.

Lemma str_all_lower (q : ascii -> bool) s :
  str_all (fun c => q (Py.lower_char c)) s = true -> str_all q (Py.lower s) = true.
Proof.
  induction s as [|c s IH]; [reflexivity|]. cbn [str_all Py.lower].
  intros H. apply andb_true_iff in H as [Hc Hs]. rewrite Hc, (IH Hs). reflexivity.
Qed.

Lemma str_all_filter (p q : ascii -> bool) s :
  str_all q s = true -> str_all q (str_filter p s) = true.
Proof.
  induction s as [|c s IH]; [reflexivity|]. cbn [str_all str_filter].
  intros H. apply andb_true_iff in H as [Hc Hs].
  destruct (p c); [cbn [str_all]; rewrite Hc|]; auto.
Qed.

Lemma str_filter_none p s :
  str_all (fun c => negb (p c)) s = true -> str_filter p s = EmptyString.
Proof.
  induction s as [|c s IH]; [reflexivity|]. cbn [str_all str_filter].
  intros H. apply andb_true_iff in H as [Hc Hs]. apply negb_true_iff in Hc.
  rewrite Hc. auto.
Qed.

Lemma wordlike_lower c :
  wordlike c = true ->
  negb (Py.isdigit (Py.lower_char c)) && negb (Ascii.eqb "k" (Py.lower_char c))
    && negb (Ascii.eqb "m" (Py.lower_char c)) = true.
Proof. each_char c; vm_compute; congruence. Qed.

(** The score of a text without digits and without [k] or [m]. *)
Lemma parse_score_text_wordlike cfg t :
  str_all wordlike t = true -> parse_score_text cfg (Some t) = Py.Ok (minimum_score cfg).
Proof.
  intros Ht. unfold parse_score_text, nonempty.
  destruct (Py.truthy t); [|reflexivity].
  rewrite replace_char.
  set (prepared := str_filter _ (Py.lower t)).
  assert (str_all (fun c => negb (Py.isdigit c) && negb (Ascii.eqb "k" c)
                            && negb (Ascii.eqb "m" c)) prepared = true) as Hp.
  { apply str_all_filter, str_all_lower.
    eapply str_all_impl; [|exact Ht]. apply wordlike_lower. }
  rewrite !contains_char.
  rewrite (str_all_impl _ (fun x => negb (Ascii.eqb "k" x)) _ ltac:(
             intros c Hc; apply andb_true_iff in Hc as [Hc _];
             apply andb_true_iff in Hc as [_ Hc]; exact Hc) Hp).
  rewrite (str_all_impl _ (fun x => negb (Ascii.eqb "m" x)) _ ltac:(
             intros c Hc; apply andb_true_iff in Hc as [_ Hc]; exact Hc) Hp).
  cbn [negb]. rewrite digits_only_filter, str_filter_none; [reflexivity|].
  eapply str_all_impl; [|exact Hp].
  intros c Hc. apply andb_true_iff in Hc as [Hc _].
  apply andb_true_iff in Hc as [Hc _]. exact Hc.
Qed.

(** Modern layout, lines 561-598: when none of the three approaches
    finds a score text, or the text found holds no digit and none of the
    letters [k] and [m] in either case, the score of the post is
    [minimum_score]. *)
Theorem new_score_fallback (cfg : config) (post : post_element) :
  match new_score_text post with
  | None => True
  | Some t => str_all wordlike t = true
  end ->
  new_score cfg post = Py.Ok (minimum_score cfg).
Proof.
  unfold new_score. destruct (new_score_text post) as [t|].
  - apply parse_score_text_wordlike.
  - reflexivity.
Qed.

Lemma new_score_fallback_witness :
  new_score default_config sample_post = Py.Ok (minimum_score default_config).
Proof.
  apply (new_score_fallback default_config sample_post).
  reflexivity.
Defined.

(** ** Exceptions of the legacy score *)

Lemma int_raises s e : Py.int s = Py.Raise e -> e = Py.ValueError.
Proof.
  unfold Py.int. destruct (Py.signed (Py.strip s)) as [neg body].
  destruct (Py.grouped_digits body 0 false); congruence.
Qed.

Lemma except_ValueError_Ok {A} (r : Py.res A) (a : A) e :
  except_ValueError r (Py.Ok a) = Py.Raise e -> r = Py.Raise e /\ e <> Py.ValueError.
Proof. destruct r as [x|[]]; cbn; intros H; try discriminate; split; congruence. Qed.

Lemma of_string_raises s e : F64.of_string s = Py.Raise e -> e = Py.ValueError.
Proof.
  unfold F64.of_string. destruct (Py.signed (Py.strip s)) as [neg body].
  repeat case_match; congruence.
Qed.

Lemma to_int_raises x e :
  F64.to_int x = Py.Raise e -> e = Py.OverflowError \/ e = Py.ValueError.
Proof. destruct x; cbn; intros H; try discriminate; injection H as <-; auto. Qed.

Lemma scaled_raises t k e :
  scaled t k = Py.Raise e -> e = Py.OverflowError \/ e = Py.ValueError.
Proof.
  unfold scaled. destruct (F64.of_string t) as [x|e'] eqn:E; cbn [bind].
  - apply to_int_raises.
  - intros [= <-]. right. eapply of_string_raises, E.
Qed.

Lemma old_score_raises cfg el e :
  old_score cfg el = Py.Raise e -> e = Py.OverflowError.
Proof.
  unfold old_score. destruct el as [el|]; [|discriminate].
  destruct (Py.int (default "0" (div_title el))) as [n|e'] eqn:E; [discriminate|].
  apply int_raises in E as ->. cbn [except_ValueError].
  destruct (Py.contains "k" _).
  - intros H. apply except_ValueError_Ok in H as [H Hne].
    apply scaled_raises in H as [H|H]; congruence.
  - intros H. apply except_ValueError_Ok in H as [H Hne].
    apply int_raises in H. congruence.
Qed.

(** Legacy layout, lines 381-440: the only exception that ends an
    iteration of the loop in its handler is the [OverflowError] of
    [int] on an infinite float; every [ValueError] of the score is
    caught by the three handlers of lines 401, 407 and 412. *)
Theorem old_thread_raises (cfg : config) (sub : string) (now : nat) (post : thing)
    (e : Py.exn) :
  old_thread cfg sub now post = Py.Raise e ->
  e = Py.OverflowError
  /\ exists el, thing_score post = Some el
       /\ Py.int (default "0" (div_title el)) = Py.Raise Py.ValueError
       /\ Py.contains "k" (Py.lower (Py.strip (div_text el))) = true.
Proof.
  unfold old_thread. destruct (_ || _); [discriminate|].
  destruct (old_score cfg (thing_score post)) as [score|e'] eqn:E; cbn [bind].
  - repeat case_match; discriminate.
  - intros [= <-]. split; [eapply old_score_raises, E|].
    unfold old_score in E. destruct (thing_score post) as [el|]; [|discriminate].
    exists el. split; [reflexivity|].
    destruct (Py.int (default "0" (div_title el))) as [n|e''] eqn:Ei; [discriminate|].
    apply int_raises in Ei as ->. split; [reflexivity|].
    cbn [except_ValueError] in E.
    destruct (Py.contains "k" _); [reflexivity|].
    apply except_ValueError_Ok in E as [E Hne]. apply int_raises in E. congruence.
Qed.

Lemma old_thread_raises_witness :
  Py.OverflowError = Py.OverflowError
  /\ exists el,
       Some {| div_title := Some "hidden"; div_text := "Infk" |} = Some el
       /\ Py.int (default "0" (div_title el)) = Py.Raise Py.ValueError
       /\ Py.contains "k" (Py.lower (Py.strip (div_text el))) = true.
Proof.
  apply (old_thread_raises default_config "TIFU" 7
           {| thing_class := thing_class sample_thing; thing_id := thing_id sample_thing;
              thing_title := thing_title sample_thing;
              thing_score := Some {| div_title := Some "hidden"; div_text := "Infk" |} |}).
  reflexivity.
Defined.

(** ** Identifiers *)

Lemma span_spec p s :
  str_all p (Re.span p s).1 = true /\ s = (Re.span p s).1 +:+ (Re.span p s).2.
Proof.
  induction s as [|c s [IH1 IH2]]; [split; reflexivity|].
  cbn [Re.span]. destruct (p c) eqn:E.
  - destruct (Re.span p s) as [a b]. cbn [fst snd] in *.
    split; [cbn [str_all]; rewrite E, IH1; reflexivity|].
    rewrite append_cons, <- IH2. reflexivity.
  - split; reflexivity.
Qed.

Lemma token_after_token lit s g :
  Re.token_after lit s = Some g -> str_all Re.lower_alnum g = true /\ g <> EmptyString.
Proof.
  unfold Re.token_after. destruct (Py.startswith s lit); [|discriminate].
  pose proof (span_spec Re.lower_alnum (Re.drop (String.length lit) s)) as [H _].
  destruct (Re.span _ _) as [[|c a] b]; [discriminate|].
  intros [= <-]. split; [exact H|discriminate].
Qed.

Lemma search_t3_token s g :
  Re.search_t3 s = Some g -> str_all Re.lower_alnum g = true /\ g <> EmptyString.
Proof.
  induction s as [|c s IH]; cbn [Re.search_t3].
  - destruct (Re.token_after "t3_" EmptyString) eqn:E; [|discriminate].
    intros [= <-]. eapply token_after_token, E.
  - destruct (Re.token_after "t3_" (String c s)) eqn:E; [|exact IH].
    intros [= <-]. eapply token_after_token, E.
Qed.

Lemma search_t3_or_post_token s g :
  Re.search_t3_or_post s = Some g -> str_all Re.lower_alnum g = true /\ g <> EmptyString.
Proof.
  induction s as [|c s IH]; cbn [Re.search_t3_or_post].
  - destruct (Re.token_after "t3_" EmptyString) eqn:E.
    { intros [= <-]. eapply token_after_token, E. }
    destruct (Re.token_after "post_" EmptyString) eqn:E'; [|discriminate].
    intros [= <-]. eapply token_after_token, E'.
  - destruct (Re.token_after "t3_" (String c s)) eqn:E.
    { intros [= <-]. eapply token_after_token, E. }
    destruct (Re.token_after "post_" (String c s)) eqn:E'; [|exact IH].
    intros [= <-]. eapply token_after_token, E'.
Qed.

Lemma comments_id_at_token s g :
  Re.comments_id_at s = Some g -> str_all Re.lower_alnum g = true /\ g <> EmptyString.
Proof.
  unfold Re.comments_id_at. destruct (Py.startswith s "/comments/"); [|discriminate].
  pose proof (span_spec Re.lower_alnum (Re.drop 10 s)) as [H _].
  destruct (Re.span _ _) as [[|c a] b]; [discriminate|].
  destruct (Py.startswith b "/"); [|discriminate].
  intros [= <-]. split; [exact H|discriminate].
Qed.

Lemma search_comments_id_token s g :
  Re.search_comments_id s = Some g -> str_all Re.lower_alnum g = true /\ g <> EmptyString.
Proof.
  induction s as [|c s IH]; cbn [Re.search_comments_id].
  - destruct (Re.comments_id_at EmptyString) eqn:E; [|discriminate].
    intros [= <-]. eapply comments_id_at_token, E.
  - destruct (Re.comments_id_at (String c s)) eqn:E; [|exact IH].
    intros [= <-]. eapply comments_id_at_token, E.
Qed.

Lemma first_t3_attr_token attrs g :
  first_t3_attr attrs = Some g -> str_all Re.lower_alnum g = true /\ g <> EmptyString.
Proof.
  induction attrs as [|[k [v|l]] attrs IH]; cbn [first_t3_attr]; [discriminate| |exact IH].
  destruct (Re.search_t3 v) eqn:E; [|exact IH].
  intros [= <-]. eapply search_t3_token, E.
Qed.

(** Modern layout, lines 519-546: the id of a post is never empty;
    it is a run of lower-case letters and digits taken from the [id]
    attribute, from another attribute or from the comments link, or
    else the placeholder [unknown_<n>], [n] being the number of records
    collected so far. *)
Theorem new_post_id_shape (post : post_element) (n : nat) :
  (str_all Re.lower_alnum (new_post_id post n) = true /\ new_post_id post n <> EmptyString)
  \/ (new_post_id post n = "unknown_" +:+ pretty (N.of_nat n)
      /\ first_t3_attr (post_attrs post) = None
      /\ post_comments_href post ≫= Re.search_comments_id = None).
Proof.
  unfold new_post_id.
  destruct (match get_attr "id" (post_attrs post) with
            | Some (AStr i) => if Py.truthy i then Re.search_t3_or_post i else None
            | _ => None
            end) as [g|] eqn:E1.
  { left. destruct (get_attr "id" (post_attrs post)) as [[i|]|]; try discriminate.
    destruct (Py.truthy i); [|discriminate]. eapply search_t3_or_post_token, E1. }
  destruct (first_t3_attr (post_attrs post)) as [g|] eqn:E2.
  { left. eapply first_t3_attr_token, E2. }
  destruct (post_comments_href post ≫= Re.search_comments_id) as [g|] eqn:E3.
  { left. destruct (post_comments_href post) as [h|]; [|discriminate].
    eapply search_comments_id_token, E3. }
  right. auto.
Qed.

Lemma contains_sep_cons sep c r :
  Py.contains (String sep EmptyString) (String c r)
  = Ascii.eqb sep c || Py.contains (String sep EmptyString) r.
Proof. cbn [Py.contains Py.startswith]. rewrite startswith_empty, andb_true_r. reflexivity. Qed.

Lemma last_field_spec sep s :
  Py.contains (String sep EmptyString) (Py.last_field sep s) = false
  /\ ends_with s (Py.last_field sep s).
Proof.
  induction s as [|c s [IH1 IH2]].
  - split; [reflexivity|]. exists EmptyString. reflexivity.
  - cbn [Py.last_field]. destruct (Ascii.eqb c sep) eqn:E.
    + split; [exact IH1|]. destruct IH2 as [pre Hp].
      exists (String c pre). rewrite append_cons, <- Hp. reflexivity.
    + destruct (Py.contains (String sep EmptyString) s) eqn:Ec.
      * split; [exact IH1|]. destruct IH2 as [pre Hp].
        exists (String c pre). rewrite append_cons, <- Hp. reflexivity.
      * split; [|exists EmptyString; reflexivity].
        rewrite contains_sep_cons, Ec, Ascii.eqb_sym, E. reflexivity.
Qed.

Lemma last_field_whole sep s :
  Py.contains (String sep EmptyString) s = false -> Py.last_field sep s = s.
Proof.
  destruct s as [|c s]; [reflexivity|].
  rewrite contains_sep_cons. intros H. apply orb_false_iff in H as [Hc Hs].
  cbn [Py.last_field]. rewrite Ascii.eqb_sym, Hc, Hs. reflexivity.
Qed.

Lemma last_field_after sep s :
  Py.contains (String sep EmptyString) s = true ->
  exists pre, s = pre +:+ String sep (Py.last_field sep s).
Proof.
  induction s as [|c s IH]; [discriminate|].
  rewrite contains_sep_cons. cbn [Py.last_field]. intros H.
  destruct (Py.contains (String sep EmptyString) s) eqn:Ec.
  - destruct (IH eq_refl) as [pre Hp].
    replace (if Ascii.eqb c sep then Py.last_field sep s else Py.last_field sep s)
      with (Py.last_field sep s) by (destruct (Ascii.eqb c sep); reflexivity).
    exists (String c pre). rewrite append_cons, <- Hp. reflexivity.
  - rewrite orb_false_r in H. rewrite Ascii.eqb_sym in H. rewrite H.
    apply Ascii.eqb_eq in H as ->. exists EmptyString.
    rewrite (last_field_whole _ _ Ec). reflexivity.
Qed.

(** Legacy layout, line 388: the id of every record is what follows
    the last underscore of the [id] attribute of the post: an attribute
    with an underscore is some text, an underscore and the id, and the
    id holds no underscore; the id is the whole attribute when it has no
    underscore, the empty text when the post has no [id]. *)
Theorem old_thread_id (cfg : config) (sub : string) (now : nat)
    (post : thing) (rec : gmap string value) :
  old_thread cfg sub now post = Py.Ok (Some rec) ->
  exists i, rec !! "id" = Some (VStr i)
    /\ Py.contains "_" i = false
    /\ ends_with (default EmptyString (thing_id post)) i
    /\ (Py.contains "_" (default EmptyString (thing_id post)) = true ->
        exists pre, default EmptyString (thing_id post) = pre +:+ "_" +:+ i)
    /\ (Py.contains "_" (default EmptyString (thing_id post)) = false ->
        i = default EmptyString (thing_id post))
    /\ (thing_id post = None -> i = EmptyString).
Proof.
  intros H. apply old_thread_inv in H as (score & p & _ & _ & _ & ->).
  eexists. rewrite thread_dict_id. split; [reflexivity|].
  pose proof (last_field_spec "_" (default EmptyString (thing_id post))) as [H1 H2].
  split; [exact H1|]. split; [exact H2|]. split; [|split].
  - apply last_field_after.
  - apply last_field_whole.
  - intros ->. reflexivity.
Qed.

Lemma old_thread_id_witness :
  exists i,
    thread_dict "abc123" "A title" "TIFU" 4321 7
      "https://www.reddit.com/r/TIFU/comments/abc123/a_title/" !! "id" = Some (VStr i)
    /\ Py.contains "_" i = false
    /\ ends_with (default EmptyString (thing_id sample_thing)) i
    /\ (Py.contains "_" (default EmptyString (thing_id sample_thing)) = true ->
        exists pre, default EmptyString (thing_id sample_thing) = pre +:+ "_" +:+ i)
    /\ (Py.contains "_" (default EmptyString (thing_id sample_thing)) = false ->
        i = default EmptyString (thing_id sample_thing))
    /\ (thing_id sample_thing = None -> i = EmptyString).
Proof.
  apply (old_thread_id default_config "TIFU" 7 sample_thing).
  reflexivity.
Defined.

(** ** The header profile *)

Lemma choice_in {A} (seq : list A) (dflt : A) (u : draw) :
  seq <> [] -> In (choice seq dflt u) seq.
Proof.
  intros Hne. unfold choice. apply nth_In.
  pose proof (draw_value_range u) as [H0 H1].
  set (len := Z.of_nat (length seq)).
  assert (0 < len) as Hlen.
  { subst len. destruct seq; [congruence|]. cbn [length]. lia. }
  assert (0 < inject_Z len)%Q as Hq by (rewrite <- (Zlt_Qlt 0); exact Hlen).
  assert (Qfloor (draw_value u * inject_Z len) < len) as Hf.
  { rewrite Zlt_Qlt. eapply Qle_lt_trans; [apply Qfloor_le|]. nra. }
  assert (0 <= Qfloor (draw_value u * inject_Z len)) as Hg.
  { rewrite <- (Qfloor_Z 0). apply Qfloor_resp_le. change (inject_Z 0) with 0%Q. nra. }
  subst len. lia.
Qed.

(** Every profile carries a user agent of the list of lines 119-147; a
    browser profile has fifteen fields, its language is one of the three
    of line 153 and its other fields are fixed, and the bare profile is
    the user agent alone.  A browser profile takes two draws of the
    generator, a bare one takes one. *)
Theorem request_headers_profile (rnd : nat -> draw) (cfg : config) (d : nat) :
  exists ua,
    header "User-Agent" (request_headers rnd cfg d).1 = Some ua
    /\ In ua user_agents
    /\ if use_browser_headers cfg
       then (exists lang,
               header "Accept-Language" (request_headers rnd cfg d).1 = Some lang
               /\ In lang languages)
            /\ length (request_headers rnd cfg d).1 = 15%nat
            /\ header "Referer" (request_headers rnd cfg d).1 = Some "https://www.google.com/"
            /\ header "DNT" (request_headers rnd cfg d).1 = Some "1"
            /\ (request_headers rnd cfg d).2 = (d + 2)%nat
       else (request_headers rnd cfg d).1 = [("User-Agent", ua)]
            /\ (request_headers rnd cfg d).2 = S d.
Proof.
  unfold request_headers. exists (_get_random_user_agent rnd d).
  assert (In (_get_random_user_agent rnd d) user_agents) as Hua.
  { apply choice_in. discriminate. }
  destruct (use_browser_headers cfg); cbn [fst snd].
  - split; [reflexivity|]. split; [exact Hua|]. split; [|repeat split].
    eexists. split; [reflexivity|]. apply choice_in. discriminate.
  - split; [reflexivity|]. split; [exact Hua|]. split; reflexivity.
Qed.

(** ** The iterations of the retry loop, by category *)

Lemma uniform_20_30 u : (20 <= uniform 20 30 u /\ uniform 20 30 u <= 30)%Q.
Proof. unfold uniform. pose proof (draw_value_range u). lra. Qed.

Lemma backoff_wait_range rnd a d :
  (inject_Z (2 ^ Z.of_nat a) + 5 <= backoff_wait rnd a d
   /\ backoff_wait rnd a d <= inject_Z (2 ^ Z.of_nat a) + 15)%Q.
Proof. unfold backoff_wait. pose proof (uniform_5_15 (rnd d)). lra. Qed.

Lemma pow2_ge_1 a : (1 <= inject_Z (2 ^ Z.of_nat a))%Q.
Proof. rewrite <- (Zle_Qle 1). pose proof (Z.pow_pos_nonneg 2 (Z.of_nat a)). lia. Qed.

Lemma negative_false q : negative q = false -> (0 <= q)%Q.
Proof. unfold negative. destruct (Qlt_le_dec q 0); [discriminate|auto]. Qed.

Ltac in_cases :=
  repeat match goal with
    | H : _ \/ _ |- _ => destruct H as [H|H]
    | H : False |- _ => destruct H
    | H : In _ [] |- _ => destruct H
    | H : @eq event _ _ |- _ => discriminate H
    end.

Section IterationFacts.

Variable net : nat -> string -> headers -> http_result.
Variable rnd : nat -> draw.
Variable cfg : config.
Variable url : string.
Variable hdrs : headers.

Local Abbreviation step_at := (attempt_step net rnd cfg url hdrs).
Local Abbreviation loop := (attempts_from net rnd cfg url hdrs).

Lemma step_heavy_load a d r :
  classify cfg (net r url hdrs) = HeavyLoad ->
  In (EvGet r url hdrs) (step_log (step_at a d r)) ->
  step_return (step_at a d r) = None
  /\ exists pre w,
       step_log (step_at a d r)
       = pre ++ [EvGet r url hdrs; EvSaveCookies; EvSleep HeavyLoadWait w]
       /\ (20 <= w /\ w <= 30)%Q.
Proof.
  step_cases; intros Hc Hin; try discriminate Hc; cbn in Hin; in_cases;
    (split; [reflexivity|]);
    (first [ eexists [_], _; split; [reflexivity|]
           | eexists [], _; split; [reflexivity|] ]);
    apply uniform_20_30.
Qed.

Lemma step_failure a d r :
  classify cfg (net r url hdrs) = HttpError \/ classify cfg (net r url hdrs) = NetworkFailure ->
  In (EvGet r url hdrs) (step_log (step_at a d r)) ->
  step_return (step_at a d r) = None
  /\ exists pre w,
       step_log (step_at a d r)
       = pre ++ EvGet r url hdrs
             :: match net r url hdrs with
                | Responded _ => [EvSaveCookies; EvSleep Backoff w]
                | TransportError => [EvSleep Backoff w]
                end
       /\ (inject_Z (2 ^ Z.of_nat a) + 5 <= w /\ w <= inject_Z (2 ^ Z.of_nat a) + 15)%Q.
Proof.
  step_cases; intros [Hc|Hc] Hin; try discriminate Hc; cbn in Hin; in_cases;
    (split; [reflexivity|]);
    (first [ eexists [_], _; split; [reflexivity|]
           | eexists [], _; split; [reflexivity|] ]);
    apply backoff_wait_range.
Qed.

Lemma step_success a d r page :
  step_return (step_at a d r) = Some page ->
  exists resp pre,
    net r url hdrs = Responded resp
    /\ status_code resp = 200
    /\ page = response_soup resp
    /\ step_log (step_at a d r) = pre ++ [EvGet r url hdrs; EvSaveCookies].
Proof.
  step_cases; intros H; try discriminate H; injection H as <-;
    match goal with
    | E : (status_code _ =? 200) = true |- _ => apply Z.eqb_eq in E
    end;
    eexists _, _;
    (split; [reflexivity|]); (split; [assumption|]); split; reflexivity.
Qed.

Lemma step_pause a d r :
  step_return (step_at a d r) = None ->
  exists pre k w, step_log (step_at a d r) = pre ++ [EvSleep k w] /\ (6 <= w)%Q.
Proof.
  pose proof (pow2_ge_1 a) as Hp.
  assert (forall d', 6 <= backoff_wait rnd a d')%Q as Hb.
  { intros d'. pose proof (backoff_wait_range rnd a d'). lra. }
  pose proof (fun u => proj1 (uniform_20_30 u)) as H20.
  pose proof (fun u => proj1 (uniform_30_60 u)) as H30.
  step_cases; intros H; try discriminate H;
    eexists _, _, _; (split; [rewrite ?app_assoc; reflexivity|]);
    first [ apply Hb | specialize (H20 (rnd d)); lra | specialize (H20 (rnd (S d))); lra
          | specialize (H30 (rnd d)); lra | specialize (H30 (rnd (S d))); lra ].
Qed.

Lemma step_retry_delay a d r :
  In (EvGet r url hdrs) (step_log (step_at a d r)) ->
  exists post,
    step_log (step_at a d r)
    = (if (0 <? a)%nat
       then [EvSleep RetryDelay (uniform (request_delay cfg).1 (request_delay cfg).2 (rnd d))]
       else []) ++ EvGet r url hdrs :: post
    /\ ((0 <? a)%nat = true ->
        (0 <= uniform (request_delay cfg).1 (request_delay cfg).2 (rnd d))%Q).
Proof.
  step_cases; intros Hin; cbn in Hin; in_cases;
    eexists; (split; [reflexivity|]); intros Ha; try discriminate Ha;
    apply negative_false; assumption.
Qed.

Lemma loop_returns fuel a d r page :
  run_result (loop fuel a d r) = Some page ->
  exists a' d' r' logs,
    run_log (loop fuel a d r) = logs ++ [step_log (step_at a' d' r')]
    /\ step_return (step_at a' d' r') = Some page.
Proof.
  revert a d r. induction fuel as [|fuel IH]; intros a d r; cbn [attempts_from];
    [discriminate|].
  destruct (step_return (step_at a d r)) as [p|] eqn:E; cbn [run_result run_log].
  - intros [= <-]. exists a, d, r, []. auto.
  - intros H. destruct (IH _ _ _ H) as (a' & d' & r' & logs & -> & Hr).
    exists a', d', r', (step_log (step_at a d r) :: logs). auto.
Qed.

(** An iteration that does not return is followed by the next one while
    the bound allows, and is the last one of a call that returns [None]
    when the bound is reached. *)
Lemma loop_goes_on fuel a d r i log :
  run_log (loop fuel a d r) !! i = Some log ->
  exists d' r',
    log = step_log (step_at (a + i) d' r')
    /\ (step_return (step_at (a + i) d' r') = None ->
        ((S i < fuel)%nat -> is_Some (run_log (loop fuel a d r) !! S i))
        /\ ((fuel <= S i)%nat ->
            run_result (loop fuel a d r) = None
            /\ length (run_log (loop fuel a d r)) = S i)).
Proof.
  revert a d r i. induction fuel as [|fuel IH]; intros a d r i; cbn [attempts_from];
    [cbn; discriminate|].
  destruct (step_return (step_at a d r)) as [page|] eqn:E; cbn [run_log run_result].
  - destruct i as [|i]; cbn; [|discriminate]. intros [= <-].
    exists d, r. rewrite Nat.add_0_r. split; [reflexivity|]. congruence.
  - destruct i as [|i]; cbn [lookup list_lookup].
    + intros [= <-]. exists d, r. rewrite Nat.add_0_r. split; [reflexivity|].
      intros _. split.
      * intros Hlt. destruct fuel as [|fuel]; [lia|]. cbn [attempts_from].
        destruct (step_return (step_at (S a) _ _)); cbn [run_log]; eexists; reflexivity.
      * intros Hle. destruct fuel as [|fuel]; [|lia]. cbn [attempts_from run_result run_log].
        split; reflexivity.
    + intros Hi. destruct (IH _ _ _ _ Hi) as (d' & r' & -> & Hnext).
      exists d', r'. replace (a + S i)%nat with (S a + i)%nat by lia.
      split; [reflexivity|]. intros Hn. destruct (Hnext Hn) as [Hgo Hend]. split.
      * intros Hlt. apply Hgo. lia.
      * intros Hle. destruct Hend as [-> Hl]; [lia|]. cbn [length]. rewrite Hl. auto.
Qed.

End IterationFacts.

(** A page that [_make_request] returns is the document of a response
    of status 200 that the branches of lines 207-253 classify as a
    success; the request that obtained it is the last event of the call
    but for the saving of the cookies: nothing is sent and nothing is
    slept after it. *)
Theorem make_request_returns_accepted (net : nat -> string -> headers -> http_result)
    (rnd : nat -> draw) (cfg : config) (url : string) (max_retries : Z) (d r : nat)
    (page : soup) :
  let hr := make_request_run net rnd cfg url max_retries d r in
  run_result hr.2 = Some page ->
  exists n resp pre,
    run_trace hr = pre ++ [EvGet n url hr.1; EvSaveCookies]
    /\ net n url hr.1 = Responded resp
    /\ status_code resp = 200
    /\ classify cfg (Responded resp) = Success
    /\ page = response_soup resp.
Proof.
  intros hr. subst hr. rewrite make_request_run_unfold. unfold run_trace. cbn [fst snd].
  set (h := (request_headers rnd cfg d).1). intros H.
  destruct (loop_returns _ _ _ _ _ _ _ _ _ _ H) as (a' & d' & r' & logs & -> & Hr).
  pose proof (step_return_success _ _ _ _ _ _ _ _ _ Hr) as Hc.
  destruct (step_success _ _ _ _ _ _ _ _ _ Hr) as (resp & pre & Hn & Hs & -> & Hl).
  exists r', resp, (EvHeaders h :: concat logs ++ pre).
  rewrite concat_app, Hl. cbn [concat]. rewrite app_nil_r, <- Hn.
  split; [rewrite <- app_comm_cons, <- app_assoc; reflexivity|]. auto.
Qed.

Lemma make_request_returns_accepted_witness :
  let net := always (answer 200 listing_url listing_title) in
  let hr := make_request_run net one_half default_config listing_url 3 0 0 in
  exists n resp pre,
    run_trace hr = pre ++ [EvGet n listing_url hr.1; EvSaveCookies]
    /\ net n listing_url hr.1 = Responded resp
    /\ status_code resp = 200
    /\ classify default_config (Responded resp) = Success
    /\ page_titled listing_title = response_soup resp.
Proof.
  intros net hr.
  apply (make_request_returns_accepted net one_half default_config listing_url 3 0 0).
  vm_compute. reflexivity.
Defined.

(** Whenever the final URL of a response of status 200 is the heavy-load
    page, the iteration sleeps for at least 20 and at most 30 seconds
    right after the cookies are saved and performs no backoff; the page
    is not returned, whatever its title: the next attempt is made
    whenever the bound allows one, and when the iteration is the last
    one that the bound allows, the call ends with it and returns
    [None]. *)
Theorem heavy_load_wait (net : nat -> string -> headers -> http_result) (rnd : nat -> draw)
    (cfg : config) (url : string) (max_retries : Z) (d r : nat)
    (i : nat) (log : list event) (n : nat) :
  let hr := make_request_run net rnd cfg url max_retries d r in
  run_log hr.2 !! i = Some log ->
  In (EvGet n url hr.1) log ->
  classify cfg (net n url hr.1) = HeavyLoad ->
  (exists pre w,
     log = pre ++ [EvGet n url hr.1; EvSaveCookies; EvSleep HeavyLoadWait w]
     /\ (20 <= w /\ w <= 30)%Q)
  /\ (Z.of_nat (S i) < max_retries -> is_Some (run_log hr.2 !! S i))
  /\ (max_retries <= Z.of_nat (S i) ->
      run_result hr.2 = None /\ length (run_log hr.2) = S i).
Proof.
  intros hr. subst hr. rewrite make_request_run_unfold. cbn [fst snd].
  set (h := (request_headers rnd cfg d).1). intros Hi Hin Hc.
  destruct (loop_goes_on _ _ _ _ _ _ _ _ _ _ _ Hi) as (d' & r' & -> & Hnext).
  destruct (step_get_number _ _ _ _ _ _ _ _ _ _ _ Hin) as (-> & _ & _).
  destruct (step_heavy_load _ _ _ _ _ _ _ _ Hc Hin) as (Hret & pre & w & E & Hw).
  destruct (Hnext Hret) as [Hgo Hend].
  split; [|split].
  - exists pre, w. auto.
  - intros Hlt. apply Hgo. lia.
  - intros Hle. apply Hend. lia.
Qed.

Lemma heavy_load_wait_witness :
  let net := always (answer 200 "https://www.reddit.com/static/heavy-load.html" listing_title) in
  let hr := make_request_run net one_half default_config listing_url 3 0 0 in
  let log := [EvGet 0 listing_url hr.1; EvSaveCookies; EvSleep HeavyLoadWait (50 # 2)] in
  (exists pre w,
     log = pre ++ [EvGet 0 listing_url hr.1; EvSaveCookies; EvSleep HeavyLoadWait w]
     /\ (20 <= w /\ w <= 30)%Q)
  /\ (Z.of_nat 1 < 3 -> is_Some (run_log hr.2 !! 1%nat))
  /\ (3 <= Z.of_nat 1 -> run_result hr.2 = None /\ length (run_log hr.2) = 1%nat).
Proof.
  intros net hr log.
  apply (heavy_load_wait net one_half default_config listing_url 3 0 0 0 log 0).
  - vm_compute. reflexivity.
  - left. reflexivity.
  - vm_compute. reflexivity.
Defined.

(** With a bound of one attempt, the heavy-load page ends the call after
    its wait: the call returns [None]. *)
Example heavy_load_last_attempt :
  let net := always (answer 200 "https://www.reddit.com/static/heavy-load.html" listing_title) in
  let hr := make_request_run net one_half default_config listing_url 1 0 0 in
  run_result hr.2 = None
  /\ run_log hr.2 = [[EvGet 0 listing_url hr.1; EvSaveCookies; EvSleep HeavyLoadWait (50 # 2)]].
Proof. vm_compute. split; reflexivity. Qed.

(** Whenever a request of a call fails at the transport level or
    obtains a status other than 200, the only sleep of the iteration
    after the request is the exponential backoff, of [2 ** attempt]
    plus at least 5 and at most 15 seconds; the cookies are saved before it in the second
    case only, and the next attempt is made whenever the bound allows. *)
Theorem failed_request_backoff (net : nat -> string -> headers -> http_result)
    (rnd : nat -> draw) (cfg : config) (url : string) (max_retries : Z) (d r : nat)
    (i : nat) (log : list event) (n : nat) :
  let hr := make_request_run net rnd cfg url max_retries d r in
  run_log hr.2 !! i = Some log ->
  In (EvGet n url hr.1) log ->
  classify cfg (net n url hr.1) = HttpError \/ classify cfg (net n url hr.1) = NetworkFailure ->
  (exists pre w,
     log = pre ++ EvGet n url hr.1
               :: match net n url hr.1 with
                  | Responded _ => [EvSaveCookies; EvSleep Backoff w]
                  | TransportError => [EvSleep Backoff w]
                  end
     /\ (inject_Z (2 ^ Z.of_nat i) + 5 <= w /\ w <= inject_Z (2 ^ Z.of_nat i) + 15)%Q)
  /\ (Z.of_nat (S i) < max_retries -> is_Some (run_log hr.2 !! S i)).
Proof.
  intros hr. subst hr. rewrite make_request_run_unfold. cbn [fst snd].
  set (h := (request_headers rnd cfg d).1). intros Hi Hin Hc.
  destruct (loop_log _ _ _ _ _ _ _ _ _ _ _ Hi) as (d' & r' & -> & Hnext & _).
  destruct (step_get_number _ _ _ _ _ _ _ _ _ _ _ Hin) as (-> & _ & _).
  destruct (step_failure _ _ _ _ _ _ _ _ Hc Hin) as (Hret & pre & w & E & Hw).
  cbn [Nat.add] in *. split.
  - exists pre, w. auto.
  - intros Hlt. apply Hnext; [exact Hret|lia].
Qed.

Lemma failed_request_backoff_witness :
  let net := always TransportError in
  let hr := make_request_run net one_half default_config listing_url 3 0 0 in
  let log := [EvGet 0 listing_url hr.1; EvSleep Backoff (22 # 2)] in
  (exists pre w,
     log = pre ++ EvGet 0 listing_url hr.1
               :: match net 0%nat listing_url hr.1 with
                  | Responded _ => [EvSaveCookies; EvSleep Backoff w]
                  | TransportError => [EvSleep Backoff w]
                  end
     /\ (inject_Z (2 ^ Z.of_nat 0) + 5 <= w /\ w <= inject_Z (2 ^ Z.of_nat 0) + 15)%Q)
  /\ (Z.of_nat 1 < 3 -> is_Some (run_log hr.2 !! 1%nat)).
Proof.
  intros net hr log.
  apply (failed_request_backoff net one_half default_config listing_url 3 0 0 0 log 0).
  - vm_compute. reflexivity.
  - left. reflexivity.
  - right. vm_compute. reflexivity.
Defined.

(** Every iteration of a call that does not return ends with a sleep of
    at least six seconds, the last iteration included: a call never
    sends two requests less than six seconds apart, and a call that
    fails has slept after its last request. *)
Theorem make_request_pause (net : nat -> string -> headers -> http_result)
    (rnd : nat -> draw) (cfg : config) (url : string) (max_retries : Z) (d r : nat)
    (i : nat) (log : list event) :
  let hr := make_request_run net rnd cfg url max_retries d r in
  run_log hr.2 !! i = Some log ->
  run_result hr.2 = None \/ (S i < length (run_log hr.2))%nat ->
  exists pre k w, log = pre ++ [EvSleep k w] /\ (6 <= w)%Q.
Proof.
  intros hr. subst hr. rewrite make_request_run_unfold. cbn [fst snd].
  set (h := (request_headers rnd cfg d).1). intros Hi Hor.
  destruct (loop_log _ _ _ _ _ _ _ _ _ _ _ Hi) as (d' & r' & -> & _ & Hret).
  apply step_pause.
  destruct (step_return _) as [page|] eqn:E; [|reflexivity].
  destruct (Hret page eq_refl) as [Hres Hlen]. destruct Hor as [Hn|Hlt].
  - rewrite Hres in Hn. discriminate.
  - lia.
Qed.

Lemma make_request_pause_witness :
  let net := always (answer 503 listing_url "Service Unavailable") in
  let hr := make_request_run net one_half default_config listing_url 3 0 0 in
  exists pre k w,
    [EvGet 0 listing_url hr.1; EvSaveCookies; EvSleep Backoff (22 # 2)] = pre ++ [EvSleep k w]
    /\ (6 <= w)%Q.
Proof.
  intros net hr.
  apply (make_request_pause net one_half default_config listing_url 3 0 0 0).
  - vm_compute. reflexivity.
  - left. vm_compute. reflexivity.
Defined.

(** The first request of a call is sent without any sleep before it;
    every later request of the call comes right after a sleep drawn
    from [request_delay], which is never negative when a request
    follows it and lies between the two bounds when they are in
    order. *)
Theorem make_request_retry_delay (net : nat -> string -> headers -> http_result)
    (rnd : nat -> draw) (cfg : config) (url : string) (max_retries : Z) (d r : nat)
    (i : nat) (log : list event) (n : nat) :
  let hr := make_request_run net rnd cfg url max_retries d r in
  run_log hr.2 !! i = Some log ->
  In (EvGet n url hr.1) log ->
  match i with
  | O => exists post, log = EvGet n url hr.1 :: post
  | S _ =>
      exists w post,
        log = EvSleep RetryDelay w :: EvGet n url hr.1 :: post
        /\ (0 <= w)%Q
        /\ (((request_delay cfg).1 <= (request_delay cfg).2)%Q ->
            ((request_delay cfg).1 <= w /\ w <= (request_delay cfg).2)%Q)
  end.
Proof.
  intros hr. subst hr. rewrite make_request_run_unfold. cbn [fst snd].
  set (h := (request_headers rnd cfg d).1). intros Hi Hin.
  destruct (loop_log _ _ _ _ _ _ _ _ _ _ _ Hi) as (d' & r' & -> & _ & _).
  destruct (step_get_number _ _ _ _ _ _ _ _ _ _ _ Hin) as (-> & _ & _).
  destruct (step_retry_delay _ _ _ _ _ _ _ _ Hin) as (post & E & Hw).
  cbn [Nat.add] in *. destruct i as [|i].
  - exists post. exact E.
  - eexists _, post. split; [exact E|]. split; [apply Hw; reflexivity|].
    intros Hle. unfold uniform. pose proof (draw_value_range (rnd d')) as [H0 H1].
    split; nra.
Qed.

Lemma make_request_retry_delay_witness :
  let net := always (answer 503 listing_url "Service Unavailable") in
  let hr := make_request_run net one_half default_config listing_url 3 0 0 in
  exists w post,
    [EvSleep RetryDelay (23 # 2); EvGet 1 listing_url hr.1; EvSaveCookies;
     EvSleep Backoff (24 # 2)]
    = EvSleep RetryDelay w :: EvGet 1 listing_url hr.1 :: post
    /\ (0 <= w)%Q
    /\ (((request_delay default_config).1 <= (request_delay default_config).2)%Q ->
        ((request_delay default_config).1 <= w /\ w <= (request_delay default_config).2)%Q).
Proof.
  intros net hr.
  apply (make_request_retry_delay net one_half default_config listing_url 3 0 0 1 _ 1).
  - vm_compute. reflexivity.
  - right. left. reflexivity.
Defined.

(** With a bound of zero or less the loop has no iteration: the call
    builds its header profile, sends nothing, sleeps never and returns
    [None]. *)
Theorem make_request_no_attempt (net : nat -> string -> headers -> http_result)
    (rnd : nat -> draw) (cfg : config) (url : string) (max_retries : Z) (d r : nat) :
  max_retries <= 0 ->
  let hr := make_request_run net rnd cfg url max_retries d r in
  run_result hr.2 = None
  /\ run_trace hr = [EvHeaders hr.1]
  /\ run_requests hr.2 = r.
Proof.
  intros Hm hr. subst hr. rewrite make_request_run_unfold. unfold run_trace. cbn [fst snd].
  replace (Z.to_nat max_retries) with O by lia. cbn. auto.
Qed.

Lemma make_request_no_attempt_witness :
  let hr := make_request_run (always TransportError) one_half default_config listing_url 0 0 0 in
  run_result hr.2 = None
  /\ run_trace hr = [EvHeaders hr.1]
  /\ run_requests hr.2 = O.
Proof.
  apply (make_request_no_attempt (always TransportError) one_half default_config listing_url 0 0 0).
  lia.
Defined.

(** ** The detail fields *)

Lemma omap_length_le {A B} (f : A -> option B) (l : list A) :
  (length (omap f l) <= length l)%nat.
Proof. induction l as [|x l IH]; cbn; [lia|]. destruct (f x); cbn; lia. Qed.

Lemma truthy_nonempty s : Py.truthy s = true -> s <> EmptyString.
Proof. destruct s; [discriminate|discriminate]. Qed.

Lemma comment_of_collected i el c :
  comment_of i el = Some c ->
  collected c
  /\ comment_id c = "comment_" +:+ pretty (N.of_nat i)
  /\ in_classes "deleted" (ce_class el) = false
  /\ in_classes "removed" (ce_class el) = false
  /\ exists t, first_some [ce_md el; ce_body el; ce_content el] = Some t /\ body c = Py.strip t.
Proof.
  unfold comment_of.
  destruct (in_classes "deleted" (ce_class el)); [discriminate|].
  destruct (in_classes "removed" (ce_class el)); [discriminate|]. cbn [orb].
  destruct (first_some [ce_md el; ce_body el; ce_content el]) as [t|]; [|discriminate].
  destruct (Py.truthy (Py.strip t)) eqn:Ht; [|discriminate]. cbn [negb].
  intros [= <-]. cbn [body comment_score comment_id].
  split; [split; [apply truthy_nonempty, Ht|reflexivity]|].
  split; [reflexivity|]. split; [reflexivity|]. split; [reflexivity|].
  exists t. auto.
Qed.

Lemma detail_comments_facts (cfg : config) (dv : detail_view) :
  (length (detail_comments cfg dv) <= 10)%nat
  /\ (length (detail_comments cfg dv) <= length (comment_containers cfg dv))%nat
  /\ forall c, In c (detail_comments cfg dv) ->
       collected c
       /\ exists i el,
            (i < 10)%nat
            /\ comment_containers cfg dv !! i = Some el
            /\ comment_id c = "comment_" +:+ pretty (N.of_nat i)
            /\ in_classes "deleted" (ce_class el) = false
            /\ in_classes "removed" (ce_class el) = false
            /\ exists t, first_some [ce_md el; ce_body el; ce_content el] = Some t
                         /\ body c = Py.strip t.
Proof.
  unfold detail_comments.
  pose proof (omap_length_le (fun '(i, el) => comment_of i el)
                (imap pair (take 10 (comment_containers cfg dv)))) as Hlen.
  rewrite length_imap, length_take in Hlen.
  split; [lia|]. split; [lia|].
  intros c Hc. apply list_elem_of_In, list_elem_of_omap in Hc as ([i el] & Hin & Hco).
  apply elem_of_lookup_imap_1 in Hin as (j & y & [= -> ->] & Hj).
  apply lookup_take_Some in Hj as [Hj Hlt].
  destruct (comment_of_collected _ _ _ Hco) as (H1 & H2 & H3 & H4 & H5).
  split; [exact H1|]. exists j, y. auto 10.
Qed.

(** Lines 704-775: [top_comments] holds at most ten comments; each comes
    from one of the first ten containers, one that is neither deleted
    nor removed; its body is the stripped text of the first body
    selector found and is not empty, its score is 0, and its id is
    [comment_<i>], [i] being the position of its container, so the ids
    skip the containers that are left out. *)
Theorem detail_comments_collected (cfg : config) (dv : detail_view) :
  (length (detail_comments cfg dv) <= 10)%nat
  /\ (length (detail_comments cfg dv) <= length (comment_containers cfg dv))%nat
  /\ forall c, In c (detail_comments cfg dv) ->
       collected c
       /\ exists i el,
            (i < 10)%nat
            /\ comment_containers cfg dv !! i = Some el
            /\ comment_id c = "comment_" +:+ pretty (N.of_nat i)
            /\ in_classes "deleted" (ce_class el) = false
            /\ in_classes "removed" (ce_class el) = false
            /\ exists t, first_some [ce_md el; ce_body el; ce_content el] = Some t
                         /\ body c = Py.strip t.
Proof. apply detail_comments_facts. Qed.

Lemma detail_comment_count_nonneg dv : 0 <= detail_comment_count dv.
Proof.
  unfold detail_comment_count. destruct (first_some _); [|lia].
  apply digits_value_nonneg. lia.
Qed.

Lemma detail_comments_Forall cfg dv : Forall collected (detail_comments cfg dv).
Proof.
  apply List.Forall_forall. intros c Hc.
  apply (proj2 (proj2 (detail_comments_facts cfg dv))), Hc.
Qed.

Lemma thread_dict_detail_fields i t s sc now p : detail_fields (thread_dict i t s sc now p).
Proof.
  exists EmptyString, 0, []. repeat split; try reflexivity; try lia; [cbn; lia|constructor].
Qed.

Lemma detail_fields_selftext rec s :
  detail_fields rec -> detail_fields (<["selftext" := VStr s]> rec).
Proof.
  intros (s0 & n & cs & H1 & H2 & H3 & H4 & H5 & H6). exists s, n, cs.
  rewrite lookup_insert_eq, !lookup_insert_ne by discriminate. auto 10.
Qed.

Lemma detail_fields_num_comments rec n :
  0 <= n -> detail_fields rec -> detail_fields (<["num_comments" := VInt n]> rec).
Proof.
  intros Hn (s0 & n0 & cs & H1 & H2 & H3 & H4 & H5 & H6). exists s0, n, cs.
  rewrite lookup_insert_eq, !lookup_insert_ne by discriminate. auto 10.
Qed.

Lemma detail_fields_top_comments rec cs :
  (length cs <= 10)%nat -> Forall collected cs -> detail_fields rec ->
  detail_fields (<["top_comments" := VComments cs]> rec).
Proof.
  intros Hl Hc (s0 & n0 & cs0 & H1 & H2 & H3 & H4 & H5 & H6). exists s0, n0, cs.
  rewrite lookup_insert_eq, !lookup_insert_ne by discriminate. auto 10.
Qed.

Lemma keeps_detail_fields_refl σ : keeps_detail_fields σ σ.
Proof. intros l rec Hl Hf. exists rec. auto. Qed.

Lemma keeps_detail_fields_trans a b c :
  keeps_detail_fields a b -> keeps_detail_fields b c -> keeps_detail_fields a c.
Proof.
  intros H1 H2 l rec Hl Hf. destruct (H1 l rec Hl Hf) as (r1 & Hr1 & Hf1).
  apply (H2 l r1 Hr1 Hf1).
Qed.

Lemma keeps_detail_fields_heap σ σ' : heap σ' = heap σ -> keeps_detail_fields σ σ'.
Proof. intros H l rec Hl Hf. exists rec. rewrite H. auto. Qed.

Lemma enrich_detail_fields cfg l dv σ : keeps_detail_fields σ (enrich cfg l dv σ).
Proof.
  intros l' rec Hl Hf. destruct (decide (l' = l)) as [->|Hne].
  - unfold enrich.
    pose proof (detail_comment_count_nonneg dv) as Hn.
    pose proof (proj1 (detail_comments_facts cfg dv)) as Hlen.
    pose proof (detail_comments_Forall cfg dv) as Hall.
    destruct (dv_fault dv) as [[| |]|]; rewrite ?store_heap_same, Hl;
      cbn [fmap option_fmap option_map]; eexists; (split; [reflexivity|]);
      auto using detail_fields_selftext, detail_fields_num_comments,
                 detail_fields_top_comments.
  - exists rec. rewrite enrich_other by exact Hne. auto.
Qed.

Section DetailFieldsFacts.

Variable net : nat -> string -> headers -> http_result.
Variable rnd : nat -> draw.
Variable cfg : config.

Lemma fetch_details_fields l σ :
  keeps_detail_fields σ (_fetch_thread_details net rnd cfg l σ).2.
Proof.
  unfold _fetch_thread_details. set (σ0 := log [EvDetails l] σ).
  assert (keeps_detail_fields σ σ0) as H0 by (apply keeps_detail_fields_heap; reflexivity).
  destruct (load l "permalink" σ0) as [[url| | |]|e]; cbn [snd]; try exact H0.
  destruct (if debug cfg then load l "id" σ0 else Py.Ok (VInt 0)); cbn [snd]; try exact H0.
  destruct (_make_request net rnd cfg _ 3 σ0) as [o σ1] eqn:E.
  apply make_request_state in E as (H1 & _ & _).
  assert (keeps_detail_fields σ σ1) as K1 by (apply keeps_detail_fields_heap; exact H1).
  destruct o as [page|]; cbn [snd].
  - eapply keeps_detail_fields_trans; [exact K1|apply enrich_detail_fields].
  - destruct (load l "id" σ1); exact K1.
Qed.

Lemma details_loop_fields threads i σ :
  keeps_detail_fields σ (details_loop net rnd cfg i threads σ).
Proof.
  revert i σ. induction threads as [|t threads IH]; intros i σ; cbn [details_loop].
  - apply keeps_detail_fields_refl.
  - destruct (load t "score" σ) as [[ | score| | ]|e]; try apply keeps_detail_fields_refl.
    destruct (minimum_score cfg <=? score); [|apply IH].
    set (σ1 := if (0 <? i)%nat then sleep_uniform rnd DetailGap 5 10 σ else σ).
    assert (keeps_detail_fields σ σ1) as K1.
    { apply keeps_detail_fields_heap. subst σ1. destruct (0 <? i)%nat; reflexivity. }
    pose proof (fetch_details_fields t σ1) as K2.
    destruct (_fetch_thread_details net rnd cfg t σ1) as [res σ2]. cbn [snd] in *.
    pose proof (keeps_detail_fields_trans _ _ _ K1 K2) as K12.
    destruct res as [l0|e]; [|exact K12].
    eapply keeps_detail_fields_trans; [exact K12|apply IH].
Qed.

End DetailFieldsFacts.

(** Lines 636-783: whatever the outcome of the request and wherever the
    parsing of the page stops, [_fetch_thread_details] leaves the detail
    fields of every record well formed: [selftext] a text,
    [num_comments] an integer that is not negative, [top_comments] at
    most ten comments with a body and the score 0. *)
Theorem fetch_details_well_formed (net : nat -> string -> headers -> http_result)
    (rnd : nat -> draw) (cfg : config) (thread_data : loc) (σ : state)
    (l : loc) (rec : gmap string value) :
  heap σ !! l = Some rec ->
  detail_fields rec ->
  exists rec',
    heap (_fetch_thread_details net rnd cfg thread_data σ).2 !! l = Some rec'
    /\ detail_fields rec'.
Proof. apply fetch_details_fields. Qed.

Lemma fetch_details_well_formed_witness :
  exists rec',
    heap (_fetch_thread_details (always (detail_answer sample_detail)) one_half default_config
            1%positive sample_state).2 !! 1%positive = Some rec'
    /\ detail_fields rec'.
Proof.
  apply (fetch_details_well_formed (always (detail_answer sample_detail)) one_half
           default_config 1%positive sample_state 1%positive sample_record).
  - reflexivity.
  - exists EmptyString, 0, []. repeat split; try reflexivity; try lia; [cbn; lia|constructor].
Defined.

(** On the sample page the thread has 1234 comments and eight of the
    first ten containers are kept: the deleted one and the one without a
    body are skipped, and the ids keep the positions of the containers. *)
Example sample_detail_enriched :
  detail_comment_count sample_detail = 1234
  /\ detail_selftext sample_detail = "Today I did it."
  /\ map comment_id (detail_comments default_config sample_detail)
     = ["comment_0"; "comment_3"; "comment_4"; "comment_5"; "comment_6"; "comment_7";
        "comment_8"; "comment_9"].
Proof. vm_compute. repeat split. Qed.

(** ** The requests of the assembler *)

Lemma requests_of_app a b : requests_of (a ++ b) = requests_of a ++ requests_of b.
Proof. apply omap_app. Qed.

Lemma step_requests_url net rnd cfg url hdrs a d r u :
  In u (requests_of (step_log (attempt_step net rnd cfg url hdrs a d r))) -> u = url.
Proof.
  step_cases; cbn; intros H; repeat destruct H as [H|H]; try destruct H; auto.
Qed.

Lemma loop_requests_url net rnd cfg url hdrs fuel a d r u :
  In u (requests_of (concat (run_log (attempts_from net rnd cfg url hdrs fuel a d r)))) ->
  u = url.
Proof.
  revert a d r. induction fuel as [|fuel IH]; intros a d r; cbn [attempts_from];
    [intros []|].
  destruct (step_return _); cbn [run_log concat]; rewrite requests_of_app;
    intros H; apply in_app_or in H as [H|H];
    try (eapply step_requests_url; exact H).
  - destruct H.
  - eapply IH, H.
Qed.

Lemma run_trace_requests_url net rnd cfg url m d r u :
  In u (requests_of (run_trace (make_request_run net rnd cfg url m d r))) -> u = url.
Proof.
  rewrite make_request_run_unfold. unfold run_trace. cbn [fst snd].
  change (requests_of (EvHeaders ?h :: ?t)) with (requests_of t). apply loop_requests_url.
Qed.

Lemma detail_requests_refl cfg σ : detail_requests cfg σ σ.
Proof.
  split; [auto|]. split.
  - intros l rec Hl. exists rec. split; [exact Hl|apply same_listing_fields_refl].
  - exists []. rewrite app_nil_r. split; [reflexivity|]. intros u [].
Qed.

Lemma detail_requests_quiet cfg σ σ' new :
  heap σ' = heap σ -> trace σ' = trace σ ++ new -> requests_of new = [] ->
  detail_requests cfg σ σ'.
Proof.
  intros Hh Ht Hr. split; [intros l; rewrite Hh; auto|]. split.
  - intros l rec Hl. exists rec. rewrite Hh. split; [exact Hl|apply same_listing_fields_refl].
  - exists new. split; [exact Ht|]. rewrite Hr. intros u [].
Qed.

Lemma detail_requests_trans cfg a b c :
  detail_requests cfg a b -> detail_requests cfg b c -> detail_requests cfg a c.
Proof.
  intros (Hn1 & Hs1 & new1 & Ht1 & Hu1) (Hn2 & Hs2 & new2 & Ht2 & Hu2).
  split; [auto|]. split.
  - intros l rec Hl. destruct (Hs1 l rec Hl) as (r1 & Hr1 & S1).
    destruct (Hs2 l r1 Hr1) as (r2 & Hr2 & S2). exists r2. split; [exact Hr2|].
    eapply same_listing_fields_trans; eassumption.
  - exists (new1 ++ new2). split; [rewrite Ht2, Ht1, app_assoc; reflexivity|].
    intros u Hu. rewrite requests_of_app in Hu. rewrite details_of_app.
    apply in_app_or in Hu as [Hu|Hu].
    + destruct (Hu1 u Hu) as (l & rec & p & Hl & Hr & Hp & ->).
      exists l, rec, p. split; [apply in_or_app; auto|auto].
    + destruct (Hu2 u Hu) as (l & rec & p & Hl & Hr & Hp & ->).
      destruct (heap a !! l) as [rec0|] eqn:E.
      * destruct (Hs1 l rec0 E) as (r1 & Hr1 & S1).
        assert (r1 = rec) as -> by congruence.
        exists l, rec0, p. split; [apply in_or_app; auto|].
        split; [exact E|]. split; [|reflexivity].
        rewrite <- Hp. symmetry. apply S1. cbn. intros H.
        repeat destruct H as [H|H]; try discriminate H. exact H.
      * rewrite (Hn1 l E) in Hr. discriminate.
Qed.

Section RequestFacts.

Variable net : nat -> string -> headers -> http_result.
Variable rnd : nat -> draw.
Variable cfg : config.
Variable urljoin : string -> string -> string.

Local Abbreviation scrape := (_scrape_without_api net rnd cfg urljoin).

Lemma fetch_details_requests l σ :
  detail_requests cfg σ (_fetch_thread_details net rnd cfg l σ).2.
Proof.
  split; [intros l' Hl'; apply fetch_details_absent, Hl'|]. split.
  { intros l' rec Hl'.
    destruct (fetch_details_heap net rnd cfg l σ l' rec Hl') as (rec' & Hr & Hs & _).
    exists rec'. auto. }
  unfold _fetch_thread_details. set (σ0 := log [EvDetails l] σ).
  assert (exists new, trace σ0 = trace σ ++ new
            /\ forall u, In u (requests_of new) ->
                 exists l0 rec p, In l0 (details_of new) /\ heap σ !! l0 = Some rec
                   /\ rec !! "permalink" = Some (VStr p) /\ u = detail_url cfg p) as H0.
  { exists [EvDetails l]. split; [reflexivity|]. intros u []. }
  destruct (load l "permalink" σ0) as [[url| | |]|e] eqn:Hload; cbn [snd]; try exact H0.
  destruct (if debug cfg then load l "id" σ0 else Py.Ok (VInt 0)); cbn [snd]; try exact H0.
  change (if use_old_reddit cfg && negb (Py.contains "old.reddit.com" url)
          then Py.replace url "www.reddit.com" "old.reddit.com" else url)
    with (detail_url cfg url).
  destruct (_make_request net rnd cfg (detail_url cfg url) 3 σ0) as [o σ1] eqn:E.
  apply make_request_state in E as (_ & _ & Ht).
  assert (exists new, trace σ1 = trace σ ++ new
            /\ forall u, In u (requests_of new) ->
                 exists l0 rec p, In l0 (details_of new) /\ heap σ !! l0 = Some rec
                   /\ rec !! "permalink" = Some (VStr p) /\ u = detail_url cfg p) as H1.
  { eexists. split; [rewrite Ht; cbn [trace σ0 log]; rewrite <- app_assoc; reflexivity|].
    intros u Hu. rewrite requests_of_app in Hu. apply in_app_or in Hu as [[]|Hu].
    apply run_trace_requests_url in Hu as ->.
    unfold load in Hload. change (heap σ0) with (heap σ) in Hload.
    destruct (heap σ !! l) as [rec|] eqn:Hl; [|discriminate]. cbn in Hload.
    destruct (rec !! "permalink") as [v|] eqn:Hp; [|discriminate]. injection Hload as ->.
    exists l, rec, url. split; [left; reflexivity|]. auto. }
  destruct o as [page|]; cbn [snd].
  - rewrite enrich_trace. exact H1.
  - destruct (load l "id" σ1); exact H1.
Qed.

Lemma details_loop_requests threads i σ :
  detail_requests cfg σ (details_loop net rnd cfg i threads σ).
Proof.
  revert i σ. induction threads as [|t threads IH]; intros i σ; cbn [details_loop].
  - apply detail_requests_refl.
  - destruct (load t "score" σ) as [[ | score| | ]|e]; try apply detail_requests_refl.
    destruct (minimum_score cfg <=? score); [|apply IH].
    set (σ1 := if (0 <? i)%nat then sleep_uniform rnd DetailGap 5 10 σ else σ).
    assert (detail_requests cfg σ σ1) as K1.
    { subst σ1. destruct (0 <? i)%nat; [|apply detail_requests_refl].
      eapply detail_requests_quiet; reflexivity. }
    pose proof (fetch_details_requests t σ1) as K2.
    destruct (_fetch_thread_details net rnd cfg t σ1) as [res σ2]. cbn [snd] in *.
    pose proof (detail_requests_trans _ _ _ _ K1 K2) as K12.
    destruct res as [l0|e]; [|exact K12].
    eapply detail_requests_trans; [exact K12|apply IH].
Qed.

(** [_scrape_without_api] in three phases, with the URL of the listing
    request. *)
Lemma scrape_phases_url sub tf σ :
  exists σ2 req,
    trace σ2 = trace σ ++ req
    /\ details_of req = []
    /\ (forall u, In u (requests_of req) -> u = scrape_url cfg sub tf)
    /\ (forall l, In l (scrape sub tf σ).1 ->
          exists rec, heap σ2 !! l = Some rec /\ listing_record sub rec)
    /\ (scrape sub tf σ).2 = details_loop net rnd cfg O (scrape sub tf σ).1 σ2.
Proof.
  unfold _scrape_without_api.
  change ((if use_old_reddit cfg then "https://old.reddit.com" else "https://www.reddit.com")
          +:+ "/r/" +:+ sub +:+ "/top/?t=" +:+ tf) with (scrape_url cfg sub tf).
  pose proof (run_trace_no_details net rnd cfg (scrape_url cfg sub tf) 3 (draws σ) (requests σ))
    as Hd.
  pose proof (fun u => run_trace_requests_url net rnd cfg (scrape_url cfg sub tf) 3
                         (draws σ) (requests σ) u) as Hu.
  destruct (_make_request net rnd cfg (scrape_url cfg sub tf) 3 σ) as [o σ1] eqn:E.
  apply make_request_state in E as (Hh & Hn & Ht).
  destruct o as [page|].
  - assert (exists ls σ2,
              (if use_old_reddit cfg then _parse_old_reddit cfg page sub σ1
               else _parse_new_reddit cfg urljoin page sub σ1) = (ls, σ2)
              /\ parsed sub σ1 ls σ2) as (ls & σ2 & -> & Hp).
    { destruct (parse_listing_parsed cfg urljoin page sub σ1) as [Ho Hnw].
      destruct (use_old_reddit cfg).
      - destruct (_parse_old_reddit cfg page sub σ1) as [ls σ2]. eauto.
      - destruct (_parse_new_reddit cfg urljoin page sub σ1) as [ls σ2]. eauto. }
    destruct Hp as (Ht2 & _ & _ & _ & _ & _ & Hls). cbn [fst snd].
    exists σ2, (run_trace (make_request_run net rnd cfg (scrape_url cfg sub tf) 3
                             (draws σ) (requests σ))).
    split; [rewrite Ht2; exact Ht|]. split; [exact Hd|]. split; [exact Hu|].
    split; [|reflexivity]. intros l Hin. apply (Hls l Hin).
  - cbn [fst snd].
    exists σ1, (run_trace (make_request_run net rnd cfg (scrape_url cfg sub tf) 3
                             (draws σ) (requests σ))).
    split; [exact Ht|]. split; [exact Hd|]. split; [exact Hu|].
    split; [intros l []|reflexivity].
Qed.

(** Lines 314-363 and 636-658: every request that a call of
    [_scrape_without_api] sends goes either to the listing page of the
    subreddit or to the detail page of a record of the list that the
    call returns, that is to its permalink, moved to old.reddit.com
    when the legacy site is configured; the call requests no other
    URL. *)
Theorem scrape_requests (sub tf : string) (σ : state) :
  exists new,
    trace (scrape sub tf σ).2 = trace σ ++ new
    /\ forall u, In u (requests_of new) ->
         u = scrape_url cfg sub tf
         \/ exists l rec p,
              In l (scrape sub tf σ).1
              /\ heap (scrape sub tf σ).2 !! l = Some rec
              /\ rec !! "permalink" = Some (VStr p)
              /\ u = detail_url cfg p.
Proof.
  destruct (scrape_phases_url sub tf σ) as (σ2 & req & Ht & Hd & Hu & Hls & ->).
  set (threads := (scrape sub tf σ).1) in *.
  destruct (details_loop_requests threads O σ2) as (_ & Hs & new & Htl & Hr).
  destruct (details_loop_events net rnd cfg threads O σ2) as (new' & Htl' & Hin & _).
  assert (new = new') as <-.
  { rewrite Htl in Htl'. apply app_inv_head in Htl'. exact Htl'. }
  exists (req ++ new). split; [rewrite Htl, Ht, <- app_assoc; reflexivity|].
  intros u H. rewrite requests_of_app in H. apply in_app_or in H as [H|H].
  - left. apply Hu, H.
  - right. destruct (Hr u H) as (l & rec & p & Hl & Hrec & Hp & ->).
    destruct (Hs l rec Hrec) as (rec' & Hrec' & Hsame).
    exists l, rec', p. split; [apply (Hin l Hl)|]. split; [exact Hrec'|].
    split; [|reflexivity]. rewrite <- Hp. apply Hsame. cbn. intros K.
    repeat destruct K as [K|K]; try discriminate K. exact K.
Qed.

(** Lines 314-363: every record of the list that [_scrape_without_api]
    returns has well-formed detail fields, whether a detail fetch was
    made for it or not and whatever the fetch gave: [selftext] is a
    text, [num_comments] an integer that is not negative and
    [top_comments] a list of at most ten comments, each with a body
    that is not empty and the score 0. *)
Theorem scrape_detail_fields (sub tf : string) (σ : state) :
  forall l, In l (scrape sub tf σ).1 ->
    exists rec,
      heap (scrape sub tf σ).2 !! l = Some rec
      /\ detail_fields rec.
Proof.
  destruct (scrape_phases_url sub tf σ) as (σ2 & req & _ & _ & _ & Hls & ->).
  intros l Hin. destruct (Hls l Hin) as (rec & Hr & (i & t & sc & now & p & ->)).
  apply (details_loop_fields net rnd cfg _ O σ2 l _ Hr), thread_dict_detail_fields.
Qed.

Lemma thread_dict_num_comments i t s sc now p :
  thread_dict i t s sc now p !! "num_comments" = Some (VInt 0).
Proof. reflexivity. Qed.

Lemma passes_filters_inv row :
  passes_filters cfg row = true ->
  exists s c, row !! "score" = Some (VInt s) /\ minimum_score cfg <= s
              /\ row !! "num_comments" = Some (VInt c) /\ minimum_comments cfg <= c.
Proof.
  unfold passes_filters.
  destruct (row !! "score") as [[ |s| | ]|]; try discriminate.
  destruct (row !! "num_comments") as [[ |c| | ]|]; try discriminate.
  intros H. apply andb_true_iff in H as [H1 H2]. apply Z.leb_le in H1, H2.
  exists s, c. auto.
Qed.

(** Lines 332-352 with 785-805: when [minimum_comments] is positive,
    every row that [_filter_threads] keeps of the frame built from the
    list returned by [_scrape_without_api] is a record for which a
    detail fetch was made, and it meets both thresholds; a record left
    without detail fetch, or whose fetch found no comment count, has
    [num_comments] 0 and is dropped. *)
Theorem scrape_filter_kept (sub tf : string) (σ : state) :
  0 < minimum_comments cfg ->
  exists new,
    trace (scrape sub tf σ).2 = trace σ ++ new
    /\ forall row,
         In row (_filter_threads cfg (rows_of (scrape sub tf σ).2 (scrape sub tf σ).1)) ->
         exists l s c,
           In l (scrape sub tf σ).1
           /\ heap (scrape sub tf σ).2 !! l = Some row
           /\ In l (details_of new)
           /\ row !! "score" = Some (VInt s) /\ minimum_score cfg <= s
           /\ row !! "num_comments" = Some (VInt c) /\ minimum_comments cfg <= c.
Proof.
  intros Hpos.
  destruct (scrape_phases_url sub tf σ) as (σ2 & req & Ht & Hd & _ & Hls & ->).
  set (threads := (scrape sub tf σ).1) in *.
  destruct (details_loop_spec net rnd cfg threads O σ2) as (_ & new & Htl & _ & Hk).
  exists (req ++ new). split; [rewrite Htl, Ht, <- app_assoc; reflexivity|].
  intros row Hrow. unfold _filter_threads in Hrow.
  apply list_elem_of_In, list_elem_of_filter in Hrow as [Hpass Hin].
  apply list_elem_of_omap in Hin as (l & Hl & Hrec). apply list_elem_of_In in Hl.
  destruct (passes_filters_inv row Hpass) as (s & c & Hs & Hmin & Hc & Hcom).
  exists l, s, c. split; [exact Hl|]. split; [exact Hrec|].
  split; [|auto]. rewrite details_of_app, Hd. cbn [app].
  destruct (In_dec Pos.eq_dec l (details_of new)) as [Hf|Hnf]; [exact Hf|].
  destruct (Hls l Hl) as (rec0 & Hr0 & (pid & ti & sc & now & p & ->)).
  rewrite (Hk l _ Hr0 Hnf) in Hrec. injection Hrec as <-.
  rewrite thread_dict_num_comments in Hc. injection Hc as Hc. lia.
Qed.

End RequestFacts.

Lemma scrape_filter_kept_witness :
  let out := _scrape_without_api sample_site one_half default_config String.append
               "TIFU" "month" empty_state in
  exists new,
    trace out.2 = trace empty_state ++ new
    /\ forall row,
         In row (_filter_threads default_config (rows_of out.2 out.1)) ->
         exists l s c,
           In l out.1
           /\ heap out.2 !! l = Some row
           /\ In l (details_of new)
           /\ row !! "score" = Some (VInt s) /\ minimum_score default_config <= s
           /\ row !! "num_comments" = Some (VInt c) /\ minimum_comments default_config <= c.
Proof.
  apply (scrape_filter_kept sample_site one_half default_config String.append
           "TIFU" "month" empty_state).
  reflexivity.
Defined.

Lemma scrape_detail_fields_witness :
  exists rec,
    heap (_scrape_without_api sample_site one_half default_config String.append
            "TIFU" "month" empty_state).2 !! 1%positive = Some rec
    /\ detail_fields rec.
Proof.
  apply (scrape_detail_fields sample_site one_half default_config String.append
           "TIFU" "month" empty_state 1%positive).
  vm_compute. left. reflexivity.
Defined.

(** On the sample site the call returns two records; a detail fetch is
    made for the first only, and only the first passes the filter. *)
Example sample_scrape :
  let out := _scrape_without_api sample_site one_half default_config String.append
               "TIFU" "month" empty_state in
  out.1 = [1%positive; 2%positive]
  /\ details_of (trace out.2) = [1%positive]
  /\ requests_of (trace out.2)
     = ["https://old.reddit.com/r/TIFU/top/?t=month";
        "https://old.reddit.com/r/TIFU/comments/abc123/a_title/"]
  /\ map (fun row => row !! "id") (_filter_threads default_config (rows_of out.2 out.1))
     = [Some (VStr "abc123")].
Proof. vm_compute. repeat split. Qed.

(** ** The score found in the strings of a post *)

Lemma span_nonempty p c r : p c = true -> (Re.span p (String c r)).1 <> EmptyString.
Proof. intros H. cbn [Re.span]. rewrite H. destruct (Re.span p r). discriminate. Qed.

Lemma k_or_m_suffix c :
  Re.is_k_or_m c = true ->
  exists su, String c EmptyString = suffix_text su /\ su <> NoSuffix.
Proof.
  each_char c; intros H; vm_compute in H; try discriminate H;
    first [ exists (Kilo false); split; [reflexivity|discriminate]
          | exists (Kilo true); split; [reflexivity|discriminate]
          | exists (Mega false); split; [reflexivity|discriminate]
          | exists (Mega true); split; [reflexivity|discriminate] ].
Qed.

(** Group 1 of the pattern of line 580 is a number with an optional
    fraction and an optional suffix. *)
Lemma score_token_shape c r :
  Py.isdigit c = true ->
  exists ip fp su,
    Re.score_token_at (String c r) = score_string ip fp su
    /\ str_all Py.isdigit ip = true /\ ip <> EmptyString
    /\ (forall f, fp = Some f -> str_all Py.isdigit f = true /\ f <> EmptyString).
Proof.
  intros Hc. unfold Re.score_token_at.
  pose proof (span_spec Py.isdigit (String c r)) as [Hip _].
  pose proof (span_nonempty Py.isdigit c r Hc) as Hne.
  destruct (Re.span Py.isdigit (String c r)) as [ip r1]. cbn [fst snd] in *.
  assert (exists fp,
            (forall f, fp = Some f -> str_all Py.isdigit f = true /\ f <> EmptyString)
            /\ exists r2,
                 match r1 with
                 | String "." r0 =>
                     match Re.span Py.isdigit r0 with
                     | (EmptyString, _) => (EmptyString, r1)
                     | (f, r') => (String "." f, r')
                     end
                 | _ => (EmptyString, r1)
                 end = (frac_text fp, r2)) as (fp & Hfp & r2 & ->).
  { assert (exists fp : option string,
              (forall f, fp = Some f -> str_all Py.isdigit f = true /\ f <> EmptyString)
              /\ exists r2, (EmptyString, r1) = (frac_text fp, r2)) as Hnone.
    { exists None. split; [discriminate|]. exists r1. reflexivity. }
    destruct r1 as [|x r0]; [exact Hnone|].
    destruct (Ascii.eqb_spec x ".") as [->|Hx].
    - pose proof (span_spec Py.isdigit r0) as [Hf _].
      destruct (Re.span Py.isdigit r0) as [[|y f] r']; [exact Hnone|].
      cbn [fst] in Hf. exists (Some (String y f)). split.
      + intros f0 [= <-]. split; [exact Hf|discriminate].
      + exists r'. reflexivity.
    - revert Hx Hnone. clear. each_char x; intros Hx Hnone; try exact Hnone. congruence. }
  assert (exists su, match r2 with
                     | String c0 _ => if Re.is_k_or_m c0 then String c0 EmptyString
                                      else EmptyString
                     | EmptyString => EmptyString
                     end = suffix_text su) as (su & ->).
  { destruct r2 as [|c0 r3]; [exists NoSuffix; reflexivity|].
    destruct (Re.is_k_or_m c0) eqn:E; [|exists NoSuffix; reflexivity].
    destruct (k_or_m_suffix c0 E) as (su & -> & _). exists su. reflexivity. }
  exists ip, fp, su. auto.
Qed.

Lemma search_score_shape s tok :
  Re.search_score s = Some tok ->
  exists ip fp su,
    tok = score_string ip fp su
    /\ str_all Py.isdigit ip = true /\ ip <> EmptyString
    /\ (forall f, fp = Some f -> str_all Py.isdigit f = true /\ f <> EmptyString).
Proof.
  induction s as [|c r IH]; [discriminate|]. cbn [Re.search_score].
  destruct (Py.isdigit c) eqn:Hc; [|exact IH].
  intros [= <-]. destruct (score_token_shape c r Hc) as (ip & fp & su & H).
  exists ip, fp, su. exact H.
Qed.

Lemma mul_finite_not_nan x m e : not_nan x -> not_nan (F64.mul x (S754_finite false m e)).
Proof.
  unfold not_nan. intros Hx.
  destruct x as [s|s| |s m' e']; try discriminate; [congruence|].
  cbn [F64.mul SFmul]. apply binary_round_aux_not_nan. lia.
Qed.

Lemma float_score_not_ValueError ip fp su :
  su <> NoSuffix -> float_score ip fp su <> Py.Raise Py.ValueError.
Proof.
  intros Hsu. unfold float_score. apply to_int_not_ValueError.
  assert (not_nan (F64.of_decimal false
                     (Py.digits_value (Py.digits_only ip +:+ frac_digits fp) 0)
                     (0 - Z.of_nat (String.length (frac_digits fp))))) as Hn.
  { apply of_decimal_not_nan, digits_value_nonneg. lia. }
  destruct su as [|u|u]; [congruence| |]; cbn [factor].
  - change (F64.of_Z 1000) with (S754_finite false 8796093022208000 (-43)).
    apply mul_finite_not_nan, Hn.
  - change (F64.of_Z 1000000) with (S754_finite false 8589934592000000 (-33)).
    apply mul_finite_not_nan, Hn.
Qed.

Lemma score_token_parsed cfg s tok :
  Re.search_score s = Some tok ->
  exists ip fp su,
    tok = score_string ip fp su
    /\ str_all Py.isdigit ip = true /\ ip <> EmptyString
    /\ (forall f, fp = Some f -> str_all Py.isdigit f = true /\ f <> EmptyString)
    /\ parse_score_text cfg (Some tok) =
         match su with
         | NoSuffix => Py.Ok (Py.digits_value (ip +:+ frac_digits fp) 0)
         | _ => float_score ip fp su
         end
    /\ parse_score_text cfg (Some tok) <> Py.Raise Py.ValueError.
Proof.
  intros H. destruct (search_score_shape s tok H) as (ip & fp & su & -> & Hip & Hne & Hfp).
  exists ip, fp, su. split; [reflexivity|]. split; [exact Hip|]. split; [exact Hne|].
  split; [exact Hfp|].
  assert (parse_score_text cfg (Some (score_string ip fp su)) =
          match su with
          | NoSuffix => Py.Ok (Py.digits_value (ip +:+ frac_digits fp) 0)
          | _ => float_score ip fp su
          end) as E.
  { rewrite parse_score_text_shape.
    - rewrite (digits_only_digits ip Hip). reflexivity.
    - eapply str_all_impl; [|exact Hip]. intros c Hc. unfold digit_or_comma. rewrite Hc.
      reflexivity.
    - rewrite (digits_only_digits ip Hip). exact Hne.
    - intros f Hf. apply (Hfp f Hf). }
  split; [exact E|]. rewrite E.
  destruct su as [|u|u]; [discriminate| |]; apply float_score_not_ValueError; discriminate.
Qed.

(** Modern layout, approach 3 (lines 578-598): when the score text of a
    post is found in its strings, the text is a number with an optional
    fraction and an optional [k] or [m] in either case; its parsing
    never meets the [ValueError] of [float] or [int] and never falls
    back to [minimum_score]: without a suffix the score is the integer
    spelt by the digits, with one it is the truncated binary64 product
    (which can raise only the [OverflowError] of an infinite float). *)
Theorem new_score_from_strings (cfg : config) (post : post_element) (tok : string) :
  nonempty (Py.strip <$> post_span_score post) = None ->
  nonempty (Py.strip <$> post_class_score post) = None ->
  head (omap Re.search_score (post_strings post)) = Some tok ->
  exists ip fp su,
    tok = score_string ip fp su
    /\ str_all Py.isdigit ip = true /\ ip <> EmptyString
    /\ (forall f, fp = Some f -> str_all Py.isdigit f = true /\ f <> EmptyString)
    /\ new_score cfg post =
         match su with
         | NoSuffix => Py.Ok (Py.digits_value (ip +:+ frac_digits fp) 0)
         | _ => float_score ip fp su
         end
    /\ new_score cfg post <> Py.Raise Py.ValueError.
Proof.
  intros H1 H2 H3. unfold new_score, new_score_text. rewrite H1, H2, H3.
  destruct (omap Re.search_score (post_strings post)) as [|t rest] eqn:E; [discriminate|].
  injection H3 as ->.
  assert (exists s, Re.search_score s = Some tok) as [s Hs].
  { assert (tok ∈ omap Re.search_score (post_strings post)) as Hin
      by (rewrite E; left).
    apply list_elem_of_omap in Hin as (s & _ & Hs). exists s. exact Hs. }
  apply (score_token_parsed cfg s tok Hs).
Qed.

Lemma new_score_from_strings_witness :
  exists ip fp su,
    "1.2K" = score_string ip fp su
    /\ str_all Py.isdigit ip = true /\ ip <> EmptyString
    /\ (forall f, fp = Some f -> str_all Py.isdigit f = true /\ f <> EmptyString)
    /\ new_score default_config sample_post_strings =
         match su with
         | NoSuffix => Py.Ok (Py.digits_value (ip +:+ frac_digits fp) 0)
         | _ => float_score ip fp su
         end
    /\ new_score default_config sample_post_strings <> Py.Raise Py.ValueError.
Proof.
  apply (new_score_from_strings default_config sample_post_strings "1.2K"); reflexivity.
Defined.

(** ** The generic scan of the links *)

Section LinkScan.

Variable cfg : config.
Variable urljoin : string -> string -> string.

Lemma links_loop_used sub links processed n σ :
  exists used,
    sublist used links
    /\ NoDup (map link_href used)
    /\ (forall a, In a used -> link_href a ∉ processed)
    /\ Forall2 (scanned cfg urljoin sub (links_loop cfg urljoin sub links processed n σ).2)
               (links_loop cfg urljoin sub links processed n σ).1 used.
Proof.
  revert processed n σ. induction links as [|a rest IH]; intros processed n σ.
  - exists []. cbn [links_loop fst snd]. repeat split; try constructor. intros a [].
  - cbn [links_loop].
    destruct (Py.truthy (link_href a) && Py.contains "/comments/" (link_href a)
              && bool_decide (link_href a ∉ processed)) eqn:Hsel.
    2:{ destruct (IH processed n σ) as (used & Hsub & Hnd & Hnp & Hall).
        exists used. split; [apply sublist_cons, Hsub|]. auto. }
    apply andb_true_iff in Hsel as [Hsel Hnew]. apply andb_true_iff in Hsel as [_ Hcom].
    apply bool_decide_eq_true in Hnew.
    fold (link_title a). fold (link_url urljoin a).
    destruct (Py.truthy (link_title a) && (5 <? Py.len (link_title a))) eqn:Htitle.
    2:{ destruct (IH ({[link_href a]} ∪ processed) n σ) as (used & Hsub & Hnd & Hnp & Hall).
        exists used. split; [apply sublist_cons, Hsub|]. split; [exact Hnd|].
        split; [|exact Hall]. intros b Hb Hin. apply (Hnp b Hb). set_solver. }
    apply andb_true_iff in Htitle as [_ Hlen]. apply Z.ltb_lt in Hlen.
    set (d := thread_dict _ (link_title a) sub (minimum_score cfg) (clock σ)
                (link_url urljoin a)).
    change (let '(l, σ1) := alloc d σ in _)
      with (let '(ls, σ2) := links_loop cfg urljoin sub rest ({[link_href a]} ∪ processed)
                               (S n) (alloc d σ).2 in
            ((alloc d σ).1 :: ls, σ2)).
    destruct (IH ({[link_href a]} ∪ processed) (S n) (alloc d σ).2)
      as (used & Hsub & Hnd & Hnp & Hall).
    pose proof (links_loop_parsed cfg urljoin sub rest ({[link_href a]} ∪ processed) (S n)
                  (alloc d σ).2) as Hp.
    destruct (links_loop cfg urljoin sub rest ({[link_href a]} ∪ processed) (S n)
                (alloc d σ).2) as [ls σ2]. cbn [fst snd] in *.
    exists (a :: used). split; [apply sublist_skip, Hsub|]. split; [|split].
    + cbn [map]. apply NoDup_cons. split; [|exact Hnd].
      intros Hin. apply list_elem_of_In, in_map_iff in Hin as (b & Hb & Hbin).
      apply (Hnp b Hbin). rewrite Hb. set_solver.
    + intros b [<-|Hb]; [exact Hnew|]. intros Hin. apply (Hnp b Hb). set_solver.
    + constructor; [|exact Hall].
      destruct Hp as (_ & _ & _ & _ & Hkeep & _).
      eexists _, (clock σ). split; [|auto].
      rewrite Hkeep by (unfold alloc; cbn [fst snd next_loc]; lia).
      unfold alloc. cbn [fst snd heap]. apply lookup_insert_eq.
Qed.

End LinkScan.

(** Modern layout, lines 478-514: when no approach finds a post
    element, the records come from the scan of the comment links, one
    record per link used and in the order of the page; no two records
    come from links with the same [href]; each has the stripped text of
    its link (or of the heading inside it) as title, of more than five
    characters, the score [minimum_score], and as permalink the [href]
    when it starts with [http] and [urljoin] of the site origin and the
    [href] otherwise. *)
Theorem link_scan_records (cfg : config) (urljoin : string -> string -> string)
    (page : soup) (sub : string) (σ : state) :
  post_elements page = [] ->
  let out := _parse_new_reddit cfg urljoin page sub σ in
  exists used,
    sublist used (soup_comment_links page)
    /\ NoDup (map link_href used)
    /\ Forall2 (scanned cfg urljoin sub out.2) out.1 used.
Proof.
  intros He out. subst out. unfold _parse_new_reddit. rewrite He.
  destruct (links_loop_used cfg urljoin sub (soup_comment_links page) ∅ O σ)
    as (used & Hsub & Hnd & _ & Hall).
  exists used. auto.
Qed.

Lemma link_scan_records_witness :
  let out := _parse_new_reddit default_config String.append sample_links "TIFU" empty_state in
  exists used,
    sublist used (soup_comment_links sample_links)
    /\ NoDup (map link_href used)
    /\ Forall2 (scanned default_config String.append "TIFU" out.2) out.1 used.
Proof.
  apply (link_scan_records default_config String.append sample_links "TIFU" empty_state).
  reflexivity.
Defined.

(** On the sample page two records are built: the second link repeats
    the first target, and the third one, whose title is too short, still
    marks its target as processed, so the fourth link is not used. *)
Example sample_links_scanned :
  let out := _parse_new_reddit default_config String.append sample_links "TIFU" empty_state in
  map (fun l => heap out.2 !! l ≫= (.!! "title")) out.1
  = [Some (VStr "A long enough title")]
  /\ map (fun l => heap out.2 !! l ≫= (.!! "permalink")) out.1
     = [Some (VStr "https://www.reddit.com/r/TIFU/comments/abc123/a_title/")].
Proof. vm_compute. split; reflexivity. Qed.

(** ** Requests that fail *)

Lemma make_request_fails net rnd cfg url σ :
  (forall n h, classify cfg (net n url h) <> Success) ->
  (_make_request net rnd cfg url 3 σ).1 = None.
Proof.
  intros Hno. unfold _make_request. cbn [fst]. rewrite make_request_run_unfold. cbn [snd].
  apply loop_exhausted. intros n. apply Hno.
Qed.

(** Lines 329-332: when no answer to the listing request is accepted,
    [_scrape_without_api] returns the empty list; it creates no record,
    changes none, enters no detail fetch, and has sent requests to the
    listing URL only. *)
Theorem scrape_listing_failure (net : nat -> string -> headers -> http_result)
    (rnd : nat -> draw) (cfg : config) (urljoin : string -> string -> string)
    (sub tf : string) (σ : state) :
  (forall n h, classify cfg (net n (scrape_url cfg sub tf) h) <> Success) ->
  let out := _scrape_without_api net rnd cfg urljoin sub tf σ in
  out.1 = []
  /\ heap out.2 = heap σ /\ next_loc out.2 = next_loc σ
  /\ exists new,
       trace out.2 = trace σ ++ new
       /\ details_of new = []
       /\ (count_events is_get new <= 3)%nat
       /\ forall u, In u (requests_of new) -> u = scrape_url cfg sub tf.
Proof.
  intros Hno out. subst out. unfold _scrape_without_api.
  change ((if use_old_reddit cfg then "https://old.reddit.com" else "https://www.reddit.com")
          +:+ "/r/" +:+ sub +:+ "/top/?t=" +:+ tf) with (scrape_url cfg sub tf).
  pose proof (make_request_fails net rnd cfg (scrape_url cfg sub tf) σ Hno) as Hf.
  pose proof (run_trace_no_details net rnd cfg (scrape_url cfg sub tf) 3 (draws σ) (requests σ))
    as Hd.
  pose proof (run_trace_gets net rnd cfg (scrape_url cfg sub tf) 3 (draws σ) (requests σ))
    as Hg.
  pose proof (fun u => run_trace_requests_url net rnd cfg (scrape_url cfg sub tf) 3
                         (draws σ) (requests σ) u) as Hu.
  destruct (_make_request net rnd cfg (scrape_url cfg sub tf) 3 σ) as [o σ1] eqn:E.
  cbn [fst] in Hf. subst o. apply make_request_state in E as (Hh & Hn & Ht).
  cbn [fst snd]. split; [reflexivity|]. split; [exact Hh|]. split; [exact Hn|].
  eexists. split; [exact Ht|]. split; [exact Hd|]. split; [lia|exact Hu].
Qed.

Lemma scrape_listing_failure_witness :
  let out := _scrape_without_api (always (answer 200 listing_url "Example Domain")) one_half
               default_config String.append "TIFU" "month" empty_state in
  out.1 = []
  /\ heap out.2 = heap empty_state /\ next_loc out.2 = next_loc empty_state
  /\ exists new,
       trace out.2 = trace empty_state ++ new
       /\ details_of new = []
       /\ (count_events is_get new <= 3)%nat
       /\ forall u, In u (requests_of new) -> u = scrape_url default_config "TIFU" "month".
Proof.
  apply (scrape_listing_failure (always (answer 200 listing_url "Example Domain")) one_half
           default_config String.append "TIFU" "month" empty_state).
  intros n h. vm_compute. discriminate.
Defined.

(** Lines 646-658: when no answer to the detail request is accepted,
    [_fetch_thread_details] returns the record that it was given and
    leaves every record, this one included, exactly as it was. *)
Theorem fetch_details_failure (net : nat -> string -> headers -> http_result)
    (rnd : nat -> draw) (cfg : config) (thread_data : loc) (σ : state)
    (rec : gmap string value) (url : string) (id : value) :
  heap σ !! thread_data = Some rec ->
  rec !! "permalink" = Some (VStr url) ->
  rec !! "id" = Some id ->
  (forall n h, classify cfg (net n (detail_url cfg url) h) <> Success) ->
  let out := _fetch_thread_details net rnd cfg thread_data σ in
  out.1 = Py.Ok thread_data
  /\ heap out.2 = heap σ
  /\ exists new,
       trace out.2 = trace σ ++ EvDetails thread_data :: new
       /\ forall u, In u (requests_of new) -> u = detail_url cfg url.
Proof.
  intros Hl Hp Hid Hno out. subst out. unfold _fetch_thread_details.
  set (σ0 := log [EvDetails thread_data] σ).
  assert (forall σ', heap σ' = heap σ -> load thread_data "permalink" σ' = Py.Ok (VStr url))
    as Lp.
  { intros σ' H. unfold load. rewrite H, Hl. cbn. rewrite Hp. reflexivity. }
  assert (forall σ', heap σ' = heap σ -> load thread_data "id" σ' = Py.Ok id) as Li.
  { intros σ' H. unfold load. rewrite H, Hl. cbn. rewrite Hid. reflexivity. }
  rewrite (Lp σ0 eq_refl).
  assert ((if debug cfg then load thread_data "id" σ0 else Py.Ok (VInt 0))
          = Py.Ok (if debug cfg then id else VInt 0)) as ->.
  { destruct (debug cfg); [apply Li|]; reflexivity. }
  change (if use_old_reddit cfg && negb (Py.contains "old.reddit.com" url)
          then Py.replace url "www.reddit.com" "old.reddit.com" else url)
    with (detail_url cfg url).
  pose proof (make_request_fails net rnd cfg (detail_url cfg url) σ0 Hno) as Hf.
  pose proof (fun u => run_trace_requests_url net rnd cfg (detail_url cfg url) 3
                         (draws σ0) (requests σ0) u) as Hu.
  destruct (_make_request net rnd cfg (detail_url cfg url) 3 σ0) as [o σ1] eqn:E.
  cbn [fst] in Hf. subst o. apply make_request_state in E as (Hh & _ & Ht).
  rewrite (Li σ1 Hh). cbn [fst snd]. split; [reflexivity|]. split; [exact Hh|].
  eexists. split; [|exact Hu]. rewrite Ht. cbn [trace σ0 log].
  rewrite <- app_assoc. reflexivity.
Qed.

Lemma fetch_details_failure_witness :
  let out := _fetch_thread_details (always TransportError) one_half default_config
               1%positive sample_state in
  out.1 = Py.Ok 1%positive
  /\ heap out.2 = heap sample_state
  /\ exists new,
       trace out.2 = trace sample_state ++ EvDetails 1%positive :: new
       /\ forall u, In u (requests_of new) ->
            u = detail_url default_config
                  "https://www.reddit.com/r/TIFU/comments/abc123/a_title/".
Proof.
  apply (fetch_details_failure (always TransportError) one_half default_config 1%positive
           sample_state sample_record
           "https://www.reddit.com/r/TIFU/comments/abc123/a_title/" (VStr "abc123")).
  - reflexivity.
  - reflexivity.
  - reflexivity.
  - intros n h. vm_compute. discriminate.
Defined.

(** ** The records of a listing page *)

Lemma alloc_kept d σ ls σ' sub :
  parsed sub (alloc d σ).2 ls σ' -> heap σ' !! (alloc d σ).1 = Some d.
Proof.
  intros (_ & _ & _ & _ & Hkeep & _).
  rewrite Hkeep by (unfold alloc; cbn [fst snd next_loc]; lia).
  unfold alloc. cbn [fst snd heap]. apply lookup_insert_eq.
Qed.

Section ListingRecords.

Variable cfg : config.
Variable urljoin : string -> string -> string.

Lemma old_posts_loop_records sub posts σ :
  exists used,
    sublist used posts
    /\ Forall2 (from_thing cfg sub (old_posts_loop cfg sub posts σ).2)
               (old_posts_loop cfg sub posts σ).1 used.
Proof.
  revert σ. induction posts as [|post rest IH]; intros σ.
  - exists []. cbn [old_posts_loop fst snd]. split; constructor.
  - cbn [old_posts_loop].
    assert (exists used,
              sublist used (post :: rest)
              /\ Forall2 (from_thing cfg sub (old_posts_loop cfg sub rest σ).2)
                         (old_posts_loop cfg sub rest σ).1 used) as Hskip.
    { destruct (IH σ) as (used & Hsub & Hall). exists used.
      split; [apply sublist_cons, Hsub|exact Hall]. }
    destruct (old_thread cfg sub (clock σ) post) as [[d|]|e] eqn:E; try exact Hskip.
    change (let '(l, σ1) := alloc d σ in _)
      with (let '(ls, σ2) := old_posts_loop cfg sub rest (alloc d σ).2 in
            ((alloc d σ).1 :: ls, σ2)).
    destruct (IH (alloc d σ).2) as (used & Hsub & Hall).
    pose proof (old_posts_loop_parsed cfg sub rest (alloc d σ).2) as Hp.
    destruct (old_posts_loop cfg sub rest (alloc d σ).2) as [ls σ2]. cbn [fst snd] in *.
    exists (post :: used). split; [apply sublist_skip, Hsub|].
    constructor; [|exact Hall].
    exists (clock σ), d. split; [eapply alloc_kept, Hp|exact E].
Qed.

Lemma new_posts_loop_records sub posts n σ :
  exists used,
    sublist used posts
    /\ Forall2 (from_post cfg sub (n + length posts)
                  (new_posts_loop cfg sub posts n σ).2)
               (new_posts_loop cfg sub posts n σ).1 used.
Proof.
  revert n σ. induction posts as [|post rest IH]; intros n σ.
  - exists []. cbn [new_posts_loop fst snd]. split; constructor.
  - cbn [new_posts_loop length].
    assert (forall m σ' ls used,
              Forall2 (from_post cfg sub (m + length rest) σ') ls used ->
              (m <= S n)%nat ->
              Forall2 (from_post cfg sub (n + S (length rest)) σ') ls used) as Hweak.
    { intros m σ' ls used Hall Hm. eapply Forall2_impl; [exact Hall|].
      intros l p (k & now & rec & Hk & Hr & Ht). exists k, now, rec.
      split; [lia|auto]. }
    assert (exists used,
              sublist used (post :: rest)
              /\ Forall2 (from_post cfg sub (n + S (length rest))
                            (new_posts_loop cfg sub rest n σ).2)
                         (new_posts_loop cfg sub rest n σ).1 used) as Hskip.
    { destruct (IH n σ) as (used & Hsub & Hall). exists used.
      split; [apply sublist_cons, Hsub|]. eapply Hweak; [exact Hall|lia]. }
    destruct (new_thread cfg sub n (clock σ) post) as [[d|]|e] eqn:E; try exact Hskip.
    change (let '(l, σ1) := alloc d σ in _)
      with (let '(ls, σ2) := new_posts_loop cfg sub rest (S n) (alloc d σ).2 in
            ((alloc d σ).1 :: ls, σ2)).
    destruct (IH (S n) (alloc d σ).2) as (used & Hsub & Hall).
    pose proof (new_posts_loop_parsed cfg sub rest (S n) (alloc d σ).2) as Hp.
    destruct (new_posts_loop cfg sub rest (S n) (alloc d σ).2) as [ls σ2]. cbn [fst snd] in *.
    exists (post :: used). split; [apply sublist_skip, Hsub|].
    constructor; [|eapply Hweak; [exact Hall|lia]].
    exists n, (clock σ), d. split; [lia|]. split; [eapply alloc_kept, Hp|exact E].
Qed.

End ListingRecords.

(** Lines 376-442: the list that [_parse_old_reddit] returns holds, in
    the order of the page, one record for each post of a sublist of the
    [div]s of class [thing]: the record that the body of the loop
    builds for that post, still in the heap as it was built; so the
    list is never longer than the page has posts. *)
Theorem parse_old_reddit_records (cfg : config) (page : soup) (sub : string) (σ : state) :
  exists used,
    sublist used (soup_things page)
    /\ Forall2 (from_thing cfg sub (_parse_old_reddit cfg page sub σ).2)
               (_parse_old_reddit cfg page sub σ).1 used
    /\ (length (_parse_old_reddit cfg page sub σ).1 <= length (soup_things page))%nat.
Proof.
  unfold _parse_old_reddit.
  destruct (old_posts_loop_records cfg sub (soup_things page) σ) as (used & Hsub & Hall).
  exists used. split; [exact Hsub|]. split; [exact Hall|].
  rewrite (Forall2_length _ _ _ Hall). apply sublist_length, Hsub.
Qed.

(** Lines 459-476 and 516-634: when an approach finds post elements,
    the list that [_parse_new_reddit] returns holds, in the order of
    the page, one record for each element of a sublist of the elements
    of the first approach that finds any: the record that the body of
    the loop builds for that element, with fewer earlier records than
    the page has elements; the links of the page are not scanned. *)
Theorem parse_new_reddit_records (cfg : config) (urljoin : string -> string -> string)
    (page : soup) (sub : string) (σ : state) :
  post_elements page <> [] ->
  exists used,
    sublist used (post_elements page)
    /\ Forall2 (from_post cfg sub (length (post_elements page))
                  (_parse_new_reddit cfg urljoin page sub σ).2)
               (_parse_new_reddit cfg urljoin page sub σ).1 used
    /\ (length (_parse_new_reddit cfg urljoin page sub σ).1
        <= length (post_elements page))%nat.
Proof.
  intros Hne. unfold _parse_new_reddit.
  destruct (post_elements page) as [|p ps] eqn:E; [congruence|].
  destruct (new_posts_loop_records cfg sub (p :: ps) O σ) as (used & Hsub & Hall).
  exists used. split; [exact Hsub|]. split; [exact Hall|].
  rewrite (Forall2_length _ _ _ Hall). apply sublist_length, Hsub.
Qed.

Lemma parse_new_reddit_records_witness :
  exists used,
    sublist used (post_elements sample_posts)
    /\ Forall2 (from_post default_config "TIFU" (length (post_elements sample_posts))
                  (_parse_new_reddit default_config String.append sample_posts "TIFU"
                     empty_state).2)
               (_parse_new_reddit default_config String.append sample_posts "TIFU"
                  empty_state).1 used
    /\ (length (_parse_new_reddit default_config String.append sample_posts "TIFU"
                  empty_state).1
        <= length (post_elements sample_posts))%nat.
Proof.
  apply (parse_new_reddit_records default_config String.append sample_posts "TIFU" empty_state).
  discriminate.
Defined.

(** On the sample page the element without comments link gives no
    record, and the other one gives the record of id [abc123] and score
    4300. *)
Example sample_posts_parsed :
  let out := _parse_new_reddit default_config String.append sample_posts "TIFU" empty_state in
  map (fun l => heap out.2 !! l ≫= (.!! "id")) out.1 = [Some (VStr "abc123")]
  /\ map (fun l => heap out.2 !! l ≫= (.!! "score")) out.1 = [Some (VInt 4300)].
Proof. vm_compute. split; reflexivity. Qed.

(** ** Accepted answers *)

Lemma classify_success cfg resp :
  classify cfg (Responded resp) = Success ->
  (status_code resp =? 200) = true
  /\ is_heavy_load (response_url resp) = false
  /\ is_challenge (page_title (response_soup resp)) = false
  /\ is_reddit_page cfg (page_title (response_soup resp)) = true.
Proof.
  unfold classify.
  destruct (status_code resp =? 200); [|discriminate].
  destruct (is_heavy_load (response_url resp)); [discriminate|].
  destruct (is_challenge (page_title (response_soup resp))); [discriminate|].
  destruct (is_reddit_page cfg (page_title (response_soup resp))); [auto|discriminate].
Qed.

Lemma step_accepts net rnd cfg url hdrs a d r :
  classify cfg (net r url hdrs) = Success ->
  In (EvGet r url hdrs) (step_log (attempt_step net rnd cfg url hdrs a d r)) ->
  exists resp,
    net r url hdrs = Responded resp
    /\ step_return (attempt_step net rnd cfg url hdrs a d r) = Some (response_soup resp).
Proof.
  step_cases; intros Hc Hin; try discriminate Hc; cbn in Hin; in_cases;
    eexists; split; reflexivity.
Qed.

Lemma step_first_success net rnd cfg url hdrs d r resp :
  net r url hdrs = Responded resp ->
  classify cfg (Responded resp) = Success ->
  attempt_step net rnd cfg url hdrs 0 d r
  = {| step_log := [EvGet r url hdrs; EvSaveCookies];
       step_return := Some (response_soup resp);
       step_draws := d; step_requests := S r |}.
Proof.
  intros Hn Hc. apply classify_success in Hc as (H1 & H2 & H3 & H4).
  unfold attempt_step. cbn [Nat.ltb Nat.leb andb]. rewrite Hn, H1, H2, H3, H4. reflexivity.
Qed.

(** Lines 189-253: the first answer of a call that the branches accept
    ends the call: whenever a request of [_make_request] obtains a
    response of status 200 that is neither the heavy-load page nor a
    challenge page and whose title passes the test of the Reddit page,
    the call returns the document of that response and makes no
    further iteration. *)
Theorem make_request_accepts_first (net : nat -> string -> headers -> http_result)
    (rnd : nat -> draw) (cfg : config) (url : string) (max_retries : Z) (d r : nat)
    (i : nat) (log : list event) (n : nat) :
  let hr := make_request_run net rnd cfg url max_retries d r in
  run_log hr.2 !! i = Some log ->
  In (EvGet n url hr.1) log ->
  classify cfg (net n url hr.1) = Success ->
  exists resp,
    net n url hr.1 = Responded resp
    /\ run_result hr.2 = Some (response_soup resp)
    /\ length (run_log hr.2) = S i.
Proof.
  intros hr. subst hr. rewrite make_request_run_unfold. cbn [fst snd].
  set (h := (request_headers rnd cfg d).1). intros Hi Hin Hc.
  destruct (loop_log _ _ _ _ _ _ _ _ _ _ _ Hi) as (d' & r' & -> & _ & Hret).
  destruct (step_get_number _ _ _ _ _ _ _ _ _ _ _ Hin) as (-> & _ & _).
  destruct (step_accepts _ _ _ _ _ _ _ _ Hc Hin) as (resp & Hn & Hs).
  exists resp. split; [exact Hn|]. apply Hret, Hs.
Qed.

Lemma make_request_accepts_first_witness :
  let net := always (answer 200 listing_url listing_title) in
  let hr := make_request_run net one_half default_config listing_url 3 0 0 in
  exists resp,
    net 0%nat listing_url hr.1 = Responded resp
    /\ run_result hr.2 = Some (response_soup resp)
    /\ length (run_log hr.2) = 1%nat.
Proof.
  intros net hr.
  apply (make_request_accepts_first net one_half default_config listing_url 3 0 0 0
           [EvGet 0 listing_url hr.1; EvSaveCookies] 0).
  - vm_compute. reflexivity.
  - left. reflexivity.
  - vm_compute. reflexivity.
Defined.

(** Lines 636-783: when the first answer to the detail request is
    accepted and the page is parsed to the end, the call sends that one
    request, sleeps never, and assigns to the record the three detail
    fields read from the page, [selftext], [num_comments] and
    [top_comments]; it returns the record. *)
Theorem fetch_details_success (net : nat -> string -> headers -> http_result)
    (rnd : nat -> draw) (cfg : config) (thread_data : loc) (σ : state)
    (rec : gmap string value) (url : string) (id : value) (resp : response) :
  heap σ !! thread_data = Some rec ->
  rec !! "permalink" = Some (VStr url) ->
  rec !! "id" = Some id ->
  (forall h, net (requests σ) (detail_url cfg url) h = Responded resp) ->
  classify cfg (Responded resp) = Success ->
  dv_fault (soup_detail (response_soup resp)) = None ->
  let out := _fetch_thread_details net rnd cfg thread_data σ in
  let dv := soup_detail (response_soup resp) in
  out.1 = Py.Ok thread_data
  /\ heap out.2 !! thread_data
     = Some (<["top_comments" := VComments (detail_comments cfg dv)]>
             (<["num_comments" := VInt (detail_comment_count dv)]>
              (<["selftext" := VStr (detail_selftext dv)]> rec)))
  /\ requests out.2 = S (requests σ)
  /\ exists h,
       trace out.2
       = trace σ ++ [EvDetails thread_data; EvHeaders h;
                     EvGet (requests σ) (detail_url cfg url) h; EvSaveCookies].
Proof.
  intros Hl Hp Hid Hnet Hc Hfault out dv. subst out dv. unfold _fetch_thread_details.
  set (σ0 := log [EvDetails thread_data] σ).
  assert (load thread_data "permalink" σ0 = Py.Ok (VStr url)) as ->.
  { unfold load. change (heap σ0) with (heap σ). rewrite Hl. cbn. rewrite Hp. reflexivity. }
  assert ((if debug cfg then load thread_data "id" σ0 else Py.Ok (VInt 0))
          = Py.Ok (if debug cfg then id else VInt 0)) as ->.
  { destruct (debug cfg); [|reflexivity].
    unfold load. change (heap σ0) with (heap σ). rewrite Hl. cbn. rewrite Hid. reflexivity. }
  change (if use_old_reddit cfg && negb (Py.contains "old.reddit.com" url)
          then Py.replace url "www.reddit.com" "old.reddit.com" else url)
    with (detail_url cfg url).
  unfold _make_request. rewrite make_request_run_unfold. cbn [fst snd].
  change (Z.to_nat 3) with 3%nat. cbn [attempts_from].
  change (requests σ0) with (requests σ).
  rewrite (step_first_success net rnd cfg (detail_url cfg url) _ _ _ resp (Hnet _) Hc).
  cbn [step_return step_log step_draws step_requests run_result run_log run_draws
       run_requests fst snd].
  split; [reflexivity|]. unfold enrich. rewrite Hfault. split; [|split].
  - rewrite !store_heap_same. cbn [heap]. change (heap σ0) with (heap σ). rewrite Hl.
    reflexivity.
  - reflexivity.
  - eexists. unfold run_trace. cbn [fst snd concat trace store log σ0 app].
    rewrite <- app_assoc. reflexivity.
Qed.

Lemma fetch_details_success_witness :
  let out := _fetch_thread_details (always (detail_answer sample_detail)) one_half
               default_config 1%positive sample_state in
  out.1 = Py.Ok 1%positive
  /\ heap out.2 !! 1%positive
     = Some (<["top_comments" := VComments (detail_comments default_config sample_detail)]>
             (<["num_comments" := VInt (detail_comment_count sample_detail)]>
              (<["selftext" := VStr (detail_selftext sample_detail)]> sample_record)))
  /\ requests out.2 = S (requests sample_state)
  /\ exists h,
       trace out.2
       = trace sample_state
         ++ [EvDetails 1%positive; EvHeaders h;
             EvGet (requests sample_state)
               (detail_url default_config
                  "https://www.reddit.com/r/TIFU/comments/abc123/a_title/") h;
             EvSaveCookies].
Proof.
  apply (fetch_details_success (always (detail_answer sample_detail)) one_half default_config
           1%positive sample_state sample_record
           "https://www.reddit.com/r/TIFU/comments/abc123/a_title/" (VStr "abc123")
           {| status_code := 200;
              response_url := "https://old.reddit.com/r/TIFU/comments/abc123/a_title/";
              response_soup := {|
                soup_title := Some "A title : TIFU"; soup_things := []; soup_by_id := [];
                soup_by_class := []; soup_articles := []; soup_shreddit := [];
                soup_comment_links := []; soup_detail := sample_detail |} |}).
  - reflexivity.
  - reflexivity.
  - reflexivity.
  - intros h. reflexivity.
  - reflexivity.
  - reflexivity.
Defined.
